(** * Sortr: the similarity index, the classification pipeline and undo

    A shallow embedding of [src/vector-store.ts] (classes [VectorStore] and
    [NoteSorter]) and of the parts of [src/memory.ts] they call, followed by
    the properties checked against the specification. The configuration
    ([src/config.ts]), the loop over the inbox and the note loop of the
    analyzer ([src/analyzer.ts]) come after the vocabulary of those
    statements, and their properties after the ones of the specification.

    Conventions of the embedding:
    - a JavaScript [number] is a binary64 float, Rocq's primitive [float];
      counters and list positions are [Z] or [nat];
    - a JavaScript string is a [string] (text is taken to be ASCII);
    - a method that may throw returns a [Result]; a method that also reads or
      writes the file system, the database or the console is a state
      transformer [Eff] over the record [World];
    - a path is the key of what is at it: the file system is a map from
      the paths, as the program forms them, to what is there;
    - the collaborators the code calls but does not define (the embedding
      model, the chat model, the interactive prompt, the JSON codec, the
      database driver, the sort of the JavaScript engine, the folder summary
      of the analyzer) are the fields of the record [Runtime]. *)

From Stdlib Require Import ZArith List Ascii String Floats Lia Permutation.
From Stdlib Require Import Sorting.Sorted.
From stdpp Require Import base gmap strings list pretty.

Set Warnings "-inexact-float".

Local Open Scope string_scope.
Local Open Scope list_scope.
Local Open Scope Z_scope.

(** ** Results of computations that may throw *)

Inductive Result (A : Type) : Type :=
  | Ok (a : A)
  | Throw (e : string).
Arguments Ok {A} a.
Arguments Throw {A} e.

Definition is_ok {A} (r : Result A) : bool :=
  match r with Ok _ => true | Throw _ => false end.

Definition rbind {A B} (r : Result A) (k : A -> Result B) : Result B :=
  match r with Ok a => k a | Throw e => Throw e end.

Fixpoint rmapM {A B} (f : A -> Result B) (l : list A) : Result (list B) :=
  match l with
  | [] => Ok []
  | x :: l' => rbind (f x) (fun y => rbind (rmapM f l') (fun ys => Ok (y :: ys)))
  end.

(** ** JavaScript numbers *)

Module Num.

Definition number := float.

Definition lt (a b : number) : bool := (a <? b)%float.
Definition le (a b : number) : bool := (a <=? b)%float.
Definition eq (a b : number) : bool := (a =? b)%float.
Definition isNaN (a : number) : bool := PrimFloat.is_nan a.

(** [x] lies in the closed interval from 0 to 1 (false for NaN). *)
Definition in_unit (x : number) : bool := le 0%float x && le x 1%float.

(** The float nearest to [m / d], for positive integers [m] and [d],
    rounded to nearest with ties to even. *)
Definition of_ratio (neg : bool) (m d : positive) : number :=
  let '(q, e, l) := SFdiv_core_binary prec emax (Zpos m) 0 (Zpos d) 0 in
  SF2Prim (binary_round_aux prec emax neg q e l).

(** The float nearest to [m * 10 ^ e10], with the sign [neg]. *)
Definition of_decimal (neg : bool) (m : N) (e10 : Z) : number :=
  match m with
  | N0 => if neg then neg_zero else zero
  | Npos p =>
      match e10 with
      | Zneg k => of_ratio neg p (Pos.pow 10 k)
      | _ => of_ratio neg (p * Z.to_pos (10 ^ e10))%positive 1
      end
  end.

End Num.
Export Num.

(** ** JavaScript strings *)

Module Str.

Definition chars := list_ascii_of_string.
Definition unchars := string_of_list_ascii.

(** White space and line terminators stripped by [String.prototype.trim]
    (the ASCII ones: tab, line feed, vertical tab, form feed, carriage
    return, space). *)
Definition is_space (c : ascii) : bool :=
  let n := nat_of_ascii c in
  ((9 <=? n) && (n <=? 13))%nat || (n =? 32)%nat.

Fixpoint dropWhile {A} (p : A -> bool) (l : list A) : list A :=
  match l with
  | [] => []
  | x :: l' => if p x then dropWhile p l' else l
  end.

Fixpoint takeWhile {A} (p : A -> bool) (l : list A) : list A :=
  match l with
  | [] => []
  | x :: l' => if p x then x :: takeWhile p l' else []
  end.

Definition trimStart (s : string) : string :=
  unchars (dropWhile is_space (chars s)).

Definition trim (s : string) : string :=
  unchars (rev (dropWhile is_space (rev (dropWhile is_space (chars s))))).

Definition startsWith (s p : string) : bool := String.prefix p s.

Fixpoint endsWith_list (l suf : list ascii) : bool :=
  if decide (l = suf) then true
  else match l with [] => false | _ :: l' => endsWith_list l' suf end.

Definition endsWith (s suf : string) : bool :=
  endsWith_list (chars s) (chars suf).

(** [s.substring(n)] for [0 <= n]. *)
Fixpoint dropStr (n : nat) (s : string) : string :=
  match n, s with
  | O, _ => s
  | S n', String _ s' => dropStr n' s'
  | S _, EmptyString => EmptyString
  end.

(** [s.substring(0, n)]. *)
Fixpoint takeStr (n : nat) (s : string) : string :=
  match n, s with
  | S n', String c s' => String c (takeStr n' s')
  | _, _ => EmptyString
  end.

(** [s.replace(pat, rep)] with a string pattern: the first occurrence. *)
Fixpoint replace (pat rep s : string) : string :=
  if String.prefix pat s then rep +:+ dropStr (String.length pat) s
  else match s with
       | EmptyString => EmptyString
       | String c s' => String c (replace pat rep s')
       end.

(** [s.split(sep)] for a one-character separator. *)
Fixpoint split_chars (sep : ascii) (cur : list ascii) (l : list ascii) : list string :=
  match l with
  | [] => [unchars (rev cur)]
  | c :: l' =>
      if Ascii.eqb c sep then unchars (rev cur) :: split_chars sep [] l'
      else split_chars sep (c :: cur) l'
  end.

Definition split (sep : ascii) (s : string) : list string :=
  split_chars sep [] (chars s).

Fixpoint join (sep : string) (l : list string) : string :=
  match l with
  | [] => ""
  | [x] => x
  | x :: l' => x +:+ sep +:+ join sep l'
  end.

(** [s.lastIndexOf(c)], [-1] when [c] does not occur. *)
Fixpoint lastIndexOf_from (c : ascii) (i : Z) (found : Z) (l : list ascii) : Z :=
  match l with
  | [] => found
  | x :: l' => lastIndexOf_from c (i + 1) (if Ascii.eqb x c then i else found) l'
  end.

Definition lastIndexOf (c : ascii) (s : string) : Z :=
  lastIndexOf_from c 0 (-1) (chars s).

(** [s.substring(a, b)]: negative bounds count as 0 and the bounds are
    swapped when [a > b]. *)
Definition substring (a b : Z) (s : string) : string :=
  let a := Z.max 0 a in
  let b := Z.max 0 b in
  let lo := Z.min a b in
  let hi := Z.max a b in
  takeStr (Z.to_nat (hi - lo)) (dropStr (Z.to_nat lo) s).

Definition is_digit (c : ascii) : bool :=
  let n := nat_of_ascii c in ((48 <=? n) && (n <=? 57))%nat.

Definition digit_val (c : ascii) : N := N.of_nat (nat_of_ascii c - 48).

Definition digits_val (l : list ascii) : N :=
  fold_left (fun acc c => (10 * acc + digit_val c)%N) l 0%N.

Definition stripPrefix (p l : list ascii) : option (list ascii) :=
  if decide (take (length p) l = p) then Some (drop (length p) l) else None.

(** The exponent part of a decimal literal: [e] or [E], an optional sign
    and at least one digit; 0 when there is none. *)
Definition exponentPart (l : list ascii) : Z :=
  match l with
  | c :: l1 =>
      if Ascii.eqb c "e" || Ascii.eqb c "E" then
        let '(neg, l2) :=
          match l1 with
          | s :: l2 =>
              if Ascii.eqb s "-" then (true, l2)
              else if Ascii.eqb s "+" then (false, l2)
              else (false, l1)
          | [] => (false, l1)
          end in
        match takeWhile is_digit l2 with
        | [] => 0
        | ds => let v := Z.of_N (digits_val ds) in if neg then - v else v
        end
      else 0
  | [] => 0
  end.

(** [parseFloat(s)]: leading white space is skipped, the longest prefix
    that is a decimal literal is converted, and the result is NaN when
    there is no such prefix. *)
Definition parseFloat (s : string) : number :=
  let l := dropWhile is_space (chars s) in
  let '(neg, l) :=
    match l with
    | c :: l' =>
        if Ascii.eqb c "-" then (true, l')
        else if Ascii.eqb c "+" then (false, l')
        else (false, l)
    | [] => (false, l)
    end in
  match stripPrefix (chars "Infinity") l with
  | Some _ => if neg then neg_infinity else infinity
  | None =>
      let ip := takeWhile is_digit l in
      let r1 := dropWhile is_digit l in
      let '(fp, r2) :=
        match r1 with
        | c :: r1' =>
            if Ascii.eqb c "."
            then (takeWhile is_digit r1', dropWhile is_digit r1')
            else ([], r1)
        | [] => ([], r1)
        end in
      match ip ++ fp with
      | [] => nan
      | ds => of_decimal neg (digits_val ds)
                (exponentPart r2 - Z.of_nat (length fp))
      end
  end.

End Str.

(** ** Paths: [join], [basename] and [extname] of Node's POSIX [path] *)

Module Path.

Definition slash : ascii := "/"%char.
Definition dot : ascii := "."%char.

(** One step of the segment walk of [normalize]: empty and ["."] segments
    are skipped, [".."] removes the segment before it (or is kept, for a
    relative path that climbs above its start). [acc] is in reverse. *)
Definition norm_step (allowAboveRoot : bool) (acc : list string) (seg : string)
  : list string :=
  if decide (seg = "" \/ seg = ".") then acc
  else if decide (seg = "..") then
    match acc with
    | top :: rest =>
        if decide (top = "..") then (if allowAboveRoot then ".." :: acc else acc)
        else rest
    | [] => if allowAboveRoot then [".."] else []
    end
  else seg :: acc.

Definition normalize (p : string) : string :=
  if decide (p = "") then "."
  else
    let isAbsolute := Str.startsWith p "/" in
    let trailing := Str.endsWith p "/" in
    let segs := rev (fold_left (norm_step (negb isAbsolute)) (Str.split slash p) []) in
    let body := Str.join "/" segs in
    if decide (body = "") then
      (if isAbsolute then "/" else if trailing then "./" else ".")
    else (if isAbsolute then "/" else "") +:+ body +:+ (if trailing then "/" else "").

(** [join(a, b)]: the non-empty arguments joined by ["/"], normalized. *)
Definition join (a b : string) : string :=
  if decide (a = "") then (if decide (b = "") then "." else normalize b)
  else if decide (b = "") then normalize a
  else normalize (a +:+ "/" +:+ b).

Definition join3 (a b c : string) : string :=
  normalize (Str.join "/" (filter (fun s => s <> "") [a; b; c])).

(** [basename(p)]: the last segment, trailing slashes ignored. *)
Definition basename (p : string) : string :=
  let r := Str.dropWhile (Ascii.eqb slash) (rev (Str.chars p)) in
  Str.unchars (rev (Str.takeWhile (fun c => negb (Ascii.eqb slash c)) r)).

(** [extname(p)]: from the last dot of the last segment, empty when that
    segment has no dot, starts with its only dot, or is [".."]. *)
Definition extname (p : string) : string :=
  let b := basename p in
  let i := Str.lastIndexOf dot b in
  if decide (i <= 0 \/ b = "..") then "" else Str.dropStr (Z.to_nat i) b.

(** [basename(p, ext)]: the last segment without the suffix [ext]. *)
Definition basename_ext (p ext : string) : string :=
  let b := basename p in
  if decide (ext = "" \/ (String.length p < String.length ext)%nat) then b
  else if decide (ext = p) then ""
  else if Str.endsWith b ext && negb (String.eqb b ext)
       then Str.takeStr (String.length b - String.length ext) b
       else b.

End Path.

(** ** The file system *)

Record FS := mkFS {
  files : gmap string string;     (* regular files and their text *)
  dirs : gset string              (* directories *)
}.

Module Fs.

Definition empty : FS := mkFS ∅ ∅.

Definition existsSync (fs : FS) (p : string) : bool :=
  bool_decide (is_Some (files fs !! p) \/ p ∈ dirs fs).

Definition readFileSync (fs : FS) (p : string) : Result string :=
  match files fs !! p with
  | Some c => Ok c
  | None => if bool_decide (p ∈ dirs fs) then Throw "EISDIR" else Throw "ENOENT"
  end.

(** The proper ancestors of [p]: what is before each of its slashes. *)
Fixpoint ancestors_from (pre : list ascii) (l : list ascii) : list string :=
  match l with
  | [] => []
  | c :: l' =>
      let rest := ancestors_from (c :: pre) l' in
      if Ascii.eqb c Path.slash
      then (if decide (pre = []) then rest else Str.unchars (rev pre) :: rest)
      else rest
  end.

Definition ancestors (p : string) : list string := ancestors_from [] (Str.chars p).

(** What making an entry at [p] asks of its path: it is not empty, and
    what stands before its last slash is a directory. A path of one
    segment lies in the root or in the working directory, which are
    there. *)
Definition parentCheck (fs : FS) (p : string) : Result unit :=
  if decide (p = "") then Throw "ENOENT"
  else
    match last (ancestors p) with
    | None => Ok tt
    | Some d =>
        if bool_decide (d ∈ dirs fs) then Ok tt
        else if bool_decide (is_Some (files fs !! d)) then Throw "ENOTDIR"
        else Throw "ENOENT"
    end.

(** [mkdirSync(p, {recursive: true})]: creates [p] and its missing
    ancestors, and does nothing when [p] is a directory already; fails for
    the empty path, when an ancestor of [p] is a regular file, and when
    [p] is one. *)
Definition mkdirSync (fs : FS) (p : string) : Result FS :=
  if decide (p = "") then Throw "ENOENT"
  else if existsb (fun d => bool_decide (is_Some (files fs !! d))) (ancestors p)
  then Throw "ENOTDIR"
  else if bool_decide (is_Some (files fs !! p)) then Throw "EEXIST"
  else Ok (mkFS (files fs) (dirs fs ∪ list_to_set (ancestors p ++ [p]))).

(** [p] lies below the directory [d]. *)
Definition below (d p : string) : bool := Str.startsWith p (d +:+ "/").

(** The path of [p] once the directory [src] has become [dst]. *)
Definition rebase (src dst p : string) : string :=
  if decide (p = src) then dst
  else if below src p then dst +:+ Str.dropStr (String.length src) p
  else p.

(** Something lies below the directory [d]. *)
Definition occupied (fs : FS) (d : string) : bool :=
  bool_decide (set_Exists (fun p => below d p = true) (dom (files fs) ∪ dirs fs)).

(** [renameSync(src, dst)]. A regular file replaces the file at [dst],
    if there is one, and cannot replace a directory. A directory moves
    with all that lies below it; it can replace an empty directory only,
    and cannot move below itself. In both cases the directory [dst] lies
    in has to exist. *)
Definition renameSync (fs : FS) (src dst : string) : Result FS :=
  match files fs !! src with
  | Some c =>
      if bool_decide (dst ∈ dirs fs) then Throw "EISDIR"
      else
        rbind (parentCheck fs dst) (fun _ =>
        Ok (mkFS (<[dst := c]> (delete src (files fs))) (dirs fs)))
  | None =>
      if bool_decide (src ∈ dirs fs) then
        if decide (dst = src) then Ok fs
        else if bool_decide (is_Some (files fs !! dst)) then Throw "ENOTDIR"
        else if below src dst then Throw "EINVAL"
        else if bool_decide (dst ∈ dirs fs) && occupied fs dst then Throw "ENOTEMPTY"
        else
          rbind (parentCheck fs dst) (fun _ =>
          Ok (mkFS (kmap (rebase src dst) (files fs))
                   (set_map (rebase src dst) (dirs fs))))
      else Throw "ENOENT"
  end.

(** The steps of [writeFile(p, text)]: the file is opened for writing,
    which creates or empties it, and then the text is written. The file
    can be opened when its path is not a directory and lies in a
    directory that exists. *)
Inductive op :=
  | Truncate (p : string)
  | Append (p : string) (text : string)
  | Rename (src dst : string).

Definition writeFile_ops (p text : string) : list op :=
  [Truncate p; Append p text].

Definition step (fs : FS) (o : op) : Result FS :=
  match o with
  | Truncate p =>
      if bool_decide (p ∈ dirs fs) then Throw "EISDIR"
      else
        rbind (parentCheck fs p) (fun _ =>
        Ok (mkFS (<[p := ""]> (files fs)) (dirs fs)))
  | Append p text =>
      match files fs !! p with
      | Some c => Ok (mkFS (<[p := c +:+ text]> (files fs)) (dirs fs))
      | None => Throw "EBADF"
      end
  | Rename src dst => renameSync fs src dst
  end.

(** Running the steps in order; the first failure stops the run and
    leaves what the earlier steps did. *)
Fixpoint run (fs : FS) (ops : list op) : FS * Result unit :=
  match ops with
  | [] => (fs, Ok tt)
  | o :: ops' =>
      match step fs o with
      | Ok fs' => run fs' ops'
      | Throw e => (fs, Throw e)
      end
  end.

Definition writeFile (fs : FS) (p text : string) : FS * Result unit :=
  run fs (writeFile_ops p text).

(** The file systems a crash can leave behind while [ops] run: the state
    after each proper prefix of the steps. *)
Definition crash_states (fs : FS) (ops : list op) : list FS :=
  map (fun n => fst (run fs (take n ops))) (seq 0 (length ops)).

End Fs.

(** ** Data of the program ([types.ts]) *)

Record Metadata := mkMetadata {
  md_filePath : string;
  md_folderPath : string;
  md_createdAt : string
}.

Record VectorEntry := mkVectorEntry {
  ve_id : string;
  ve_embedding : list number;
  ve_metadata : Metadata
}.

Record SimilarNote := mkSimilarNote {
  sn_id : string;
  sn_filePath : string;
  sn_folderPath : string;
  sn_similarity : number;
  sn_document : string
}.

Record SortSuggestion := mkSuggestion {
  folder : string;
  confidence : number;
  reason : string
}.

Record SortResult := mkSortResult {
  success : bool;
  from : option string;
  to : option string;
  res_confidence : option number;
  error : option string
}.

Definition failed (msg : string) : SortResult :=
  mkSortResult false None None None (Some msg).

Definition succeeded (src dst : string) (c : number) : SortResult :=
  mkSortResult true (Some src) (Some dst) (Some c) None.

(** A row of the table [notes] and of the table [sort_history], with the
    columns of the [CREATE TABLE] statements of [memory.ts]. *)
Record NoteRow := mkNoteRow {
  file_path : string;
  folder_path : string;
  content_preview : string;
  created_at : Z;
  updated_at : Z;
  file_size : Z;
  word_count : Z
}.

Record SortRow := mkSortRow {
  id : Z;
  note_id : string;
  from_path : string;
  to_path : string;
  row_confidence : option number;  (* [None] is NULL *)
  timestamp : Z
}.

Record Config := mkConfig {
  workspacePath : string;         (* what [getWorkspacePath()] returns *)
  dataPath : string;              (* the data directory of the memory *)
  model : string;
  confidenceThreshold : number;
  topKSimilar : Z
}.

(** The answer to a yes/no prompt: a boolean, or the cancel symbol. *)
Inductive Answer := Yes | No | Cancelled.

(** What [getSuggestion] puts into its prompt. *)
Record ChatRequest := mkChatRequest {
  req_folderStructure : string;
  req_similar : list SimilarNote;       (* at most three *)
  req_filename : string;
  req_content : string                  (* the first 1000 characters *)
}.

(** What is written to the console or asked on it. *)
Inductive Event :=
  | WarnLoadFailed
  | ErrSaveFailed
  | ErrReading (file : string)
  | WarnTooShort (file : string)
  | ErrNoFolder (file : string)
  | WarnLowConfidence (file : string) (s : SortSuggestion)
  | Asked (message : string) (a : Answer)
  | ShowSuggestion (file : string) (s : SortSuggestion)
  | NoteDryRun
  | WarnMemory
  | MovedOk
  | ErrMoving
  | ErrLLM
  | WarnNoSorts
  | ErrFileNotFound (path : option string)
  | Undone
  | ErrUndo.

(** The collaborators of the code. [embedFn] is [None] until the memory
    is initialized; then it gives the answer of the embedding model to the
    call of a given number (the calls are counted from 0) on a text, which
    is a vector or the exception of the provider: the model may answer one
    call and fail the next. [chat] and [json_parse] return [None] when the
    call throws. A snapshot that parses is taken to be an array of entries,
    as the code's type annotation has it. [rowProperty r key] is the text
    property [key] of the object the database driver returns for the row
    [r] of [sort_history], [None] when the object has no such property.
    [sortOrder sims] is the arrangement the sort of the JavaScript engine
    gives an array whose similarities [sims] make the comparator
    inconsistent, as the positions at which the elements are put in turn
    (see [arrange]). *)
Record Runtime := mkRuntime {
  embedFn : option (nat -> string -> Result (list number));
  chat : ChatRequest -> option string;
  confirm : string -> Answer;
  json_stringify : list VectorEntry -> string;
  json_parse : string -> option (list VectorEntry);
  folderSummary : gmap string NoteRow -> string;
  rowProperty : SortRow -> string -> option string;
  sortOrder : list number -> list nat;
  now : Z;                         (* [Date.now()] *)
  nowISO : string                  (* [new Date().toISOString()] *)
}.

(** Everything the code reads and writes, and the number of calls made
    to the embedding model so far. What the embedding provider prints
    itself is not part of the console. *)
Record World := mkWorld {
  fs : FS;
  vectors : list VectorEntry;                (* [VectorStore.vectors] *)
  notes : gmap string NoteRow;               (* table [notes], by [id] *)
  folder_stats : gmap string (Z * Z);        (* table [folder_stats] *)
  sort_history : list SortRow;               (* table [sort_history], oldest first *)
  console : list Event;                      (* oldest first *)
  embedCalls : nat
}.

(** ** Effects: a state transformer that may throw *)

Definition Eff (A : Type) : Type := World -> World * Result A.

Definition ret {A} (a : A) : Eff A := fun w => (w, Ok a).
Definition throw {A} (e : string) : Eff A := fun w => (w, Throw e).
Definition bind {A B} (c : Eff A) (k : A -> Eff B) : Eff B :=
  fun w => match c w with
           | (w', Ok a) => k a w'
           | (w', Throw e) => (w', Throw e)
           end.
(** [try { c } catch { h }]: what [c] did before throwing stays done. *)
Definition catch {A} (c : Eff A) (h : string -> Eff A) : Eff A :=
  fun w => match c w with
           | (w', Ok a) => (w', Ok a)
           | (w', Throw e) => h e w'
           end.
Definition lift {A} (r : Result A) : Eff A := fun w => (w, r).
Definition gets {A} (f : World -> A) : Eff A := fun w => (w, Ok (f w)).
Definition modify (f : World -> World) : Eff unit := fun w => (f w, Ok tt).

Notation "'let*' x ':=' c 'in' k" := (bind c (fun x => k))
  (at level 10, x name, c at level 100, k at level 200).
Notation "'do' c 'then' k" := (bind c (fun _ => k))
  (at level 10, c at level 100, k at level 200).

Definition set_fs (f : FS) (w : World) : World :=
  mkWorld f (vectors w) (notes w) (folder_stats w) (sort_history w) (console w)
    (embedCalls w).
Definition set_vectors (v : list VectorEntry) (w : World) : World :=
  mkWorld (fs w) v (notes w) (folder_stats w) (sort_history w) (console w)
    (embedCalls w).
Definition set_notes (n : gmap string NoteRow) (w : World) : World :=
  mkWorld (fs w) (vectors w) n (folder_stats w) (sort_history w) (console w)
    (embedCalls w).
Definition set_folder_stats (s : gmap string (Z * Z)) (w : World) : World :=
  mkWorld (fs w) (vectors w) (notes w) s (sort_history w) (console w)
    (embedCalls w).
Definition set_sort_history (h : list SortRow) (w : World) : World :=
  mkWorld (fs w) (vectors w) (notes w) (folder_stats w) h (console w)
    (embedCalls w).

Definition log (e : Event) : Eff unit :=
  modify (fun w => mkWorld (fs w) (vectors w) (notes w) (folder_stats w)
                     (sort_history w) (console w ++ [e]) (embedCalls w)).

(** The world after one more call to the embedding model. *)
Definition called (w : World) : World :=
  mkWorld (fs w) (vectors w) (notes w) (folder_stats w) (sort_history w)
    (console w) (S (embedCalls w)).

(** A file-system call that returns a new file system or throws. *)
Definition fs_update (f : FS -> Result FS) : Eff unit :=
  fun w => match f (fs w) with
           | Ok fs' => (set_fs fs' w, Ok tt)
           | Throw e => (w, Throw e)
           end.

Definition existsSync (p : string) : Eff bool := gets (fun w => Fs.existsSync (fs w) p).
Definition readFileSync (p : string) : Eff string := fun w => (w, Fs.readFileSync (fs w) p).
Definition mkdirSync (p : string) : Eff unit := fs_update (fun f => Fs.mkdirSync f p).
Definition renameSync (src dst : string) : Eff unit :=
  fs_update (fun f => Fs.renameSync f src dst).
Definition writeFile (p text : string) : Eff unit :=
  fun w => let '(f, r) := Fs.writeFile (fs w) p text in (set_fs f w, r).

(** ** [VectorStore] *)

Module VectorStore.

Definition storePath (cfg : Config) : string :=
  Path.join (dataPath cfg) "vectors.json".

(** The loop of [cosineSimilarity]: the three running sums. *)
Definition sums (a b : list number) : number * number * number :=
  fold_left
    (fun '(dotProduct, normA, normB) '(x, y) =>
       ((dotProduct + x * y)%float, (normA + x * x)%float, (normB + y * y)%float))
    (combine a b) (0%float, 0%float, 0%float).

(** The body of [cosineSimilarity] after its length check. *)
Definition cosine (a b : list number) : number :=
  let '(dotProduct, normA, normB) := sums a b in
  let normA := PrimFloat.sqrt normA in
  let normB := PrimFloat.sqrt normB in
  if Num.eq normA 0%float || Num.eq normB 0%float then 0%float
  else (dotProduct / (normA * normB))%float.

Definition cosineSimilarity (a b : list number) : Result number :=
  if negb (length a =? length b)%nat then Throw "Vectors must have same length"
  else Ok (cosine a b).

Record Scored := mkScored { entry : VectorEntry; similarity : number }.

(** The comparator handed to [sort]. *)
Definition compareFn (a b : Scored) : number :=
  (similarity b - similarity a)%float.

(** [Array.prototype.sort(cmp)]: a stable sort that puts [b] before [a]
    only when [cmp(a, b) > 0] (a NaN from [cmp] counts as 0). The standard
    fixes the result for a consistent comparator; it is computed here by
    insertion, from the right. *)
Section Sort.
Context {A : Type} (cmp : A -> A -> number).

Fixpoint insert (x : A) (l : list A) : list A :=
  match l with
  | [] => [x]
  | h :: t => if Num.lt 0%float (cmp x h) then h :: insert x t else x :: l
  end.

Fixpoint sort (l : list A) : list A :=
  match l with
  | [] => []
  | x :: l' => insert x (sort l')
  end.
End Sort.

(** An arrangement of a list: its elements are put, last to first, at
    the positions [code] gives (a position beyond the end is the end).
    Every order of the elements is given by some code. *)
Fixpoint putAt {A} (n : nat) (x : A) (l : list A) : list A :=
  match n, l with
  | S n', h :: t => h :: putAt n' x t
  | _, _ => x :: l
  end.

Fixpoint arrange {A} (code : list nat) (l : list A) : list A :=
  match l with
  | [] => []
  | x :: l' => putAt (hd 0%nat code) x (arrange (tl code) l')
  end.

(** [similarities.sort((a, b) => b.similarity - a.similarity)]. When no
    similarity is NaN the comparator is consistent and the result is the
    one the standard fixes. Otherwise the order is implementation-defined:
    it is the arrangement the engine gives. *)
Definition sortBySimilarity (rt : Runtime) (similarities : list Scored) : list Scored :=
  if forallb (fun s => negb (Num.isNaN (similarity s))) similarities
  then sort compareFn similarities
  else arrange (sortOrder rt (map similarity similarities)) similarities.

(** [arr.slice(0, k)] for an integer [k]: a negative [k] counts from the
    end. *)
Definition slice0 {A} (k : Z) (l : list A) : list A :=
  let n := Z.of_nat (length l) in
  let stop := if k <? 0 then Z.max (n + k) 0 else Z.min k n in
  take (Z.to_nat stop) l.

Definition toSimilarNote (s : Scored) : SimilarNote :=
  mkSimilarNote (ve_id (entry s)) (md_filePath (ve_metadata (entry s)))
    (md_folderPath (ve_metadata (entry s))) (similarity s) "".

Definition score (embedding : list number) (e : VectorEntry) : Result Scored :=
  rbind (cosineSimilarity embedding (ve_embedding e)) (fun s => Ok (mkScored e s)).

Definition query (rt : Runtime) (vs : list VectorEntry) (embedding : list number)
    (topK : Z) : Result (list SimilarNote) :=
  if (length vs =? 0)%nat then Ok []
  else
    rbind (rmapM (score embedding) vs) (fun similarities =>
    let sorted := sortBySimilarity rt similarities in
    let topResults := slice0 topK sorted in
    Ok (map toSimilarNote topResults)).

Definition add (vs : list VectorEntry) (e : VectorEntry) : list VectorEntry :=
  filter (fun v => ve_id v <> ve_id e) vs ++ [e].

Definition clear : list VectorEntry := [].

Definition size (vs : list VectorEntry) : Z := Z.of_nat (length vs).

Section Persistence.
Context (rt : Runtime) (cfg : Config).

Definition load_body : Eff unit :=
  let* present := existsSync (storePath cfg) in
  if present : bool then
    let* content := readFileSync (storePath cfg) in
    match json_parse rt content with
    | Some vs => modify (set_vectors vs)
    | None => throw "SyntaxError"
    end
  else ret tt.

Definition load : Eff unit :=
  catch load_body
    (fun _ => do log WarnLoadFailed then modify (set_vectors [])).

(** The file-system steps [save] asks for. *)
Definition save_ops (vs : list VectorEntry) : list Fs.op :=
  Fs.writeFile_ops (storePath cfg) (json_stringify rt vs).

Definition save : Eff unit :=
  catch
    (let* vs := gets vectors in
     let content := json_stringify rt vs in
     writeFile (storePath cfg) content)
    (fun _ => log ErrSaveFailed).
End Persistence.

End VectorStore.

(** ** [MemoryManager] *)

Module MemoryManager.

(** [content.split(/\s+/).length]: one more than the number of runs of
    white space. *)
Fixpoint countRuns (inRun : bool) (l : list ascii) : Z :=
  match l with
  | [] => 0
  | c :: l' =>
      if Str.is_space c
      then (if inRun then 0 else 1) + countRuns true l'
      else countRuns false l'
  end.

Definition wordCount (content : string) : Z :=
  1 + countRuns false (Str.chars content).

(** [AUTOINCREMENT]: one more than the largest [id] in the table. *)
Definition nextId (h : list SortRow) : Z :=
  1 + fold_right Z.max 0 (map id h).

(** [SELECT * FROM sort_history ORDER BY id DESC LIMIT 1]. *)
Definition getLastSort (h : list SortRow) : option SortRow :=
  fold_left
    (fun best r =>
       match best with
       | None => Some r
       | Some b => if id b <? id r then Some r else Some b
       end)
    h None.

(** The row object of a driver that names the properties after the
    columns of the table, as [SELECT *] gives them: any other key, such as
    [toPath], is [undefined]. *)
Definition columnProperty (r : SortRow) (key : string) : option string :=
  if decide (key = "note_id") then Some (note_id r)
  else if decide (key = "from_path") then Some (from_path r)
  else if decide (key = "to_path") then Some (to_path r)
  else None.

Section Methods.
Context (rt : Runtime) (cfg : Config).

Definition updateFolderStats (folderPath : string) : Eff unit :=
  modify (fun w =>
    let count := Z.of_nat (size (filter (fun kv => folder_path (snd kv) = folderPath) (notes w))) in
    set_folder_stats (<[folderPath := (count, now rt)]> (folder_stats w)) w).

(** [await embed(content)]: one more call to the embedding model; its
    exception, if it fails, is thrown on. *)
Definition await_embed (embed : nat -> string -> Result (list number))
    (content : string) : Eff (list number) :=
  fun w => (called w, embed (embedCalls w) content).

Definition addNote (filePath content folderPath : string) : Eff unit :=
  let noteId := filePath in
  match embedFn rt with
  | None => throw "Embedding function not initialized"
  | Some embed =>
      let* embedding := await_embed embed content in
      do modify (fun w =>
           set_vectors
             (VectorStore.add (vectors w)
                (mkVectorEntry noteId embedding
                   (mkMetadata filePath folderPath (nowISO rt)))) w) then
      do VectorStore.save rt cfg then
      do modify (fun w =>
           set_notes
             (<[noteId := mkNoteRow filePath folderPath (Str.takeStr 200 content)
                            (now rt) (now rt)
                            (Z.of_nat (String.length content))
                            (wordCount content)]> (notes w)) w) then
      updateFolderStats folderPath
  end.

Definition findSimilarNotes (content : string) (topK : Z) : Eff (list SimilarNote) :=
  match embedFn rt with
  | None => throw "Embedding function not initialized"
  | Some embed =>
      let* embedding := await_embed embed content in
      let* vs := gets vectors in
      let* results := lift (VectorStore.query rt vs embedding topK) in
      let* db := gets notes in
      ret (map (fun result =>
                  mkSimilarNote (sn_id result) (sn_filePath result)
                    (sn_folderPath result) (sn_similarity result)
                    (match db !! sn_id result with
                     | Some note => content_preview note
                     | None => ""
                     end))
               results)
  end.

(** The value bound to the column [confidence], as it is read back:
    SQLite stores a NaN as NULL, and in a column of type REAL a number
    that is an integer as that integer, which makes the zero read back
    the positive one. *)
Definition bound (c : number) : option number :=
  if Num.isNaN c then None
  else if Num.eq c 0%float then Some 0%float
  else Some c.

(** The row is inserted with the next id (the reference of [note_id] to
    the table of notes is not enforced, as SQLite has it unless asked). *)
Definition recordSort (noteId fromPath toPath : string) (c : number) : Eff unit :=
  modify (fun w =>
    set_sort_history
      (sort_history w ++
         [mkSortRow (nextId (sort_history w)) noteId fromPath toPath (bound c) (now rt)]) w).
End Methods.

End MemoryManager.

(** ** [NoteSorter] *)

Module NoteSorter.

Definition occurrences (v : string) (arr : list string) : nat :=
  length (filter (fun x => x = v) arr).

(** [folders.reduce((a, b, i, arr) => count(a) >= count(b) ? a : b)] on a
    non-empty array. *)
Definition mostCommon (first : string) (rest : list string) : string :=
  let arr := first :: rest in
  fold_left
    (fun a b => if (occurrences b arr <=? occurrences a arr)%nat then a else b)
    rest first.

Definition parseLine (acc : SortSuggestion) (line : string) : SortSuggestion :=
  let trimmed := Str.trim line in
  if Str.startsWith trimmed "FOLDER:" then
    mkSuggestion (Str.trim (Str.replace "FOLDER:" "" trimmed))
      (confidence acc) (reason acc)
  else if Str.startsWith trimmed "CONFIDENCE:" then
    let confStr :=
      Str.replace "%" "" (Str.trim (Str.replace "CONFIDENCE:" "" trimmed)) in
    mkSuggestion (folder acc) (Str.parseFloat confStr / 100)%float (reason acc)
  else if Str.startsWith trimmed "REASON:" then
    mkSuggestion (folder acc) (confidence acc)
      (Str.trim (Str.replace "REASON:" "" trimmed))
  else acc.

Definition parseLLMResponse (response : string) : SortSuggestion :=
  let lines := Str.split "010"%char (Str.trim response) in
  fold_left parseLine lines (mkSuggestion "" 0%float "").

Definition fallback (similarNotes : list SimilarNote) : SortSuggestion :=
  match map sn_folderPath similarNotes with
  | first :: rest =>
      mkSuggestion (mostCommon first rest) 0.5%float "Fallback: based on similar notes"
  | [] => mkSuggestion "" 0%float ""
  end.

(** The candidates of the conflict loop of [moveNote]: while the
    destination exists, the next counter is tried. Every pass of the loop
    takes one unit of [fuel]; [None] when it runs out. *)
Fixpoint freeName (fuel : nat) (f : FS) (destFolder name ext : string)
    (destination : string) (counter : N) : option string :=
  if Fs.existsSync f destination then
    match fuel with
    | O => None
    | S fuel' =>
        freeName fuel' f destFolder name ext
          (Path.join destFolder (name +:+ "_" +:+ pretty counter +:+ ext))
          (counter + 1)%N
    end
  else Some destination.

(** Enough passes for any file system: one more than its entries. *)
Definition enough (f : FS) : nat := S (size (files f) + size (dirs f)).

Section Methods.
Context (rt : Runtime) (cfg : Config).

Definition getSuggestion (content : string) (similarNotes : list SimilarNote)
    (folderStructure filename : string) : Eff SortSuggestion :=
  let request :=
    mkChatRequest folderStructure (take 3 similarNotes) filename
      (Str.takeStr 1000 content) in
  match chat rt request with
  | Some reply => ret (parseLLMResponse reply)
  | None => do log ErrLLM then ret (fallback similarNotes)
  end.

Definition moveNote (sourcePath destinationFolder : string) : Eff (option string) :=
  catch
    (let workspace := workspacePath cfg in
     let destFolder := Path.join workspace destinationFolder in
     let* present := existsSync destFolder in
     do (if present : bool then ret tt else mkdirSync destFolder) then
     let destination := Path.join destFolder (Path.basename sourcePath) in
     let name := Path.basename_ext sourcePath (Path.extname sourcePath) in
     let ext := Path.extname sourcePath in
     let* f := gets fs in
     match freeName (enough f) f destFolder name ext destination 1%N with
     | None => throw "unreachable: the conflict loop ends"
     | Some destination =>
         do renameSync sourcePath destination then
         ret (Some destination)
     end)
    (fun _ => do log ErrMoving then ret None).

(** The prompt [prompts.confirm({message})] and the test
    [isCancel(x) || !x] on its answer. *)
Definition declined (message : string) : Eff bool :=
  let a := confirm rt message in
  do log (Asked message a) then
  ret (match a with Yes => false | No | Cancelled => true end).

(** [sortNote] from "Show suggestion" to its end: the dry run, the
    confirmation of the move, the move and its bookkeeping. *)
Definition proceed (notePath : string) (auto dryRun : bool)
    (suggestion : SortSuggestion) : Eff SortResult :=
  let file := Path.basename notePath in
  do log (ShowSuggestion file suggestion) then
  if dryRun then
    do log NoteDryRun then
    ret (succeeded notePath
           (Path.join3 (workspacePath cfg) (folder suggestion) file)
           (confidence suggestion))
  else
    let* stop := (if negb auto then declined "Move note?" else ret false) in
    if stop : bool then ret (failed "User cancelled")
    else
      let* destination := moveNote notePath (folder suggestion) in
      match destination with
      | Some destination =>
          do MemoryManager.recordSort rt notePath notePath destination
               (confidence suggestion) then
          do catch
               (let* newContent := readFileSync destination in
                MemoryManager.addNote rt cfg destination newContent
                  (folder suggestion))
               (fun _ => log WarnMemory) then
          do log MovedOk then
          ret (succeeded notePath destination (confidence suggestion))
      | None => ret (failed "Failed to move file")
      end.

(** [sortNote] from the test on [suggestion.folder]: the missing
    folder, then the check of the confidence threshold. *)
Definition applySuggestion (notePath : string) (auto dryRun : bool)
    (suggestion : SortSuggestion) : Eff SortResult :=
  let file := Path.basename notePath in
  if decide (folder suggestion = "") then
    do log (ErrNoFolder file) then ret (failed "No suggestion")
  else
    let threshold := confidenceThreshold cfg in
    let* stop :=
      (if Num.lt (confidence suggestion) threshold then
         do log (WarnLowConfidence file suggestion) then
         if negb auto then declined "Proceed anyway?" else ret false
       else ret false) in
    if stop : bool then ret (failed "User cancelled")
    else proceed notePath auto dryRun suggestion.

Definition sortNote (notePath : string) (auto dryRun : bool) : Eff SortResult :=
  let file := Path.basename notePath in
  let* content :=
    catch
      (let* content := readFileSync notePath in ret (Some content))
      (fun _ => do log (ErrReading file) then ret None) in
  match content with
  | None => ret (failed "Failed to read file")
  | Some content =>
      if (String.length (Str.trim content) <? 10)%nat then
        do log (WarnTooShort file) then ret (failed "Content too short")
      else
        let* similarNotes :=
          MemoryManager.findSimilarNotes rt content (topKSimilar cfg) in
        let* folderStructure := gets (fun w => folderSummary rt (notes w)) in
        let* suggestion :=
          getSuggestion content similarNotes folderStructure file in
        applySuggestion notePath auto dryRun suggestion
  end.

Definition undoLastSort : Eff bool :=
  let* lastSort := gets (fun w => MemoryManager.getLastSort (sort_history w)) in
  match lastSort with
  | None => do log WarnNoSorts then ret false
  | Some lastSort =>
      let toPath := rowProperty rt lastSort "toPath" in
      let fromPath := rowProperty rt lastSort "fromPath" in
      (* [existsSync(undefined)] is false, and [undefined.substring]
         throws a [TypeError] *)
      let* present :=
        (match toPath with Some p => existsSync p | None => ret false end) in
      if negb present then
        do log (ErrFileNotFound toPath) then ret false
      else
        catch
          (match fromPath, toPath with
           | Some fromPath, Some toPath =>
               let sourceDir :=
                 Str.substring 0 (Str.lastIndexOf Path.slash fromPath) fromPath in
               let* there := existsSync sourceDir in
               do (if there : bool then ret tt else mkdirSync sourceDir) then
               do renameSync toPath fromPath then
               do log Undone then
               ret true
           | _, _ => throw "TypeError"
           end)
          (fun _ => do log ErrUndo then ret false)
  end.
End Methods.

End NoteSorter.

(** * Vocabulary of the statements *)

(** ** Order of binary64 floats *)

(** A key whose lexicographic order is the order of the floats other
    than NaN: the class (infinities, sign, zero), then the exponent and
    the mantissa, both negated for a negative float. *)
Definition key (f : spec_float) : Z * Z * Z :=
  match f with
  | S754_zero _ => (0, 0, 0)
  | S754_infinity s => (if s then -2 else 2, 0, 0)
  | S754_nan => (0, 0, 0)
  | S754_finite s m e => if s then (-1, - e, Zneg m) else (1, e, Zpos m)
  end.

Definition cmp3 (a b : Z * Z * Z) : comparison :=
  let '(a1, a2, a3) := a in
  let '(b1, b2, b3) := b in
  match a1 ?= b1 with
  | Eq => match a2 ?= b2 with Eq => a3 ?= b3 | c => c end
  | c => c
  end.

Definition is_nanS (f : spec_float) : bool :=
  match f with S754_nan => true | _ => false end.

Definition klt (a b : Z * Z * Z) : Prop :=
  let '(a1, a2, a3) := a in
  let '(b1, b2, b3) := b in
  a1 < b1 \/ (a1 = b1 /\ (a2 < b2 \/ (a2 = b2 /\ a3 < b3))).

Definition fkey (x : float) : Z * Z * Z := key (Prim2SF x).

Abbreviation emin64 := (SpecFloat.emin prec emax).

Definition zeroS : spec_float := S754_zero false.

(** ** Ranking of scored entries *)

Definition sim_ok (s : VectorStore.Scored) : Prop := Num.isNaN (VectorStore.similarity s) = false.


Definition tied (x : number) (s : VectorStore.Scored) : Prop := Num.eq (VectorStore.similarity s) x = true.

Instance tied_dec x s : Decision (tied x s).
Proof. unfold tied. apply _. Defined.

(** The element of the array [similarities] of [query] for the entry [e]. *)
Definition scoredBy (q : list number) (e : VectorEntry) : VectorStore.Scored :=
  VectorStore.mkScored e (VectorStore.cosine q (ve_embedding e)).

(** The index and the query have one dimension. *)
Definition same_dimension (q : list number) (vs : list VectorEntry) : Prop :=
  Forall (fun e => length (ve_embedding e) = length q) vs.

(** No similarity of the query to an entry is NaN. *)
Definition comparable (q : list number) (vs : list VectorEntry) : Prop :=
  Forall (fun e => Num.isNaN (VectorStore.cosine q (ve_embedding e)) = false) vs.

(** The cosine similarity of the specification, on binary64 floats: the
    dot product of the two vectors over the product of their norms, each
    sum taken from the first component on; 0 when a norm is 0. *)
Definition dot (a b : list number) : number :=
  fold_left (fun acc '(x, y) => (acc + x * y)%float) (combine a b) 0%float.





Definition sample_entry (name : string) (x y : number) : VectorEntry :=
  mkVectorEntry name [x; y] (mkMetadata name "work" "2024-01-01T00:00:00.000Z").


(** ** Persistence *)

(** The design the specification asks of [save]: the text goes to a
    temporary file, which then replaces the snapshot by a rename. *)
Definition writes_via_temp (rt : Runtime) (cfg : Config) (vs : list VectorEntry) : Prop :=
  exists tmp,
    tmp <> VectorStore.storePath cfg /\
    VectorStore.save_ops rt cfg vs
    = Fs.writeFile_ops tmp (json_stringify rt vs)
        ++ [Fs.Rename tmp (VectorStore.storePath cfg)].

(** A crash while [save] runs leaves the snapshot as it was. *)
Definition snapshot_survives_crash (rt : Runtime) (cfg : Config)
    (vs : list VectorEntry) (f : FS) : Prop :=
  forall f', In f' (Fs.crash_states f (VectorStore.save_ops rt cfg vs)) ->
    files f' !! VectorStore.storePath cfg = files f !! VectorStore.storePath cfg.

(** The file at [p] can be opened for writing: [p] is not a directory and
    lies in a directory that exists. *)
Definition writable (f : FS) (p : string) : Prop :=
  (p ∉ dirs f) /\ Fs.parentCheck f p = Ok tt.

Instance writable_dec f p : Decision (writable f p).
Proof.
  unfold writable. apply and_dec; [apply _|].
  destruct (Fs.parentCheck f p) as [[]|e]; [left; reflexivity|right; discriminate].
Defined.

(** Reading or parsing the snapshot fails. *)
Definition snapshot_unreadable (rt : Runtime) (cfg : Config) (f : FS) : Prop :=
  match Fs.readFileSync f (VectorStore.storePath cfg) with
  | Ok text => json_parse rt text = None
  | Throw _ => True
  end.

Definition logged (e : Event) (w : World) : World :=
  mkWorld (fs w) (vectors w) (notes w) (folder_stats w) (sort_history w)
    (console w ++ [e]) (embedCalls w).

(** Two worlds that differ at most in what was written to the console
    (and in the number of calls made to the embedding model). *)
Definition same_state (w w' : World) : Prop :=
  fs w' = fs w /\ vectors w' = vectors w /\ notes w' = notes w /\
  folder_stats w' = folder_stats w /\ sort_history w' = sort_history w.

(** The driver gives the destination of a row under the key [toPath] or
    gives nothing under that key. *)
Definition toPath_is_destination (rt : Runtime) (r : SortRow) : Prop :=
  forall p, rowProperty rt r "toPath" = Some p -> p = to_path r.

(** ** A sample installation, for the examples *)

Definition nl : string := String "010"%char "".

Definition cfg0 : Config := mkConfig "/ws" "/data" "llama3.2:3b" 0.7%float 5.

(** A stand-in for the JSON codec: the ids of the entries, and a parser
    that knows the empty array only. *)
Definition ids_only (vs : list VectorEntry) : string :=
  "[" +:+ Str.join "," (map ve_id vs) +:+ "]".

Definition rt0 (reply : option string) (answer : Answer) : Runtime :=
  mkRuntime (Some (fun _ _ => Ok [1; 0]%float)) (fun _ => reply) (fun _ => answer)
    ids_only (fun text => if decide (text = "[]") then Some [] else None)
    (fun _ => "No folders analyzed yet.") MemoryManager.columnProperty
    (fun _ => []) 1700000000000 "2023-11-14T22:13:20.000Z".

Definition inbox_note : string := "/ws/inbox/note.md".

Definition w0 : World :=
  mkWorld
    (mkFS {[ inbox_note := "Meeting notes about the project plan" ]}
          {[ "/ws"; "/ws/inbox"; "/data" ]})
    [] ∅ ∅ [] [] 0.

(** ** Suggestions *)

(** The votes of the folder [g]: the number of neighbors stored in it. *)
Definition votes (arr : list string) (g : string) : nat := count_occ string_dec arr g.

(** [f] is the plurality folder of [arr], ties going to the folder met
    first: no folder has more votes than [f], and every folder that
    stands before the first [f] has fewer. *)
Definition plurality (arr : list string) (f : string) : Prop :=
  (forall g, (votes arr g <= votes arr f)%nat) /\
  exists pre post,
    arr = pre ++ f :: post /\
    forall g, In g pre -> (votes arr g < votes arr f)%nat.

(** The invariant of the reduction: [a] is the plurality folder of [arr]
    among the folders [seen] so far. *)
Definition plurality_in (arr seen : list string) (a : string) : Prop :=
  (forall g, In g seen -> (votes arr g <= votes arr a)%nat) /\
  exists pre post,
    seen = pre ++ a :: post /\
    forall g, In g pre -> (votes arr g < votes arr a)%nat.

Definition fallbackRequest (content folderStructure filename : string)
    (similarNotes : list SimilarNote) : ChatRequest :=
  mkChatRequest folderStructure (take 3 similarNotes) filename (Str.takeStr 1000 content).

Definition neighbor (name folderPath : string) (s : number) : SimilarNote :=
  mkSimilarNote name name folderPath s "".

(** The confidence a line of the reply sets, if it sets one. *)
Definition confidenceField (line : string) : option number :=
  let trimmed := Str.trim line in
  if Str.startsWith trimmed "FOLDER:" then None
  else if Str.startsWith trimmed "CONFIDENCE:" then
    Some (Str.parseFloat
            (Str.replace "%" "" (Str.trim (Str.replace "CONFIDENCE:" "" trimmed)))
          / 100)%float
  else None.

(** The last value of a list of optional values, [d] when there is none. *)
Definition lastSome {A} (d : A) (l : list (option A)) : A :=
  fold_left (fun acc o => match o with Some x => x | None => acc end) l d.

Definition replyLines (response : string) : list string :=
  Str.split "010"%char (Str.trim response).

(** A reply in the format the prompt asks for. *)
Definition reply (folderText confidenceText reasonText : string) : string :=
  "FOLDER: " +:+ folderText +:+ nl +:+
  "CONFIDENCE: " +:+ confidenceText +:+ nl +:+
  "REASON: " +:+ reasonText.

(** The claim of the specification on automatic mode: a suggestion below
    the threshold moves nothing and is not reported as a success
    ([sortNote] has no parameter for a forced override). *)
Definition below_threshold_left_unmoved : Prop :=
  forall (rt : Runtime) (cfg : Config) (notePath : string) (s : SortSuggestion)
         (w w' : World) (res : SortResult),
    folder s <> "" ->
    Num.lt (confidence s) (confidenceThreshold cfg) = true ->
    NoteSorter.applySuggestion rt cfg notePath true false s w = (w', Ok res) ->
    fs w' = fs w /\ success res = false.

(** ** Moving a note *)

(** A file name: one path segment, other than [.] and [..]. *)
Definition simple (b : string) : Prop :=
  b <> "" /\ b <> "." /\ b <> ".." /\ ~ In Path.slash (Str.chars b).

(** The text [join] puts before a file name joined to the folder [a]. *)
Definition joinPrefix (a : string) : string :=
  if decide (a = "") then ""
  else
    let segs := rev (fold_left (Path.norm_step (negb (Str.startsWith a "/")))
                       (Str.split Path.slash a) []) in
    (if Str.startsWith a "/" then "/" else "") +:+
    match segs with [] => "" | _ => Str.join "/" segs +:+ "/" end.

(** What exists in a file system. *)
Definition entries (f : FS) : gset string := dom (files f) ∪ dirs f.

(** The first step of [moveNote]: the destination folder is created when
    nothing exists at its path. *)
Definition ensureFolder (f : FS) (destFolder : string) : Result FS :=
  if Fs.existsSync f destFolder then Ok f else Fs.mkdirSync f destFolder.

(** The [n]-th candidate of the conflict loop. *)
Definition candidate (destFolder name ext : string) (n : N) : string :=
  Path.join destFolder (name +:+ "_" +:+ pretty n +:+ ext).

(** A new note arrives in the inbox of the sample installation. *)
Definition arrive (text : string) (w : World) : World :=
  set_fs (mkFS (<[inbox_note := text]> (files (fs w))) (dirs (fs w))) w.

(** * The configuration, the inbox and the analyzer

    The rest of the program that the sorter is used with: [ConfigManager]
    of [src/config.ts], [NoteSorter.sortInbox] and the note loop of
    [WorkspaceAnalyzer] ([src/analyzer.ts]). *)

(** The process environment: [os.homedir()] and [process.cwd()]. *)
Record Env := mkEnv { homedir : string; cwd : string }.

(** [s.replace(/^~/, home)]: a leading tilde becomes the home directory
    (taken to hold no dollar sign, which [replace] reads as a pattern). *)
Definition expandHome (home s : string) : string :=
  match s with
  | String "~" rest => home +:+ rest
  | _ => s
  end.

(** The segments [normalizeString] keeps, in order. *)
Definition segments (allowAboveRoot : bool) (p : string) : list string :=
  rev (fold_left (Path.norm_step allowAboveRoot) (Str.split Path.slash p) []).

(** [resolve(p)] of Node's POSIX [path]: [p], put under the working
    directory [dir] when it is not absolute, then normalized, with no
    slash at its end. *)
Definition resolve (dir p : string) : string :=
  let resolvedPath := if decide (p = "") then "" else p +:+ "/" in
  let resolvedAbsolute := Str.startsWith p "/" in
  let '(resolvedPath, resolvedAbsolute) :=
    if resolvedAbsolute then (resolvedPath, true)
    else if decide (dir = "") then (resolvedPath, false)
    else (dir +:+ "/" +:+ resolvedPath, Str.startsWith dir "/") in
  let body := Str.join "/" (segments (negb resolvedAbsolute) resolvedPath) in
  if resolvedAbsolute then "/" +:+ body
  else if decide (body = "") then "." else body.

Module ConfigManager.

(** The interface [Config] of [types.ts]. *)
Record Config := mkConfig {
  workspace : string;
  inbox : string;
  model : string;
  autoSort : bool;
  confidenceThreshold : number;
  fileExtensions : list string;
  excludeFolders : list string;
  embeddingModel : string;
  topKSimilar : Z;
  dataDir : string
}.

Definition DEFAULT_CONFIG (env : Env) : Config :=
  mkConfig (Path.join (homedir env) "notes") "inbox" "llama3.2:3b" false 0.7%float
    [".md"; ".txt"; ".org"] [".git"; ".obsidian"; "archive"; ".trash"]
    "Xenova/all-MiniLM-L6-v2" 5 (Path.join (homedir env) ".sortr").

Section Methods.
Context (env : Env) (config : Config).

Definition getWorkspacePath : string :=
  resolve (cwd env) (expandHome (homedir env) (workspace config)).

Definition getInboxPath : string :=
  if Str.startsWith (inbox config) "/" then inbox config
  else Path.join getWorkspacePath (inbox config).

Definition getDataPath : string :=
  resolve (cwd env) (expandHome (homedir env) (dataDir config)).

Definition isExcludedFolder (folderPath : string) : bool :=
  let parts := Str.split Path.slash folderPath in
  existsb (fun excluded => bool_decide (excluded ∈ parts)) (excludeFolders config).

Definition isValidFile (filePath : string) : bool :=
  existsb (fun ext => Str.endsWith filePath ext) (fileExtensions config).

End Methods.

End ConfigManager.

(** What the sorter and the memory read of the configuration:
    [getWorkspacePath()], the data directory [getDataPath()] the memory is
    built on, and the fields [get()] is asked for. *)
Definition sorterConfig (env : Env) (c : ConfigManager.Config) : Config :=
  mkConfig (ConfigManager.getWorkspacePath env c) (ConfigManager.getDataPath env c)
    (ConfigManager.model c) (ConfigManager.confidenceThreshold c)
    (ConfigManager.topKSimilar c).

(** ** The lines [sortInbox] and [processNotes] write themselves

    They are kept on a list of their own, beside the console of the
    world that the calls to [sortNote] and to the memory write to. *)

Inductive Notice :=
  | InboxNotFound (inbox : string)
  | CreatingInbox
  | InboxEmpty
  | SortingNotes (n : nat)
  | Complete
  | CountSorted (n : Z)
  | CountSkipped (n : Z)
  | CountFailed (n : Z)
  | SpinnerStart
  | SpinnerText (i n : nat)
  | SpinnerSucceed
  | SkippedShort (filePath : string)
  | Processed (filePath folderPath : string)
  | ErrProcessing (filePath : string).

Record Session := mkSession { world : World; notices : list Notice }.

Definition Cmd (A : Type) : Type := Session -> Session * Result A.

Definition cret {A} (a : A) : Cmd A := fun s => (s, Ok a).
Definition cbind {A B} (c : Cmd A) (k : A -> Cmd B) : Cmd B :=
  fun s => match c s with
           | (s', Ok a) => k a s'
           | (s', Throw e) => (s', Throw e)
           end.
(** A call into the code that works on the world. *)
Definition call {A} (c : Eff A) : Cmd A :=
  fun s => let '(w, r) := c (world s) in (mkSession w (notices s), r).
Definition say (n : Notice) : Cmd unit :=
  fun s => (mkSession (world s) (notices s ++ [n]), Ok tt).

Notation "'let+' x ':=' c 'in' k" := (cbind c (fun x => k))
  (at level 10, x name, c at level 100, k at level 200).
Notation "'do+' c 'then' k" := (cbind c (fun _ => k))
  (at level 10, c at level 100, k at level 200).

(** ** [NoteSorter.sortInbox] *)

Module Inbox.

(** The object [{ sorted, failed, skipped }]. *)
Record Tally := mkTally { sorted : Z; failed : Z; skipped : Z }.

(** One pass of the body of the loop after the call of [sortNote]. *)
Definition count (t : Tally) (result : SortResult) : Tally :=
  if success result then mkTally (sorted t + 1) (failed t) (skipped t)
  else if decide (error result = Some "User cancelled"
                  \/ error result = Some "Content too short")
  then mkTally (sorted t) (failed t) (skipped t + 1)
  else mkTally (sorted t) (failed t + 1) (skipped t).

Section Methods.
(** [readdirSync] is the directory listing of the operating system: the
    names it gives for a directory and their order are its own. *)
Context (rt : Runtime) (env : Env) (config : ConfigManager.Config)
        (readdirSync : FS -> string -> Result (list string)).

Fixpoint sortEach (inbox : string) (auto dryRun : bool) (notes : list string)
    (t : Tally) : Cmd Tally :=
  match notes with
  | [] => cret t
  | note :: notes' =>
      let notePath := Path.join inbox note in
      let+ result :=
        call (NoteSorter.sortNote rt (sorterConfig env config) notePath auto dryRun) in
      sortEach inbox auto dryRun notes' (count t result)
  end.

(** The notes of the inbox: the listed names that exist and have one of
    the configured extensions. *)
Definition inboxNotes (f : FS) (inbox : string) (files : list string) : list string :=
  List.filter
    (fun name =>
       let fullPath := Path.join inbox name in
       Fs.existsSync f fullPath && ConfigManager.isValidFile config fullPath)
    files.

Definition sortInbox (auto dryRun : bool) : Cmd Tally :=
  let inbox := ConfigManager.getInboxPath env config in
  let+ present := call (existsSync inbox) in
  if negb present then
    do+ say (InboxNotFound inbox) then
    do+ say CreatingInbox then
    do+ call (mkdirSync inbox) then
    cret (mkTally 0 0 0)
  else
    let+ files := call (fun w => (w, readdirSync (fs w) inbox)) in
    let+ f := call (gets fs) in
    let notes := inboxNotes f inbox files in
    if (length notes =? 0)%nat then
      do+ say InboxEmpty then cret (mkTally 0 0 0)
    else
      do+ say (SortingNotes (length notes)) then
      let+ t := sortEach inbox auto dryRun notes (mkTally 0 0 0) in
      do+ say Complete then
      do+ say (CountSorted (sorted t)) then
      do+ say (CountSkipped (skipped t)) then
      do+ say (CountFailed (failed t)) then
      cret t.

End Methods.

End Inbox.

(** ** [WorkspaceAnalyzer]: reading and processing the notes *)

Module WorkspaceAnalyzer.


Section Methods.
Context (rt : Runtime) (cfg : Config).





End Methods.

End WorkspaceAnalyzer.

(** ** Judgements on the effects *)

(** [c] relates every world it starts in to the world it ends in by [R],
    whether it returns or throws. *)
Definition keeps {A} (R : World -> World -> Prop) (c : Eff A) : Prop :=
  forall w w' r, c w = (w', r) -> R w w'.



(** [c] never throws. *)
Definition returns {A} (c : Eff A) : Prop :=
  forall w, exists w' a, c w = (w', Ok a).


(** Every entry of the index has [d] components. *)
Definition dimensioned (d : nat) (w : World) : Prop :=
  Forall (fun e => length (ve_embedding e) = d) (vectors w).

(** The memory is initialized, and the vectors the embedding model
    answers with have [d] components. *)
Definition embeds (rt : Runtime) (d : nat) : Prop :=
  exists embed,
    embedFn rt = Some embed /\ forall n text v, embed n text = Ok v -> length v = d.



(** What a call does not undo. No directory is removed; no file is
    removed or changed, those at the paths [touched] apart; the history
    and the console only grow, at their end; no id leaves the index or the
    table of notes; and an index whose entries have the dimension of the
    embedding model stays one. *)
Definition lasting (rt : Runtime) (touched : list string) (w w' : World) : Prop :=
  dirs (fs w) ⊆ dirs (fs w') /\
  (forall q c, ~ In q touched ->
     files (fs w) !! q = Some c -> files (fs w') !! q = Some c) /\
  sort_history w `prefix_of` sort_history w' /\
  console w `prefix_of` console w' /\
  (forall i, In i (map ve_id (vectors w)) -> In i (map ve_id (vectors w'))) /\
  dom (notes w) ⊆ dom (notes w') /\
  (forall d, embeds rt d -> dimensioned d w -> dimensioned d w').

(** The note at [notePath] can be read, is long enough to be sorted, its
    neighbors [similarNotes] are found, and the chat model answers
    [response] to the request made for it. *)
Definition answered (rt : Runtime) (cfg : Config) (notePath : string) (w : World)
    (content : string) (similarNotes : list SimilarNote) (response : string) : Prop :=
  Fs.readFileSync (fs w) notePath = Ok content /\
  (10 <= String.length (Str.trim content))%nat /\
  snd (MemoryManager.findSimilarNotes rt content (topKSimilar cfg) w) = Ok similarNotes /\
  chat rt (fallbackRequest content (folderSummary rt (notes w)) (Path.basename notePath)
             similarNotes) = Some response.

(** The row objects of the history are as [SELECT *] gives them: their
    properties are the columns of the table. *)
Definition columnRows (rt : Runtime) : Prop :=
  forall r key, rowProperty rt r key = MemoryManager.columnProperty r key.

(** The folder [d] is there or is made, [f1] is the file system with it,
    and a file with the name of [sourcePath] can be put into it: what
    stands before the last slash of its path there is a directory. *)
Definition folderReady (f : FS) (d sourcePath : string) (f1 : FS) : Prop :=
  ensureFolder f d = Ok f1 /\
  Fs.parentCheck f1 (Path.join d (Path.basename sourcePath)) = Ok tt.

(** ** More sample installations *)

(** A memory that was not initialized, and models that do not answer. *)
Definition rt_cold : Runtime :=
  mkRuntime None (fun _ => None) (fun _ => No) ids_only (fun _ => None)
    (fun _ => "No folders analyzed yet.") MemoryManager.columnProperty
    (fun _ => []) 1700000000000 "2023-11-14T22:13:20.000Z".

(** The sample collaborators with another embedding model. *)
Definition with_embed (embed : nat -> string -> Result (list number)) (rt : Runtime)
  : Runtime :=
  mkRuntime (Some embed) (chat rt) (confirm rt) (json_stringify rt) (json_parse rt)
    (folderSummary rt) (rowProperty rt) (sortOrder rt) (now rt) (nowISO rt).

(** An embedding provider that is down, and one that goes down after its
    first answer. *)
Definition provider_down : nat -> string -> Result (list number) :=
  fun _ _ => Throw "fetch failed".

Definition provider_once : nat -> string -> Result (list number) :=
  fun n _ => match n with O => Ok [1; 0]%float | S _ => Throw "fetch failed" end.

Definition reply_work : string := reply "work" "85" "It is a work note".

(** The sample installation after the sample note was sorted into the
    folder work. *)
Definition w_sorted : World :=
  fst (NoteSorter.sortNote (rt0 (Some reply_work) Yes) cfg0 inbox_note true false w0).

(** ** A JSON codec for the examples

    It prints an index as [JSON.stringify] does when the texts need no
    escape and the components are whole numbers of fewer than 22 digits,
    and reads what it prints. *)

Definition quote : ascii := Ascii.ascii_of_nat 34.

Definition quoted (s : string) : string := String quote s +:+ String quote "".

(** The integer a float is, if it is one. *)
Definition wholeOf (x : number) : option Z :=
  match Prim2SF x with
  | S754_zero _ => Some 0
  | S754_finite s m e =>
      let sign := if s then -1 else 1 in
      if 0 <=? e then Some (sign * (Zpos m * 2 ^ e))
      else if Zpos m mod 2 ^ (- e) =? 0 then Some (sign * (Zpos m / 2 ^ (- e)))
      else None
  | _ => None
  end.

Definition printNumber (x : number) : string :=
  match wholeOf x with Some z => pretty z | None => "null" end.

Definition printEntry (e : VectorEntry) : string :=
  "{" +:+ quoted "id" +:+ ":" +:+ quoted (ve_id e) +:+ "," +:+
  quoted "embedding" +:+ ":[" +:+ Str.join "," (map printNumber (ve_embedding e)) +:+ "]," +:+
  quoted "metadata" +:+ ":{" +:+
  quoted "filePath" +:+ ":" +:+ quoted (md_filePath (ve_metadata e)) +:+ "," +:+
  quoted "folderPath" +:+ ":" +:+ quoted (md_folderPath (ve_metadata e)) +:+ "," +:+
  quoted "createdAt" +:+ ":" +:+ quoted (md_createdAt (ve_metadata e)) +:+ "}}".

Definition printIndex (vs : list VectorEntry) : string :=
  "[" +:+ Str.join "," (map printEntry vs) +:+ "]".

(** A parser takes what it reads from the front of the text. *)
Definition Parser (A : Type) : Type := list ascii -> option (A * list ascii).

Definition lit (s : string) : Parser unit :=
  fun l => r ← Str.stripPrefix (Str.chars s) l; Some (tt, r).

Definition text : Parser string :=
  fun l =>
    r ← Str.stripPrefix [quote] l;
    match Str.dropWhile (fun c => negb (Ascii.eqb c quote)) r with
    | _ :: rest =>
        Some (Str.unchars (Str.takeWhile (fun c => negb (Ascii.eqb c quote)) r), rest)
    | [] => None
    end.

Definition numeral : Parser number :=
  fun l =>
    let '(neg, l1) :=
      match l with
      | c :: l' => if Ascii.eqb c "-" then (true, l') else (false, l)
      | [] => (false, l)
      end in
    match Str.takeWhile Str.is_digit l1 with
    | [] => None
    | ds => Some (Num.of_decimal neg (Str.digits_val ds) 0, Str.dropWhile Str.is_digit l1)
    end.

(** The items of an array after its first: each after a comma, up to
    the closing bracket. *)
Fixpoint more {A} (fuel : nat) (item : Parser A) (l : list ascii)
  : option (list A * list ascii) :=
  match fuel with
  | O => None
  | S fuel' =>
      match l with
      | c :: l' =>
          if Ascii.eqb c "]" then Some ([], l')
          else if Ascii.eqb c "," then
            '(x, l1) ← item l';
            '(xs, r) ← more fuel' item l1;
            Some (x :: xs, r)
          else None
      | [] => None
      end
  end.

Definition array {A} (item : Parser A) : Parser (list A) :=
  fun l =>
    match lit "[]" l with
    | Some (_, r) => Some ([], r)
    | None =>
        '(_, l0) ← lit "[" l;
        '(x, l1) ← item l0;
        '(xs, r) ← more (S (length l1)) item l1;
        Some (x :: xs, r)
    end.

Definition readEntry : Parser VectorEntry :=
  fun l =>
    '(_, l) ← lit ("{" +:+ quoted "id" +:+ ":") l;
    '(i, l) ← text l;
    '(_, l) ← lit ("," +:+ quoted "embedding" +:+ ":") l;
    '(v, l) ← array numeral l;
    '(_, l) ← lit ("," +:+ quoted "metadata" +:+ ":{" +:+ quoted "filePath" +:+ ":") l;
    '(filePath, l) ← text l;
    '(_, l) ← lit ("," +:+ quoted "folderPath" +:+ ":") l;
    '(folderPath, l) ← text l;
    '(_, l) ← lit ("," +:+ quoted "createdAt" +:+ ":") l;
    '(createdAt, l) ← text l;
    '(_, l) ← lit "}}" l;
    Some (mkVectorEntry i v (mkMetadata filePath folderPath createdAt), l).

Definition readIndex (s : string) : option (list VectorEntry) :=
  '(vs, rest) ← array readEntry (Str.chars s);
  if decide (rest = []) then Some vs else None.

(** The sample collaborators with that codec. *)
Definition rt_json : Runtime :=
  mkRuntime (Some (fun _ _ => Ok [1; 0]%float)) (fun _ => None) (fun _ => Yes)
    printIndex readIndex (fun _ => "No folders analyzed yet.")
    MemoryManager.columnProperty (fun _ => []) 1700000000000 "2023-11-14T22:13:20.000Z".

(** The sample installation with two notes in its index. *)
Definition w_indexed : World :=
  set_vectors [sample_entry "/ws/work/a.md" 1 0; sample_entry "/ws/ideas/b.md" 0 (-2)]%float w0.

(** The configuration of the sample installation, and a process started
    at the root. *)
Definition env0 : Env := mkEnv "/home/me" "/".

Definition config0 : ConfigManager.Config :=
  ConfigManager.mkConfig "/ws" "inbox" "llama3.2:3b" false 0.7%float
    [".md"; ".txt"; ".org"] [".git"; ".obsidian"; "archive"; ".trash"]
    "Xenova/all-MiniLM-L6-v2" 5 "/data".

(** A directory listing for the examples: the names of what exists
    directly in [d], files first. *)
Definition childOf (d p : string) : option string :=
  match Str.stripPrefix (Str.chars (d +:+ "/")) (Str.chars p) with
  | Some name =>
      if bool_decide (name <> [] /\ Path.slash ∉ name) then Some (Str.unchars name)
      else None
  | None => None
  end.

Definition readdir0 (f : FS) (d : string) : Result (list string) :=
  if bool_decide (d ∈ dirs f)
  then Ok (omap (childOf d) (elements (dom (files f)) ++ elements (dirs f)))
  else Throw "ENOTDIR".


(** A word: a text that is not empty and has no white space. *)
Definition word (s : string) : Prop :=
  s <> "" /\ Forall (fun c => Str.is_space c = false) (Str.chars s).

(** No line of the reply sets the folder. *)
Definition names_no_folder (response : string) : Prop :=
  Forall (fun line => Str.startsWith (Str.trim line) "FOLDER:" = false)
    (replyLines response).

(** A text that is not empty and has no white space at its start or end. *)
Definition tight (s : string) : Prop :=
  match Str.chars s with c :: _ => Str.is_space c = false | [] => False end /\
  match rev (Str.chars s) with c :: _ => Str.is_space c = false | [] => False end.

(** A field of a reply: a tight text on one line. *)
Definition field (s : string) : Prop :=
  tight s /\ ~ In "010"%char (Str.chars s).

(** * Order of binary64 floats *)

Section FloatOrder.

Lemma SFcompare_key a b :
  is_nanS a = false -> is_nanS b = false ->
  SFcompare a b = Some (cmp3 (key a) (key b)).
Proof.
  destruct a as [sa|sa| |sa ma ea], b as [sb|sb| |sb mb eb]; simpl; try discriminate;
    intros _ _; try (destruct sa); try (destruct sb); simpl; try reflexivity.
  - rewrite Z.compare_opp. rewrite (Z.compare_antisym ea eb).
    destruct (ea ?= eb); simpl; reflexivity.
Qed.

Lemma cmp3_Lt a b : cmp3 a b = Lt <-> klt a b.
Proof.
  destruct a as [[a1 a2] a3], b as [[b1 b2] b3]; simpl.
  destruct (Z.compare_spec a1 b1), (Z.compare_spec a2 b2), (Z.compare_spec a3 b3);
    split; intros; try discriminate; try reflexivity; lia.
Qed.

Lemma cmp3_Eq a b : cmp3 a b = Eq <-> a = b.
Proof.
  destruct a as [[a1 a2] a3], b as [[b1 b2] b3]; simpl.
  destruct (Z.compare_spec a1 b1), (Z.compare_spec a2 b2), (Z.compare_spec a3 b3);
    split; intros H'; try discriminate; try reflexivity;
    try (injection H'; intros); try lia; subst; reflexivity.
Qed.


Lemma isNaN_spec x : Num.isNaN x = is_nanS (Prim2SF x).
Proof.
  unfold Num.isNaN, Prim2SF. destruct (is_nan x) eqn:E; [reflexivity|].
  destruct (is_zero x); [reflexivity|].
  destruct (is_infinity x); [reflexivity|].
  destruct (Z.frexp x) as [r ex].
  destruct (shr_fexp _ _ _ _ _) as [sh e']. destruct (shr_m sh); reflexivity.
Qed.

Lemma lt_key x y :
  Num.isNaN x = false -> Num.isNaN y = false ->
  (Num.lt x y = true <-> klt (fkey x) (fkey y)).
Proof.
  rewrite !isNaN_spec. intros Hx Hy. unfold Num.lt, fkey.
  rewrite FloatAxioms.ltb_spec. unfold SFltb. rewrite (SFcompare_key _ _ Hx Hy).
  pose proof (cmp3_Lt (key (Prim2SF x)) (key (Prim2SF y))) as K.
  destruct (cmp3 _ _); intuition congruence.
Qed.


Lemma eq_key x y :
  Num.isNaN x = false -> Num.isNaN y = false ->
  (Num.eq x y = true <-> fkey x = fkey y).
Proof.
  rewrite !isNaN_spec. intros Hx Hy. unfold Num.eq, fkey.
  rewrite FloatAxioms.eqb_spec. unfold SFeqb. rewrite (SFcompare_key _ _ Hx Hy).
  pose proof (cmp3_Eq (key (Prim2SF x)) (key (Prim2SF y))) as K.
  destruct (cmp3 _ _); intuition congruence.
Qed.

Lemma lt_nan_l x y : Num.isNaN x = true -> Num.lt x y = false.
Proof.
  rewrite isNaN_spec. unfold Num.lt. rewrite FloatAxioms.ltb_spec.
  destruct (Prim2SF x); try discriminate. reflexivity.
Qed.


Lemma klt_irrefl a : ~ klt a a.
Proof. destruct a as [[a1 a2] a3]; simpl. lia. Qed.


(** *** The sign of a difference *)

Lemma digits2_pos_bounds (m : positive) :
  2 ^ (Zpos (digits2_pos m) - 1) <= Zpos m < 2 ^ Zpos (digits2_pos m).
Proof.
  induction m as [m IH|m IH|]; simpl digits2_pos.
  - rewrite Pos2Z.inj_succ. replace (Z.succ (Zpos (digits2_pos m)) - 1)
      with (Z.succ (Zpos (digits2_pos m) - 1)) by lia.
    rewrite !Z.pow_succ_r by lia. lia.
  - rewrite Pos2Z.inj_succ. replace (Z.succ (Zpos (digits2_pos m)) - 1)
      with (Z.succ (Zpos (digits2_pos m) - 1)) by lia.
    rewrite !Z.pow_succ_r by lia. lia.
  - simpl. lia.
Qed.

Lemma iter_xO_val (d m : positive) :
  Zpos (Pos.iter xO m d) = Zpos m * 2 ^ Zpos d.
Proof.
  induction d as [|d IH] using Pos.peano_ind.
  - simpl. lia.
  - rewrite Pos.iter_succ, Pos2Z.inj_xO, IH, Pos2Z.inj_succ, Z.pow_succ_r by lia. lia.
Qed.

Lemma shl_align_val (m : positive) (e ez : Z) :
  ez <= e -> Zpos (fst (shl_align m e ez)) = Zpos m * 2 ^ (e - ez).
Proof.
  intros H. unfold shl_align. destruct (ez - e) as [|p|p] eqn:E; simpl fst.
  - replace (e - ez) with 0 by lia. simpl. lia.
  - lia.
  - rewrite iter_xO_val. replace (e - ez) with (Zpos p) by lia. reflexivity.
Qed.

Lemma shr_1_lower (mrs : shr_record) (k : Z) :
  0 <= k -> 2 ^ (1 + k) <= shr_m mrs -> 2 ^ k <= shr_m (shr_1 mrs).
Proof.
  intros Hk. destruct mrs as [m r s]. simpl shr_m at 1.
  replace (1 + k) with (Z.succ k) by lia. rewrite Z.pow_succ_r by lia.
  pose proof (Z.pow_pos_nonneg 2 k ltac:(lia) Hk) as Hp.
  destruct m as [|[p|p|]|p]; simpl; lia.
Qed.

Lemma iter_shr_1_lower (p : positive) : forall (mrs : shr_record) (k : Z),
  0 <= k -> 2 ^ (Zpos p + k) <= shr_m mrs -> 2 ^ k <= shr_m (SpecFloat.iter_pos shr_1 p mrs).
Proof.
  induction p as [p IH|p IH|]; intros mrs k Hk H; simpl SpecFloat.iter_pos.
  - apply IH; [lia|]. apply IH; [lia|]. apply shr_1_lower; [lia|].
    replace (1 + (Zpos p + (Zpos p + k))) with (Zpos p~1 + k) by lia. exact H.
  - apply IH; [lia|]. apply IH; [lia|].
    replace (Zpos p + (Zpos p + k)) with (Zpos p~0 + k) by lia. exact H.
  - apply shr_1_lower; assumption.
Qed.

Lemma shr_m_of_loc m l : shr_m (shr_record_of_loc m l) = m.
Proof. destruct l as [|[]]; reflexivity. Qed.

Lemma shr_fexp_pos (p : positive) (e : Z) (l : location) :
  emin64 <= e ->
  0 < shr_m (fst (shr_fexp prec emax (Zpos p) e l)) /\
  emin64 <= snd (shr_fexp prec emax (Zpos p) e l).
Proof.
  intros He. unfold shr_fexp, shr, fexp. simpl Zdigits2.
  pose proof (digits2_pos_bounds p) as [Hd _].
  set (d := Zpos (digits2_pos p)) in *.
  destruct (Z.max (d + e - prec) emin64 - e) as [|q|q] eqn:E; simpl fst; simpl snd.
  - rewrite shr_m_of_loc. lia.
  - split; [|lia].
    assert (Hq : Zpos q <= d - 1) by (unfold prec in *; lia).
    assert (2 ^ 0 <= shr_m (SpecFloat.iter_pos shr_1 q (shr_record_of_loc (Zpos p) l))); [|simpl in *; lia].
    apply iter_shr_1_lower; [lia|]. rewrite shr_m_of_loc.
    etransitivity; [|exact Hd]. apply Z.pow_le_mono_r; lia.
  - rewrite shr_m_of_loc. lia.
Qed.

Lemma round_nearest_even_pos m l : 0 < m -> 0 < round_nearest_even m l.
Proof.
  intros H. destruct l as [|[]]; simpl; try lia. destruct (Z.even m); lia.
Qed.

Lemma binary_round_aux_pos (p : positive) (e : Z) (l : location) :
  emin64 <= e ->
  SFltb zeroS (binary_round_aux prec emax false (Zpos p) e l) = true.
Proof.
  intros He. unfold binary_round_aux.
  destruct (shr_fexp_pos p e l He) as [H1 H2].
  destruct (shr_fexp prec emax (Zpos p) e l) as [mrs' e']. simpl fst in *; simpl snd in *.
  pose proof (round_nearest_even_pos (shr_m mrs') (loc_of_shr_record mrs') H1) as H3.
  destruct (round_nearest_even (shr_m mrs') (loc_of_shr_record mrs')) as [|r|r]; try lia.
  destruct (shr_fexp_pos r e' loc_Exact H2) as [H4 _].
  destruct (shr_fexp prec emax (Zpos r) e' loc_Exact) as [mrs'' e'']. simpl fst in *.
  destruct (shr_m mrs'') as [|m|m]; try lia.
  destruct (e'' <=? emax - prec); reflexivity.
Qed.

Lemma binary_round_aux_neg (m e : Z) (l : location) :
  SFltb zeroS (binary_round_aux prec emax true m e l) = false.
Proof.
  unfold binary_round_aux.
  destruct (shr_fexp prec emax m e l) as [mrs' e'].
  destruct (shr_fexp prec emax _ e' loc_Exact) as [mrs'' e''].
  destruct (shr_m mrs'') as [|r|r]; try reflexivity.
  destruct (e'' <=? emax - prec); reflexivity.
Qed.

Lemma binary_round_pos (p : positive) (e : Z) :
  emin64 <= e -> SFltb zeroS (binary_round prec emax false p e) = true.
Proof.
  intros He. unfold binary_round.
  set (e' := fexp prec emax (Zpos (digits2_pos p) + e)).
  assert (He' : emin64 <= e') by (unfold e', fexp; lia).
  unfold shl_align. destruct (e' - e) as [|q|q] eqn:E;
    apply binary_round_aux_pos; assumption.
Qed.

Lemma binary_round_neg (p : positive) (e : Z) :
  SFltb zeroS (binary_round prec emax true p e) = false.
Proof.
  unfold binary_round. destruct (shl_align _ _ _). apply binary_round_aux_neg.
Qed.

Lemma bounded_bounds (m : positive) (e : Z) :
  bounded prec emax m e = true ->
  emin64 <= e /\ Zpos m < 2 ^ 53 /\ (emin64 < e -> 2 ^ 52 <= Zpos m).
Proof.
  unfold bounded, canonical_mantissa, fexp. intros H.
  apply andb_prop in H as [H _]. apply Z.eqb_eq in H.
  pose proof (digits2_pos_bounds m) as [Hl Hu].
  set (d := Zpos (digits2_pos m)) in *. unfold prec in *.
  split; [lia|]. split.
  - eapply Z.lt_le_trans; [exact Hu|]. apply Z.pow_le_mono_r; lia.
  - intros He. replace d with 53 in Hl by lia. exact Hl.
Qed.

(** For two valid finite floats aligned on the smaller exponent, the
    order of the aligned mantissas is the order of (exponent, mantissa). *)
Lemma aligned_order (mx my : positive) (ex ey : Z) :
  bounded prec emax mx ex = true -> bounded prec emax my ey = true ->
  let ez := Z.min ey ex in
  (Zpos (fst (shl_align mx ex ez)) < Zpos (fst (shl_align my ey ez))
   <-> ex < ey \/ (ex = ey /\ Zpos mx < Zpos my)).
Proof.
  intros Bx By ez.
  destruct (bounded_bounds _ _ Bx) as (Ex & Ux & Lx).
  destruct (bounded_bounds _ _ By) as (Ey & Uy & Ly).
  rewrite !shl_align_val by (unfold ez; lia).
  change (2 ^ 53) with (2 * 2 ^ 52) in *.
  pose proof (Z.pow_pos_nonneg 2 52 ltac:(lia) ltac:(lia)) as H52.
  destruct (Z.lt_trichotomy ex ey) as [Hlt|[Heq|Hgt]].
  - replace (ex - ez) with 0 by (unfold ez; lia).
    replace (ey - ez) with (ey - ex) by (unfold ez; lia).
    assert (2 ^ 1 <= 2 ^ (ey - ex)) by (apply Z.pow_le_mono_r; lia).
    change (2 ^ 1) with 2 in *. change (2 ^ 0) with 1.
    specialize (Ly ltac:(lia)). split; [intros _; left; exact Hlt|intros _]. nia.
  - subst ey. replace (ex - ez) with 0 by (unfold ez; lia).
    change (2 ^ 0) with 1. lia.
  - replace (ey - ez) with 0 by (unfold ez; lia).
    replace (ex - ez) with (ex - ey) by (unfold ez; lia).
    assert (2 ^ 1 <= 2 ^ (ex - ey)) by (apply Z.pow_le_mono_r; lia).
    change (2 ^ 1) with 2 in *. change (2 ^ 0) with 1.
    specialize (Lx ltac:(lia)). split; [intros H'; exfalso; nia|intros [?|[? _]]; lia].
Qed.

Lemma SFsub_sign (X Y : spec_float) :
  valid_binary X = true -> valid_binary Y = true ->
  is_nanS X = false -> is_nanS Y = false ->
  SFltb zeroS (SFsub prec emax Y X) = SFltb X Y.
Proof.
  intros VX VY NX NY.
  destruct X as [sx|sx| |sx mx ex], Y as [sy|sy| |sy my ey]; try discriminate;
    try (destruct sx; destruct sy; reflexivity);
    try (destruct sx; reflexivity); try (destruct sy; reflexivity).
  simpl in VX, VY. unfold SFltb at 2. rewrite SFcompare_key by reflexivity.
  pose proof (aligned_order mx my ex ey VX VY) as Hxy.
  pose proof (aligned_order my mx ey ex VY VX) as Hyx.
  rewrite (Z.min_comm ex ey) in Hyx. cbv zeta in Hxy, Hyx.
  pose proof (cmp3_Lt (key (S754_finite sx mx ex)) (key (S754_finite sy my ey))) as HL.
  unfold SFsub.
  set (vy := Zpos (fst (shl_align my ey (Z.min ey ex)))) in *.
  set (vx := Zpos (fst (shl_align mx ex (Z.min ey ex)))) in *.
  assert (Hvx : 0 < vx) by (unfold vx; lia).
  assert (Hvy : 0 < vy) by (unfold vy; lia).
  assert (Hgoal : forall D : Z,
    (0 < D <-> klt (key (S754_finite sx mx ex)) (key (S754_finite sy my ey))) ->
    SFltb zeroS (binary_normalize prec emax D (Z.min ey ex) false)
    = match cmp3 (key (S754_finite sx mx ex)) (key (S754_finite sy my ey)) with
      | Lt => true | _ => false end).
  { intros D HD. destruct (bounded_bounds _ _ VX) as (Ex & _).
    destruct (bounded_bounds _ _ VY) as (Ey & _).
    destruct D as [|d|d]; simpl binary_normalize.
    - destruct (cmp3 _ _); try reflexivity. exfalso.
      assert (0 < 0) by (apply HD, HL; reflexivity). lia.
    - rewrite binary_round_pos by lia.
      assert (cmp3 (key (S754_finite sx mx ex)) (key (S754_finite sy my ey)) = Lt)
        as -> by (apply HL, HD; lia). reflexivity.
    - rewrite binary_round_neg.
      destruct (cmp3 _ _) eqn:E; try reflexivity. exfalso.
      assert (0 < Zneg d) by (apply HD, HL; reflexivity). lia. }
  apply Hgoal. clear Hgoal HL.
  destruct sx, sy; simpl; lia.
Qed.

Lemma sub_sign (x y : float) :
  Num.isNaN x = false -> Num.isNaN y = false ->
  Num.lt 0%float (y - x)%float = Num.lt x y.
Proof.
  rewrite !isNaN_spec. intros Hx Hy. unfold Num.lt.
  rewrite !FloatAxioms.ltb_spec, sub_spec.
  change (Prim2SF 0%float) with zeroS.
  apply SFsub_sign; auto using Prim2SF_valid.
Qed.
End FloatOrder.

(** * Facts on strings and paths *)

Section StringFacts.

Lemma append_cons (c : ascii) (s t : string) : String c s +:+ t = String c (s +:+ t).
Proof. reflexivity. Qed.

Lemma chars_app (s1 s2 : string) : Str.chars (s1 +:+ s2) = Str.chars s1 ++ Str.chars s2.
Proof.
  induction s1 as [|c s1 IH]; [reflexivity|].
  rewrite append_cons. simpl. f_equal. exact IH.
Qed.

Lemma unchars_chars (s : string) : Str.unchars (Str.chars s) = s.
Proof. apply string_of_list_ascii_of_string. Qed.

Lemma chars_unchars (l : list ascii) : Str.chars (Str.unchars l) = l.
Proof. apply list_ascii_of_string_of_list_ascii. Qed.

Lemma chars_inj (s t : string) : Str.chars s = Str.chars t -> s = t.
Proof. intros H. rewrite <- (unchars_chars s), <- (unchars_chars t), H. reflexivity. Qed.

Lemma unchars_app (l1 l2 : list ascii) :
  Str.unchars (l1 ++ l2) = Str.unchars l1 +:+ Str.unchars l2.
Proof. apply chars_inj. rewrite chars_app, !chars_unchars. reflexivity. Qed.

Lemma append_nil_r (s : string) : s +:+ "" = s.
Proof.
  induction s as [|c s IH]; [reflexivity|]. rewrite append_cons. f_equal. exact IH.
Qed.

Lemma append_assoc (s t u : string) : (s +:+ t) +:+ u = s +:+ t +:+ u.
Proof.
  induction s as [|c s IH]; [reflexivity|]. rewrite !append_cons. f_equal. exact IH.
Qed.

Lemma append_inv_tail (s t e : string) : s +:+ e = t +:+ e -> s = t.
Proof.
  intros H. apply chars_inj. apply (f_equal Str.chars) in H.
  rewrite !chars_app in H. exact (app_inv_tail _ _ _ H).
Qed.

Lemma split_chars_noslash (sep : ascii) (l cur : list ascii) :
  ~ In sep l -> Str.split_chars sep cur l = [Str.unchars (rev cur ++ l)].
Proof.
  revert cur. induction l as [|c l IH]; intros cur H; simpl.
  - rewrite app_nil_r. reflexivity.
  - destruct (Ascii.eqb_spec c sep) as [->|Hne]; [exfalso; apply H; left; reflexivity|].
    rewrite IH by (intros Hin; apply H; right; exact Hin).
    simpl. rewrite <- app_assoc. reflexivity.
Qed.

Lemma split_chars_app (sep : ascii) (l1 l2 cur : list ascii) :
  Str.split_chars sep cur (l1 ++ sep :: l2)
  = Str.split_chars sep cur l1 ++ Str.split_chars sep [] l2.
Proof.
  revert cur. induction l1 as [|c l1 IH]; intros cur; simpl.
  - rewrite Ascii.eqb_refl. reflexivity.
  - destruct (Ascii.eqb c sep); [rewrite IH; reflexivity|apply IH].
Qed.

Lemma split_snoc (a b : string) :
  ~ In Path.slash (Str.chars b) ->
  Str.split Path.slash (a +:+ "/" +:+ b) = Str.split Path.slash a ++ [b].
Proof.
  intros H. unfold Str.split. rewrite !chars_app. change (Str.chars "/") with [Path.slash].
  simpl. rewrite split_chars_app, (split_chars_noslash _ _ [] H). simpl.
  rewrite unchars_chars. reflexivity.
Qed.

Lemma join_snoc (l : list string) (b : string) :
  Str.join "/" (l ++ [b])
  = match l with [] => "" | _ => Str.join "/" l +:+ "/" end +:+ b.
Proof.
  induction l as [|x l IH]; [reflexivity|].
  destruct l as [|y l]; [simpl; rewrite append_assoc; reflexivity|].
  change (Str.join "/" ((x :: y :: l) ++ [b]))
    with (x +:+ "/" +:+ Str.join "/" ((y :: l) ++ [b])).
  rewrite IH. change (Str.join "/" (x :: y :: l)) with (x +:+ "/" +:+ Str.join "/" (y :: l)).
  rewrite !append_assoc. reflexivity.
Qed.

Lemma endsWith_list_last (l : list ascii) (c : ascii) :
  Str.endsWith_list l [c] = true -> last l = Some c.
Proof.
  induction l as [|x l IH]; simpl.
  - destruct (decide ([] = [c])); discriminate.
  - destruct (decide (x :: l = [c])) as [E|E].
    + injection E as -> ->. reflexivity.
    + intros H. specialize (IH H). destruct l; [discriminate|exact IH].
Qed.

Lemma endsWith_slash_false (a b : string) :
  b <> "" -> ~ In Path.slash (Str.chars b) -> Str.endsWith (a +:+ b) "/" = false.
Proof.
  intros Hb Hs. destruct (Str.endsWith (a +:+ b) "/") eqn:E; [|reflexivity].
  exfalso. unfold Str.endsWith in E. apply endsWith_list_last in E.
  rewrite chars_app in E.
  destruct (Str.chars b) as [|c l] eqn:Eb.
  { apply Hb. apply chars_inj. rewrite Eb. reflexivity. }
  rewrite last_app in E.
  destruct (last (c :: l)) as [z|] eqn:El.
  - injection E as ->. apply Hs. apply list_elem_of_In.
    apply last_Some_elem_of. exact El.
  - apply last_None in El. discriminate.
Qed.

Lemma append_nonempty (a b : string) : a <> "" -> a +:+ b <> "".
Proof.
  intros H E. destruct a as [|c a]; [contradiction|].
  rewrite append_cons in E. discriminate E.
Qed.

Lemma prefix_slash (c : ascii) (x : string) :
  String.prefix "/" (String c x) = if ascii_dec "/" c then true else false.
Proof.
  change (String.prefix "/" (String c x))
    with (match ascii_dec "/" c with left _ => String.prefix "" x | right _ => false end).
  destruct (ascii_dec "/" c); [destruct x; reflexivity|reflexivity].
Qed.

Lemma startsWith_app (a b : string) :
  a <> "" -> Str.startsWith (a +:+ b) "/" = Str.startsWith a "/".
Proof.
  intros H. destruct a as [|c a]; [contradiction|]. rewrite append_cons.
  unfold Str.startsWith. rewrite !prefix_slash. reflexivity.
Qed.

Lemma startsWith_simple (b : string) :
  ~ In Path.slash (Str.chars b) -> Str.startsWith b "/" = false.
Proof.
  destruct b as [|c b]; [reflexivity|]. intros H. unfold Str.startsWith.
  rewrite prefix_slash.
  destruct (ascii_dec "/" c) as [<-|]; [|reflexivity].
  exfalso. apply H. left. reflexivity.
Qed.

Lemma norm_step_simple (allow : bool) (acc : list string) (b : string) :
  simple b -> Path.norm_step allow acc b = b :: acc.
Proof.
  intros (H1 & H2 & H3 & _). unfold Path.norm_step.
  rewrite decide_False by (intros [?|?]; contradiction).
  rewrite decide_False by exact H3. reflexivity.
Qed.

(** Joining a file name to a folder puts the same text before every name. *)
Lemma join_simple (a b : string) :
  simple b -> Path.join a b = joinPrefix a +:+ b.
Proof.
  intros Hb. pose proof Hb as (Hne & _ & _ & Hs).
  unfold Path.join, joinPrefix.
  destruct (decide (a = "")) as [->|Ha]; rewrite (decide_False (P := b = "")) by exact Hne.
  - unfold Path.normalize. rewrite decide_False by exact Hne.
    rewrite (startsWith_simple b Hs).
    pose proof (endsWith_slash_false "" b Hne Hs) as He.
    change ("" +:+ b) with b in He. rewrite He.
    unfold Str.split. rewrite (split_chars_noslash _ _ [] Hs). simpl.
    rewrite unchars_chars, norm_step_simple by exact Hb. simpl.
    rewrite decide_False by exact Hne. apply append_nil_r.
  - unfold Path.normalize.
    rewrite (decide_False (P := a +:+ "/" +:+ b = ""))
      by (apply append_nonempty; exact Ha).
    rewrite (startsWith_app a _ Ha).
    assert (He : Str.endsWith (a +:+ "/" +:+ b) "/" = false)
      by (rewrite <- append_assoc; apply endsWith_slash_false; assumption).
    rewrite He.
    rewrite (split_snoc a b Hs), fold_left_app. simpl.
    rewrite norm_step_simple by exact Hb. simpl rev.
    rewrite join_snoc.
    set (segs := rev (fold_left _ (Str.split Path.slash a) [])).
    set (pre := match segs with [] => "" | _ :: _ => Str.join "/" segs +:+ "/" end).
    rewrite (decide_False (P := pre +:+ b = "")).
    + rewrite append_nil_r, append_assoc. reflexivity.
    + intros E. destruct pre; [exact (Hne E)|].
      rewrite append_cons in E. discriminate E.
Qed.

End StringFacts.

(** * The sort of [query] *)

Section SortFacts.
Import VectorStore.

Lemma compareFn_lt (x h : Scored) :
  sim_ok x -> sim_ok h ->
  Num.lt 0%float (compareFn x h) = Num.lt (similarity x) (similarity h).
Proof. intros Hx Hh. unfold compareFn. apply sub_sign; assumption. Qed.




Lemma not_tied_of_lt (s : number) (x h : Scored) :
  sim_ok x -> sim_ok h -> Num.lt (similarity x) (similarity h) = true ->
  tied s x -> tied s h -> False.
Proof.
  unfold tied. intros Hx Hh H Tx Th.
  destruct (Num.isNaN s) eqn:Hs.
  - unfold Num.eq in Tx. rewrite FloatAxioms.eqb_spec in Tx.
    rewrite isNaN_spec in Hs. destruct (Prim2SF s); try discriminate.
    unfold SFeqb in Tx. destruct (Prim2SF (similarity x)); discriminate.
  - apply (eq_key _ _ Hx Hs) in Tx. apply (eq_key _ _ Hh Hs) in Th.
    apply (lt_key _ _ Hx Hh) in H. rewrite Tx, Th in H. exact (klt_irrefl _ H).
Qed.

Lemma insert_perm (x : Scored) (l : list Scored) :
  Permutation (insert compareFn x l) (x :: l).
Proof.
  induction l as [|h t IH]; simpl; [reflexivity|].
  destruct (Num.lt 0%float (compareFn x h)); [|reflexivity].
  rewrite IH. apply perm_swap.
Qed.

Lemma sort_perm (l : list Scored) : Permutation (sort compareFn l) l.
Proof.
  induction l as [|x l IH]; simpl; [reflexivity|].
  rewrite insert_perm. constructor. exact IH.
Qed.



Lemma insert_stable (s : number) (x : Scored) (l : list Scored) :
  sim_ok x -> Forall sim_ok l ->
  filter (tied s) (insert compareFn x l) = filter (tied s) (x :: l).
Proof.
  intros Hx Hl. induction l as [|h t IH]; simpl; [reflexivity|].
  apply Forall_cons_1 in Hl as [Hh Ht].
  rewrite compareFn_lt by assumption.
  destruct (Num.lt (similarity x) (similarity h)) eqn:E; [|reflexivity].
  rewrite (filter_cons _ h), (IH Ht), !(filter_cons _ x), !(filter_cons _ h).
  destruct (decide (tied s h)) as [Th|Th], (decide (tied s x)) as [Tx|Tx]; try reflexivity.
  exfalso. exact (not_tied_of_lt s x h Hx Hh E Tx Th).
Qed.

Lemma sort_stable (s : number) (l : list Scored) :
  Forall sim_ok l -> filter (tied s) (sort compareFn l) = filter (tied s) l.
Proof.
  induction l as [|x l IH]; intros H; simpl; [reflexivity|].
  apply Forall_cons_1 in H as [Hx Hl].
  rewrite insert_stable; auto.
  - rewrite !(filter_cons _ x), (IH Hl). reflexivity.
  - rewrite (sort_perm l). exact Hl.
Qed.

Lemma putAt_perm {A} (n : nat) (x : A) (l : list A) : Permutation (putAt n x l) (x :: l).
Proof.
  revert n. induction l as [|h t IH]; intros [|n]; simpl; try reflexivity.
  rewrite IH. apply perm_swap.
Qed.

Lemma arrange_perm {A} (code : list nat) (l : list A) : Permutation (arrange code l) l.
Proof.
  revert code. induction l as [|x l IH]; intros code; simpl; [reflexivity|].
  rewrite putAt_perm. constructor. apply IH.
Qed.

Lemma sortBySimilarity_perm (rt : Runtime) (l : list Scored) :
  Permutation (sortBySimilarity rt l) l.
Proof.
  unfold sortBySimilarity. destruct (forallb _ l); [apply sort_perm|apply arrange_perm].
Qed.

Lemma sortBySimilarity_ok (rt : Runtime) (l : list Scored) :
  Forall sim_ok l -> sortBySimilarity rt l = sort compareFn l.
Proof.
  intros H. unfold sortBySimilarity.
  assert (forallb (fun s => negb (Num.isNaN (similarity s))) l = true) as ->; [|reflexivity].
  apply forallb_forall. intros s Hs. rewrite List.Forall_forall in H.
  specialize (H s Hs). unfold sim_ok in H. rewrite H. reflexivity.
Qed.

End SortFacts.

(** * The vector index: [query] and [add] *)

Section QueryFacts.
Import VectorStore.

Lemma scores_ok (q : list number) (vs : list VectorEntry) :
  same_dimension q vs -> rmapM (score q) vs = Ok (map (scoredBy q) vs).
Proof.
  induction 1 as [|e vs He _ IH]; simpl; [reflexivity|].
  unfold score at 1, cosineSimilarity. rewrite <- He, Nat.eqb_refl. simpl.
  rewrite IH. reflexivity.
Qed.

Lemma scores_sim_ok (q : list number) (vs : list VectorEntry) :
  comparable q vs -> Forall sim_ok (map (scoredBy q) vs).
Proof. intros H. apply Forall_map. exact H. Qed.

Lemma slice0_nonneg {A} (k : Z) (l : list A) :
  0 <= k -> slice0 k l = take (Z.to_nat k) l.
Proof.
  intros Hk. unfold slice0. destruct (Z.ltb_spec k 0); [lia|].
  destruct (Z.le_ge_cases k (Z.of_nat (length l))).
  - rewrite Z.min_l by lia. reflexivity.
  - rewrite Z.min_r, Nat2Z.id by lia. rewrite !take_ge by lia. reflexivity.
Qed.

Lemma slice0_length {A} (k : Z) (l : list A) :
  0 <= k -> length (slice0 k l) = Z.to_nat (Z.min k (Z.of_nat (length l))).
Proof.
  intros Hk. rewrite slice0_nonneg, length_take by assumption. lia.
Qed.

Lemma slice0_all {A} (k : Z) (l : list A) :
  Z.of_nat (length l) <= k -> slice0 k l = l.
Proof.
  intros Hk. rewrite slice0_nonneg by lia. apply take_ge. lia.
Qed.

Lemma slice0_take {A} (k : Z) (l : list A) : exists n, slice0 k l = take n l.
Proof. unfold slice0. eexists. reflexivity. Qed.


Lemma scores_throw (q : list number) (vs : list VectorEntry) :
  Exists (fun e => length (ve_embedding e) <> length q) vs ->
  rmapM (score q) vs = Throw "Vectors must have same length".
Proof.
  induction vs as [|e vs IH]; intros H; [inversion H|].
  simpl. unfold score at 1, cosineSimilarity.
  destruct (Nat.eqb_spec (length q) (length (ve_embedding e))) as [E|E]; simpl;
    [|reflexivity].
  rewrite IH; [reflexivity|].
  inversion H as [? ? Hh|? ? Ht]; subst; [|exact Ht].
  exfalso. apply Hh. symmetry. exact E.
Qed.

Lemma query_scored (rt : Runtime) (vs : list VectorEntry) (q : list number) (k : Z) :
  same_dimension q vs ->
  query rt vs q k
  = Ok (map toSimilarNote (slice0 k (sortBySimilarity rt (map (scoredBy q) vs)))).
Proof.
  intros H. unfold query. destruct vs as [|e vs].
  - unfold sortBySimilarity, slice0. simpl. rewrite take_nil. reflexivity.
  - rewrite (scores_ok q (e :: vs) H). reflexivity.
Qed.

Lemma query_mismatch (rt : Runtime) (vs : list VectorEntry) (q : list number) (k : Z) :
  Exists (fun e => length (ve_embedding e) <> length q) vs ->
  query rt vs q k = Throw "Vectors must have same length".
Proof.
  intros H. unfold query. destruct vs as [|e vs]; [inversion H|].
  simpl (length _ =? 0)%nat. cbv iota. rewrite (scores_throw q (e :: vs) H). reflexivity.
Qed.








(** The ranking of that index: the two entries of similarity 1 in their
    order of insertion, then the entry of similarity 0. *)
Example query_example :
  query (rt0 None Yes) [sample_entry "a" 1 0; sample_entry "b" 0 1; sample_entry "c" 2 0]%float [1; 0]%float 5
  = Ok (map toSimilarNote
          [scoredBy [1; 0]%float (sample_entry "a" 1 0);
           scoredBy [1; 0]%float (sample_entry "c" 2 0);
           scoredBy [1; 0]%float (sample_entry "b" 0 1)])%float.
Proof. vm_compute. reflexivity. Qed.

(** C10: adding an entry whose id is already in the index removes the old
    entry and appends the new one at the end: the other entries keep their
    order, the index does not grow, and in the ranking of every later query
    the new entry stands after all the entries it ties with. *)
Theorem add_existing_goes_last (rt : Runtime) (vs : list VectorEntry) (e : VectorEntry)
    (q : list number) (k : Z) :
  In (ve_id e) (map ve_id vs) ->
  same_dimension q (add vs e) ->
  comparable q (add vs e) ->
  let others := filter (fun v => ve_id v <> ve_id e) vs in
  let ranked := sort compareFn (map (scoredBy q) (add vs e)) in
  add vs e = others ++ [e] /\
  last (add vs e) = Some e /\
  (length (add vs e) <= length vs)%nat /\
  (forall v, In v (add vs e) -> ve_id v = ve_id e -> v = e) /\
  query rt (add vs e) q k = Ok (map toSimilarNote (slice0 k ranked)) /\
  filter (tied (similarity (scoredBy q e))) ranked
  = filter (tied (similarity (scoredBy q e))) (map (scoredBy q) others) ++ [scoredBy q e].
Proof.
  intros Hin Hdim Hcmp others ranked. unfold add in *. fold others in Hdim, Hcmp |- *.
  repeat split.
  - apply last_snoc.
  - apply in_map_iff in Hin as (v & Hv & Hin). apply list_elem_of_In in Hin.
    rewrite length_app. simpl.
    pose proof (length_filter_lt (fun v => ve_id v <> ve_id e) vs v Hin) as Hlt.
    fold others in Hlt. assert (~ ve_id v <> ve_id e) by (intros H; apply H; exact Hv).
    specialize (Hlt H). lia.
  - intros v Hv Hid. apply in_app_iff in Hv as [Hv|[->|[]]]; [|reflexivity].
    apply list_elem_of_In, list_elem_of_filter in Hv as [Hne _]. contradiction.
  - rewrite (query_scored rt _ q k Hdim).
    rewrite (sortBySimilarity_ok rt _ (scores_sim_ok q _ Hcmp)). reflexivity.
  - unfold ranked. rewrite sort_stable by (apply scores_sim_ok; exact Hcmp).
    rewrite map_app, filter_app. f_equal. simpl.
    rewrite filter_cons_True; [reflexivity|].
    unfold tied. apply Forall_app in Hcmp as [_ He].
    apply Forall_cons_1 in He as [He _]. apply eq_key; auto.
Qed.

Lemma add_existing_goes_last_witness :
  let vs := [sample_entry "a" 1 0; sample_entry "b" 2 0]%float in
  let e := sample_entry "a" 3%float 0%float in
  let q := [1; 0]%float in
  add vs e = [sample_entry "b" 2 0; e]%float /\
  query (rt0 None Yes) vs q 5 = Ok (map toSimilarNote (map (scoredBy q) vs)) /\
  query (rt0 None Yes) (add vs e) q 5
  = Ok (map toSimilarNote (map (scoredBy q) [sample_entry "b" 2 0; e]%float)).
Proof.
  pose proof (add_existing_goes_last (rt0 None Yes)
                [sample_entry "a" 1 0; sample_entry "b" 2 0]%float (sample_entry "a" 3 0)%float
                [1; 0]%float 5) as H.
  cbv zeta in H.
  destruct H as (H1 & _ & _ & _ & H5 & _).
  - left. reflexivity.
  - repeat constructor.
  - repeat constructor.
  - split; [exact H1|]. split; vm_compute; reflexivity.
Defined.

End QueryFacts.

(** * Persistence of the index: [load] and [save] *)

Section PersistenceFacts.
Import VectorStore.
Context (rt : Runtime) (cfg : Config).

Lemma load_absent (w : World) :
  Fs.existsSync (fs w) (storePath cfg) = false -> load rt cfg w = (w, Ok tt).
Proof.
  intros H. unfold load, catch, load_body, bind, existsSync, gets. rewrite H. reflexivity.
Qed.

Lemma load_unreadable (w : World) :
  Fs.existsSync (fs w) (storePath cfg) = true ->
  snapshot_unreadable rt cfg (fs w) ->
  load rt cfg w = (set_vectors [] (logged WarnLoadFailed w), Ok tt).
Proof.
  intros H U. unfold snapshot_unreadable in U.
  unfold load, catch, load_body, bind, existsSync, gets, readFileSync. rewrite H.
  destruct (Fs.readFileSync (fs w) (storePath cfg)) as [text|e]; [rewrite U|]; reflexivity.
Qed.

Lemma load_parsed (w : World) (text : string) (vs : list VectorEntry) :
  Fs.existsSync (fs w) (storePath cfg) = true ->
  Fs.readFileSync (fs w) (storePath cfg) = Ok text ->
  json_parse rt text = Some vs ->
  load rt cfg w = (set_vectors vs w, Ok tt).
Proof.
  intros H R P.
  unfold load, catch, load_body, bind, existsSync, gets, readFileSync.
  rewrite H, R, P. reflexivity.
Qed.

Lemma classic_unreadable (w : World) :
  snapshot_unreadable rt cfg (fs w) \/
  exists text vs,
    Fs.readFileSync (fs w) (storePath cfg) = Ok text /\ json_parse rt text = Some vs.
Proof.
  unfold snapshot_unreadable.
  destruct (Fs.readFileSync (fs w) (storePath cfg)) as [text|e]; [|left; exact I].
  destruct (json_parse rt text) as [vs|] eqn:P; [right|left; reflexivity].
  exists text, vs. split; [reflexivity|exact P].
Qed.

(** C9: [load] never throws and leaves the file system alone. When the
    snapshot is absent the index is left as it is; when reading or parsing
    the snapshot fails the index is reset to the empty list. So a store
    that is loaded when new, as [initialize] does, is empty in both cases,
    and every query on it returns the empty list, as on a new index. *)
Theorem load_never_throws (w : World) :
  exists w',
    load rt cfg w = (w', Ok tt) /\
    fs w' = fs w /\
    (Fs.existsSync (fs w) (storePath cfg) = false -> w' = w) /\
    (Fs.existsSync (fs w) (storePath cfg) = true ->
       snapshot_unreadable rt cfg (fs w) -> vectors w' = []) /\
    (vectors w = [] ->
       Fs.existsSync (fs w) (storePath cfg) = false \/ snapshot_unreadable rt cfg (fs w) ->
       vectors w' = [] /\ forall q k, query rt (vectors w') q k = Ok []).
Proof.
  destruct (Fs.existsSync (fs w) (storePath cfg)) eqn:E.
  - destruct (classic_unreadable w) as [U|(text & vs & R & P)].
    + exists (set_vectors [] (logged WarnLoadFailed w)).
      rewrite load_unreadable by assumption.
      split; [reflexivity|]. split; [reflexivity|]. split; [discriminate|].
      split; [reflexivity|]. intros _ _. split; reflexivity.
    + assert (Hread : ~ snapshot_unreadable rt cfg (fs w)).
      { unfold snapshot_unreadable. rewrite R, P. discriminate. }
      exists (set_vectors vs w). rewrite (load_parsed w text vs E R P).
      split; [reflexivity|]. split; [reflexivity|]. split; [discriminate|].
      split; [intros _ U; contradiction|].
      intros _ [Habs|U]; [discriminate Habs|contradiction].
  - exists w. rewrite load_absent by exact E.
    split; [reflexivity|]. split; [reflexivity|]. split; [reflexivity|].
    split; [discriminate|]. intros Hnew _. split; [exact Hnew|].
    intros q k. rewrite Hnew. reflexivity.
Qed.

Lemma save_ops_eq (vs : list VectorEntry) :
  save_ops rt cfg vs
  = [Fs.Truncate (storePath cfg); Fs.Append (storePath cfg) (json_stringify rt vs)].
Proof. reflexivity. Qed.

Lemma run_save_ops (f : FS) (vs : list VectorEntry) :
  writable f (storePath cfg) ->
  Fs.run f (save_ops rt cfg vs)
  = (mkFS (<[storePath cfg := json_stringify rt vs]> (files f)) (dirs f), Ok tt).
Proof.
  intros [H P]. unfold save_ops, Fs.writeFile_ops. simpl.
  rewrite bool_decide_eq_false_2 by exact H. rewrite P. simpl.
  rewrite lookup_insert_eq. simpl. rewrite insert_insert_eq. reflexivity.
Qed.

Lemma run_save_ops_fail (f : FS) (vs : list VectorEntry) :
  ~ writable f (storePath cfg) ->
  exists e, Fs.run f (save_ops rt cfg vs) = (f, Throw e).
Proof.
  intros H. unfold save_ops, Fs.writeFile_ops. simpl.
  destruct (decide (storePath cfg ∈ dirs f)) as [Hd|Hd].
  - rewrite bool_decide_eq_true_2 by exact Hd. eexists. reflexivity.
  - rewrite bool_decide_eq_false_2 by exact Hd.
    destruct (Fs.parentCheck f (storePath cfg)) as [[]|e] eqn:P.
    + exfalso. apply H. split; assumption.
    + eexists. reflexivity.
Qed.

Lemma crash_states_save (f : FS) (vs : list VectorEntry) :
  writable f (storePath cfg) ->
  Fs.crash_states f (save_ops rt cfg vs)
  = [f; mkFS (<[storePath cfg := ""]> (files f)) (dirs f)].
Proof.
  intros [H P]. unfold Fs.crash_states, save_ops, Fs.writeFile_ops. simpl.
  rewrite bool_decide_eq_false_2 by exact H. rewrite P. destruct f; reflexivity.
Qed.

(** C2, as the code has it: [save] writes the serialized entries over the
    snapshot in place, by one [writeFile] on the path of the store: its
    steps are the truncation of that file and the write of the text, with
    no temporary file and no rename. It never throws. When the file can be
    opened for writing (its path is not a directory and lies in a
    directory that exists), the snapshot holds the serialized entries
    afterwards and nothing else changes, and a crash between the two steps
    leaves the snapshot empty. When it cannot, nothing is written and the
    failure goes to the console. *)
Theorem save_in_place (w : World) :
  save_ops rt cfg (vectors w)
  = [Fs.Truncate (storePath cfg);
     Fs.Append (storePath cfg) (json_stringify rt (vectors w))] /\
  exists w',
    save rt cfg w = (w', Ok tt) /\
    fs w' = fst (Fs.run (fs w) (save_ops rt cfg (vectors w))) /\
    vectors w' = vectors w /\
    (writable (fs w) (storePath cfg) ->
       w' = set_fs (mkFS (<[storePath cfg := json_stringify rt (vectors w)]> (files (fs w)))
                         (dirs (fs w))) w /\
       Fs.crash_states (fs w) (save_ops rt cfg (vectors w))
       = [fs w; mkFS (<[storePath cfg := ""]> (files (fs w))) (dirs (fs w))]) /\
    (~ writable (fs w) (storePath cfg) -> w' = logged ErrSaveFailed w).
Proof.
  split; [reflexivity|].
  unfold save, catch, bind, gets, writeFile, Fs.writeFile. fold (save_ops rt cfg (vectors w)).
  destruct (decide (writable (fs w) (storePath cfg))) as [Hw|Hw].
  - rewrite run_save_ops by exact Hw. eexists. split; [reflexivity|].
    split; [reflexivity|]. split; [reflexivity|]. split; [|intros H; contradiction].
    intros _. split; [reflexivity|]. apply crash_states_save. exact Hw.
  - destruct (run_save_ops_fail (fs w) (vectors w) Hw) as (e & ->).
    eexists. split; [reflexivity|].
    split; [reflexivity|]. split; [reflexivity|]. split; [intros H; contradiction|].
    intros _. destruct w; reflexivity.
Qed.

End PersistenceFacts.

(** A snapshot that is not JSON: the index, which held an entry, is reset
    and queries return nothing. *)
Lemma load_never_throws_witness :
  let corrupt := mkFS {[ VectorStore.storePath cfg0 := "{oops" ]} {[ "/data" ]} in
  let w := set_vectors [sample_entry "a" 1%float 0%float] (set_fs corrupt w0) in
  exists w',
    VectorStore.load (rt0 None Yes) cfg0 w = (w', Ok tt) /\
    vectors w' = [] /\
    forall q k, VectorStore.query (rt0 None Yes) (vectors w') q k = Ok [].
Proof.
  destruct (load_never_throws (rt0 None Yes) cfg0
              (set_vectors [sample_entry "a" 1%float 0%float]
                 (set_fs (mkFS {[ VectorStore.storePath cfg0 := "{oops" ]} {[ "/data" ]}) w0)))
    as (w' & Hload & _ & _ & Hreset & _).
  assert (Hempty : vectors w' = []).
  { apply Hreset; [vm_compute; reflexivity|].
    unfold snapshot_unreadable. vm_compute. reflexivity. }
  exists w'. split; [exact Hload|]. split; [exact Hempty|].
  intros q k. rewrite Hempty. reflexivity.
Defined.

(** On the sample installation [save] leaves the serialized index in the
    snapshot; without the data directory it writes nothing. *)
Lemma save_in_place_witness :
  (exists w',
     VectorStore.save rt_json cfg0 w_indexed = (w', Ok tt) /\
     files (fs w') !! VectorStore.storePath cfg0
     = Some (printIndex (vectors w_indexed))) /\
  VectorStore.save rt_json cfg0 (set_fs Fs.empty w_indexed)
  = (logged ErrSaveFailed (set_fs Fs.empty w_indexed), Ok tt).
Proof.
  split.
  - destruct (save_in_place rt_json cfg0 w_indexed) as (_ & w' & Hsave & _ & _ & Hfile & _).
    exists w'. split; [exact Hsave|].
    destruct Hfile as [-> _].
    + apply (bool_decide_unpack _). vm_compute. exact I.
    + simpl. rewrite lookup_insert_eq. reflexivity.
  - destruct (save_in_place rt_json cfg0 (set_fs Fs.empty w_indexed))
      as (_ & w' & Hsave & _ & _ & _ & Hfail).
    rewrite Hsave. rewrite Hfail; [reflexivity|].
    intros H. revert H. apply (bool_decide_unpack _). vm_compute. exact I.
Defined.

(** C2, as the specification states it, fails: on the sample installation
    [save] does not go through a temporary file, and a crash after its
    first step has lost the snapshot that was there. *)
Lemma save_not_atomic :
  let f := mkFS {[ VectorStore.storePath cfg0 := "[a,b]" ]} {[ "/data" ]} in
  ~ writes_via_temp (rt0 None Yes) cfg0 [] /\
  ~ snapshot_survives_crash (rt0 None Yes) cfg0 [] f.
Proof.
  split.
  - intros (tmp & Hne & H). unfold VectorStore.save_ops, Fs.writeFile_ops in H.
    simpl in H. discriminate H.
  - intros H.
    assert (Hin : In (mkFS (<[VectorStore.storePath cfg0 := ""]>
                              {[ VectorStore.storePath cfg0 := "[a,b]" ]}) {[ "/data" ]})
                     (Fs.crash_states
                        (mkFS {[ VectorStore.storePath cfg0 := "[a,b]" ]} {[ "/data" ]})
                        (VectorStore.save_ops (rt0 None Yes) cfg0 [])))
      by (right; left; vm_compute; reflexivity).
    apply H in Hin. simpl in Hin.
    rewrite lookup_insert_eq, lookup_singleton_eq in Hin. discriminate Hin.
Qed.

(** * Undo *)

Section UndoFacts.
Import NoteSorter.
Context (rt : Runtime).

Lemma getLastSort_nil : MemoryManager.getLastSort [] = None.
Proof. reflexivity. Qed.

(** C7: with an empty history [undoLastSort] returns [false] and only
    writes a warning to the console. When the file at the destination path
    of the latest entry of the history does not exist, it returns [false]
    and leaves the file system, the index and the tables as they were,
    whether the row object gives that path under the key [toPath] or has
    no such key. *)
Theorem undo_fails_untouched (w : World) :
  (sort_history w = [] ->
     undoLastSort rt w = (logged WarnNoSorts w, Ok false)
     /\ same_state w (logged WarnNoSorts w)) /\
  (forall r,
     MemoryManager.getLastSort (sort_history w) = Some r ->
     toPath_is_destination rt r ->
     Fs.existsSync (fs w) (to_path r) = false ->
     undoLastSort rt w = (logged (ErrFileNotFound (rowProperty rt r "toPath")) w, Ok false)
     /\ same_state w (logged (ErrFileNotFound (rowProperty rt r "toPath")) w)).
Proof.
  split.
  - intros H. split; [|repeat split].
    unfold undoLastSort, bind, gets. rewrite H. reflexivity.
  - intros r H Hkey Hmissing. split; [|repeat split].
    unfold undoLastSort. cbv [bind gets]. rewrite H.
    destruct (rowProperty rt r "toPath") as [p|] eqn:E.
    + rewrite (Hkey p E). cbv [existsSync gets]. rewrite Hmissing. reflexivity.
    + reflexivity.
Qed.

End UndoFacts.

Lemma undo_fails_untouched_witness :
  let row := mkSortRow 1 inbox_note inbox_note "/ws/work/note.md" (Some 0.85%float) 1700000000000 in
  let w := set_sort_history [row] w0 in
  (NoteSorter.undoLastSort (rt0 None Yes) w0 = (logged WarnNoSorts w0, Ok false)
   /\ same_state w0 (logged WarnNoSorts w0)) /\
  exists w', NoteSorter.undoLastSort (rt0 None Yes) w = (w', Ok false) /\ same_state w w'.
Proof.
  split.
  - apply (proj1 (undo_fails_untouched (rt0 None Yes) w0)). reflexivity.
  - eexists.
    apply (proj2 (undo_fails_untouched (rt0 None Yes)
                    (set_sort_history
                       [mkSortRow 1 inbox_note inbox_note "/ws/work/note.md"
                          (Some 0.85%float) 1700000000000] w0))
             (mkSortRow 1 inbox_note inbox_note "/ws/work/note.md"
                (Some 0.85%float) 1700000000000)).
    + reflexivity.
    + intros p Hp. discriminate Hp.
    + vm_compute. reflexivity.
Defined.

(** * Suggestions: the fallback and the parser *)

Section SuggestionFacts.
Import NoteSorter.

Lemma occurrences_votes (g : string) (arr : list string) : occurrences g arr = votes arr g.
Proof.
  unfold occurrences, votes. induction arr as [|x arr IH]; [reflexivity|].
  rewrite filter_cons. simpl.
  destruct (decide (x = g)) as [E|E], (string_dec x g) as [E'|E']; try contradiction;
    simpl; rewrite IH; reflexivity.
Qed.

Lemma mostCommon_inv (arr : list string) :
  forall (rest seen : list string) (a : string),
    plurality_in arr seen a ->
    plurality_in arr (seen ++ rest)
      (fold_left
         (fun a b => if (occurrences b arr <=? occurrences a arr)%nat then a else b)
         rest a).
Proof.
  induction rest as [|b rest IH]; intros seen a Ha; simpl.
  - rewrite app_nil_r. exact Ha.
  - replace (seen ++ b :: rest) with ((seen ++ [b]) ++ rest)
      by (rewrite <- app_assoc; reflexivity).
    apply IH. destruct Ha as (Hmax & pre & post & Hs & Hpre).
    rewrite !occurrences_votes.
    destruct (Nat.leb_spec (votes arr b) (votes arr a)) as [Hle|Hlt].
    + split.
      * intros g Hg. apply in_app_iff in Hg as [Hg|[<-|[]]]; auto.
      * exists pre, (post ++ [b]). split; [|exact Hpre].
        rewrite Hs, <- app_assoc. reflexivity.
    + split.
      * intros g Hg. apply in_app_iff in Hg as [Hg|[<-|[]]]; [|lia].
        specialize (Hmax g Hg). lia.
      * exists seen, []. split; [reflexivity|].
        intros g Hg. specialize (Hmax g Hg). lia.
Qed.

Lemma mostCommon_plurality (first : string) (rest : list string) :
  plurality (first :: rest) (mostCommon first rest).
Proof.
  pose proof (mostCommon_inv (first :: rest) rest [first] first) as H.
  destruct H as (Hmax & pre & post & Hs & Hpre).
  { split.
    - intros g [<-|[]]. lia.
    - exists [], []. split; [reflexivity|]. intros g []. }
  split.
  - intros g. destruct (in_dec string_dec g (first :: rest)) as [Hg|Hg].
    + apply Hmax. exact Hg.
    + unfold votes at 1. rewrite (proj1 (count_occ_not_In string_dec _ g) Hg). lia.
  - exists pre, post. split; assumption.
Qed.

Lemma getSuggestion_fallback (rt : Runtime) (content folderStructure filename : string)
    (similarNotes : list SimilarNote) (w : World) :
  chat rt (fallbackRequest content folderStructure filename similarNotes) = None ->
  getSuggestion rt content similarNotes folderStructure filename w
  = (logged ErrLLM w, Ok (fallback similarNotes)).
Proof.
  intros H. unfold getSuggestion. unfold fallbackRequest in H. rewrite H. reflexivity.
Qed.

Lemma applySuggestion_no_folder (rt : Runtime) (cfg : Config) (notePath : string)
    (auto dryRun : bool) (s : SortSuggestion) (w : World) :
  folder s = "" ->
  applySuggestion rt cfg notePath auto dryRun s w
  = (logged (ErrNoFolder (Path.basename notePath)) w, Ok (failed "No suggestion")).
Proof.
  intros H. unfold applySuggestion. rewrite decide_True by exact H. reflexivity.
Qed.

(** C3: when the request to the suggestion provider fails, [getSuggestion]
    does not throw and returns the fallback. With neighbors, its folder is
    the plurality folder of the neighbors (the one with the most votes, the
    first met among those) and its confidence is exactly 0.5; for the
    folders work/meetings, work/meetings, ideas that folder is
    work/meetings. Without neighbors it is the empty folder with
    confidence 0, and the run of [sortNote] that found no neighbor ends
    with the outcome "No suggestion". *)
Theorem fallback_plurality (rt : Runtime) (content folderStructure filename : string)
    (similarNotes : list SimilarNote) (w : World) :
  chat rt (fallbackRequest content folderStructure filename similarNotes) = None ->
  exists s,
    getSuggestion rt content similarNotes folderStructure filename w
    = (logged ErrLLM w, Ok s) /\
    (similarNotes <> [] ->
       plurality (map sn_folderPath similarNotes) (folder s) /\
       confidence s = 0.5%float /\
       reason s = "Fallback: based on similar notes") /\
    (map sn_folderPath similarNotes = ["work/meetings"; "work/meetings"; "ideas"] ->
       folder s = "work/meetings" /\ confidence s = 0.5%float) /\
    (similarNotes = [] ->
       s = mkSuggestion "" 0%float "" /\
       forall cfg notePath auto dryRun start,
         Fs.readFileSync (fs start) notePath = Ok content ->
         (String.length (Str.trim content) <? 10)%nat = false ->
         MemoryManager.findSimilarNotes rt content (topKSimilar cfg) start = (w, Ok []) ->
         folderStructure = folderSummary rt (notes w) ->
         filename = Path.basename notePath ->
         sortNote rt cfg notePath auto dryRun start
         = (logged (ErrNoFolder filename) (logged ErrLLM w), Ok (failed "No suggestion"))).
Proof.
  intros Hchat. exists (fallback similarNotes).
  split; [apply getSuggestion_fallback; exact Hchat|].
  split; [|split].
  - intros Hne. unfold fallback.
    destruct (map sn_folderPath similarNotes) as [|first rest] eqn:E.
    { destruct similarNotes; [contradiction|discriminate]. }
    simpl. split; [apply mostCommon_plurality|split; reflexivity].
  - intros E. unfold fallback. rewrite E. split; vm_compute; reflexivity.
  - intros ->. split; [reflexivity|].
    intros cfg notePath auto dryRun start Hread Hlen Hfind -> ->.
    unfold sortNote.
    unfold bind at 1. unfold catch, bind at 1, readFileSync. rewrite Hread. cbv [ret].
    rewrite Hlen. unfold bind at 1. rewrite Hfind.
    unfold bind at 1. unfold gets at 1. unfold bind at 1.
    rewrite getSuggestion_fallback by exact Hchat.
    apply applySuggestion_no_folder. reflexivity.
Qed.

(** The example of the specification, and a note that has no neighbor. *)
Lemma fallback_plurality_witness :
  let similarNotes :=
    [neighbor "/ws/work/meetings/a.md" "work/meetings" 0.9;
     neighbor "/ws/work/meetings/b.md" "work/meetings" 0.8;
     neighbor "/ws/ideas/c.md" "ideas" 0.7]%float in
  (exists s,
     getSuggestion (rt0 None Yes) "Agenda of the weekly meeting" similarNotes
       "No folders analyzed yet." "note.md" w0
     = (logged ErrLLM w0, Ok s) /\
     plurality ["work/meetings"; "work/meetings"; "ideas"] (folder s) /\
     folder s = "work/meetings" /\ confidence s = 0.5%float) /\
  sortNote (rt0 None Yes) cfg0 inbox_note true false w0
  = (logged (ErrNoFolder "note.md") (logged ErrLLM (called w0)), Ok (failed "No suggestion")).
Proof.
  split.
  - destruct (fallback_plurality (rt0 None Yes) "Agenda of the weekly meeting"
                "No folders analyzed yet." "note.md"
                [neighbor "/ws/work/meetings/a.md" "work/meetings" 0.9;
                 neighbor "/ws/work/meetings/b.md" "work/meetings" 0.8;
                 neighbor "/ws/ideas/c.md" "ideas" 0.7]%float w0)
      as (s & Hs & Hp & Hex & _).
    + reflexivity.
    + exists s. split; [exact Hs|]. split; [apply Hp; discriminate|].
      apply Hex. reflexivity.
  - destruct (fallback_plurality (rt0 None Yes) "Meeting notes about the project plan"
                "No folders analyzed yet." "note.md" [] (called w0))
      as (s & _ & _ & _ & He).
    + reflexivity.
    + apply (proj2 (He eq_refl) cfg0 inbox_note true false w0); reflexivity.
Defined.

End SuggestionFacts.

(** * Replies in the format of the prompt: the lines of a reply *)

Section ReplyLines.
Import NoteSorter.

Lemma trim_tight (s : string) : tight s -> Str.trim s = s.
Proof.
  intros [H1 H2]. unfold Str.trim.
  destruct (Str.chars s) as [|c l] eqn:E; [contradiction|].
  simpl Str.dropWhile at 2. rewrite H1.
  destruct (rev (c :: l)) as [|d l2] eqn:E2; [contradiction|].
  simpl. rewrite H2. rewrite <- E2, rev_involutive, <- E. apply unchars_chars.
Qed.

Lemma trim_space_tight (s : string) : tight s -> Str.trim (String " " s) = s.
Proof.
  intros H. rewrite <- (trim_tight s H) at 2. reflexivity.
Qed.

Lemma tight_app (a b : string) :
  match Str.chars a with c :: _ => Str.is_space c = false | [] => False end ->
  tight b -> tight (a +:+ b).
Proof.
  intros Ha [_ Hb]. unfold tight. rewrite chars_app, rev_app_distr. split.
  - destruct (Str.chars a); [contradiction|exact Ha].
  - destruct (rev (Str.chars b)); [contradiction|exact Hb].
Qed.

Lemma replace_absent (c : ascii) (s : string) :
  ~ In c (Str.chars s) -> Str.replace (String c "") "" s = s.
Proof.
  induction s as [|a s IH]; intros H; [reflexivity|].
  simpl in H. cbn [Str.replace String.prefix].
  destruct (ascii_dec c a) as [->|Hne]; [exfalso; apply H; left; reflexivity|].
  f_equal. apply IH. intros K. apply H. right. exact K.
Qed.

Lemma split_lines (a b : string) :
  Str.split "010"%char (a +:+ nl +:+ b)
  = Str.split "010"%char a ++ Str.split "010"%char b.
Proof.
  unfold Str.split, nl. rewrite !chars_app. simpl. apply split_chars_app.
Qed.

Lemma split_line (s : string) :
  ~ In "010"%char (Str.chars s) -> Str.split "010"%char s = [s].
Proof.
  intros H. unfold Str.split. rewrite (split_chars_noslash _ _ [] H). simpl.
  rewrite unchars_chars. reflexivity.
Qed.

Lemma append_line_free (a b : string) :
  ~ In "010"%char (Str.chars a) -> ~ In "010"%char (Str.chars b) ->
  ~ In "010"%char (Str.chars (a +:+ b)).
Proof. intros Ha Hb. rewrite chars_app, in_app_iff. tauto. Qed.

Lemma digit_no_space (c : ascii) : Str.is_digit c = true -> Str.is_space c = false.
Proof.
  unfold Str.is_digit, Str.is_space. intros H.
  apply andb_true_iff in H as [H1 H2]. apply Nat.leb_le in H1. apply Nat.leb_le in H2.
  apply orb_false_iff. split.
  - apply andb_false_iff. right. apply Nat.leb_gt. lia.
  - apply Nat.eqb_neq. lia.
Qed.

Lemma pretty_N_char_digit (x : N) : Str.is_digit (pretty_N_char x) = true.
Proof. unfold pretty_N_char. repeat case_match; reflexivity. Qed.

Lemma pretty_N_go_digits (x : N) : forall s,
  Forall (fun c => Str.is_digit c = true) (Str.chars s) ->
  Forall (fun c => Str.is_digit c = true) (Str.chars (pretty_N_go x s)).
Proof.
  induction (N.lt_wf_0 x) as [x _ IH]. intros s Hs.
  destruct (N.eq_dec x 0%N) as [->|Hx]; [rewrite pretty_N_go_0; exact Hs|].
  rewrite pretty_N_go_step by lia. apply IH.
  - apply N.div_lt; lia.
  - simpl. constructor; [apply pretty_N_char_digit|exact Hs].
Qed.

Lemma pretty_N_go_nonempty (x : N) : forall s, s <> "" -> pretty_N_go x s <> "".
Proof.
  induction (N.lt_wf_0 x) as [x _ IH]. intros s Hs.
  destruct (N.eq_dec x 0%N) as [->|Hx]; [rewrite pretty_N_go_0; exact Hs|].
  rewrite pretty_N_go_step by lia. apply IH; [apply N.div_lt; lia|discriminate].
Qed.

(** The decimal text of a natural number is a field of digits. *)
Lemma pretty_nat_digits (n : nat) :
  pretty n <> "" /\ Forall (fun c => Str.is_digit c = true) (Str.chars (pretty n)).
Proof.
  change (pretty n) with (pretty_N (N.of_nat n)). unfold pretty_N.
  destruct (decide (N.of_nat n = 0%N)).
  - split; [discriminate|repeat constructor].
  - split.
    + rewrite pretty_N_go_step by lia. apply pretty_N_go_nonempty. discriminate.
    + apply pretty_N_go_digits. constructor.
Qed.

Lemma digits_field (s : string) :
  s <> "" -> Forall (fun c => Str.is_digit c = true) (Str.chars s) ->
  field s /\ ~ In "%"%char (Str.chars s).
Proof.
  intros Hne Hd.
  assert (Hall : forall c, In c (Str.chars s) -> Str.is_digit c = true)
    by (apply List.Forall_forall; exact Hd).
  split; [split; [split|]|].
  - destruct (Str.chars s) as [|c l] eqn:E.
    + apply Hne. apply chars_inj. rewrite E. reflexivity.
    + apply digit_no_space, Hall. left. reflexivity.
  - destruct (rev (Str.chars s)) as [|c l] eqn:E.
    + apply Hne. apply chars_inj. apply (f_equal (@rev ascii)) in E.
      rewrite rev_involutive in E. rewrite E. reflexivity.
    + apply digit_no_space, Hall. apply in_rev. rewrite E. left. reflexivity.
  - intros H. apply Hall in H. discriminate H.
  - intros H. apply Hall in H. discriminate H.
Qed.

(** The lines of a reply in the format of the prompt. *)
Lemma replyLines_reply (folderText confidenceText reasonText : string) :
  field folderText -> field confidenceText -> field reasonText ->
  replyLines (reply folderText confidenceText reasonText)
  = ["FOLDER: " +:+ folderText; "CONFIDENCE: " +:+ confidenceText;
     "REASON: " +:+ reasonText].
Proof.
  intros [Tf Nf] [Tc Nc] [Tr Nr].
  assert (N1 : ~ In "010"%char (Str.chars ("FOLDER: " +:+ folderText))).
  { apply append_line_free; [|exact Nf]. vm_compute. intuition discriminate. }
  assert (N2 : ~ In "010"%char (Str.chars ("CONFIDENCE: " +:+ confidenceText))).
  { apply append_line_free; [|exact Nc]. vm_compute. intuition discriminate. }
  assert (N3 : ~ In "010"%char (Str.chars ("REASON: " +:+ reasonText))).
  { apply append_line_free; [|exact Nr]. vm_compute. intuition discriminate. }
  unfold replyLines, reply.
  assert (Tall : tight ("FOLDER: " +:+ folderText +:+ nl +:+ "CONFIDENCE: "
                          +:+ confidenceText +:+ nl +:+ "REASON: " +:+ reasonText)).
  { apply tight_app; [reflexivity|]. destruct Tr as [_ Tr]. split.
    - destruct Tf as [Tf _]. rewrite chars_app.
      destruct (Str.chars folderText); [contradiction|exact Tf].
    - rewrite !chars_app, !rev_app_distr.
      destruct (rev (Str.chars reasonText)); [contradiction|exact Tr]. }
  rewrite (trim_tight _ Tall).
  replace ("FOLDER: " +:+ folderText +:+ nl +:+ "CONFIDENCE: " +:+ confidenceText
             +:+ nl +:+ "REASON: " +:+ reasonText)
    with (("FOLDER: " +:+ folderText) +:+ nl +:+
          (("CONFIDENCE: " +:+ confidenceText) +:+ nl +:+ ("REASON: " +:+ reasonText)))
    by (rewrite !append_assoc; reflexivity).
  rewrite !split_lines, (split_line _ N1), (split_line _ N2), (split_line _ N3).
  reflexivity.
Qed.

(** The confidence the second line of such a reply sets. *)
Lemma confidenceField_line (confidenceText : string) :
  field confidenceText ->
  confidenceField ("CONFIDENCE: " +:+ confidenceText)
  = Some (Str.parseFloat (Str.replace "%" "" confidenceText) / 100)%float.
Proof.
  intros [Tc Nc]. unfold confidenceField.
  assert (T2 : tight ("CONFIDENCE: " +:+ confidenceText))
    by (apply tight_app; [reflexivity|exact Tc]).
  rewrite (trim_tight _ T2).
  assert (S2 : Str.startsWith ("CONFIDENCE: " +:+ confidenceText) "FOLDER:" = false)
    by (vm_compute; reflexivity).
  assert (S3 : Str.startsWith ("CONFIDENCE: " +:+ confidenceText) "CONFIDENCE:" = true)
    by (vm_compute; reflexivity).
  assert (R2 : Str.replace "CONFIDENCE:" "" ("CONFIDENCE: " +:+ confidenceText)
               = String " " confidenceText)
    by (vm_compute; reflexivity).
  rewrite S2, S3, R2, (trim_space_tight _ Tc). reflexivity.
Qed.

End ReplyLines.
(** * The parser of replies and the confidence policy *)

Section PolicyFacts.
Import NoteSorter.

Lemma parseLine_confidence (acc : SortSuggestion) (line : string) :
  confidence (parseLine acc line)
  = match confidenceField line with Some c => c | None => confidence acc end.
Proof.
  unfold parseLine, confidenceField.
  destruct (Str.startsWith (Str.trim line) "FOLDER:"); [reflexivity|].
  destruct (Str.startsWith (Str.trim line) "CONFIDENCE:"); [reflexivity|].
  destruct (Str.startsWith (Str.trim line) "REASON:"); reflexivity.
Qed.

Lemma fold_parseLine_confidence (lines : list string) :
  forall acc,
    confidence (fold_left parseLine lines acc)
    = lastSome (confidence acc) (map confidenceField lines).
Proof.
  induction lines as [|line lines IH]; intros acc; simpl; [reflexivity|].
  rewrite IH, parseLine_confidence. reflexivity.
Qed.

Lemma lastSome_in_unit (l : list (option number)) :
  forall d,
    Num.in_unit d = true ->
    (forall v, In (Some v) l -> Num.in_unit v = true) ->
    Num.in_unit (lastSome d l) = true.
Proof.
  induction l as [|o l IH]; intros d Hd H; simpl; [exact Hd|].
  apply IH.
  - destruct o as [v|]; [apply H; left; reflexivity|exact Hd].
  - intros v Hv. apply H. right. exact Hv.
Qed.

Lemma percentages_in_unit :
  forallb (fun n : nat => Num.in_unit (Str.parseFloat (pretty n) / 100)%float) (seq 0 101)
  = true.
Proof. vm_compute. reflexivity. Qed.

(** C5, as the code has it: the confidence of a parsed reply is the
    number of its last CONFIDENCE line divided by 100, and 0 when it has no
    such line; nothing clamps it. It is in [0,1] when each CONFIDENCE line
    of the reply gives a value in [0,1]; for a reply in the format of the
    prompt it is the number of the confidence text, without its first
    percent sign, divided by 100, which is in [0,1] for an integer
    percentage from 0 to 100. The confidence of
    the fallback is 0.5 with neighbors and 0 without. *)
Theorem parsed_confidence (response : string) :
  confidence (parseLLMResponse response)
  = lastSome 0%float (map confidenceField (replyLines response)) /\
  ((forall line v, In line (replyLines response) ->
      confidenceField line = Some v -> Num.in_unit v = true) ->
   Num.in_unit (confidence (parseLLMResponse response)) = true) /\
  (forall folderText confidenceText reasonText,
     field folderText -> field confidenceText -> field reasonText ->
     confidence (parseLLMResponse (reply folderText confidenceText reasonText))
     = (Str.parseFloat (Str.replace "%" "" confidenceText) / 100)%float) /\
  (forall folderText reasonText (n : nat),
     field folderText -> field reasonText -> (n <= 100)%nat ->
     Num.in_unit (confidence (parseLLMResponse (reply folderText (pretty n) reasonText)))
     = true) /\
  (forall similarNotes,
     (similarNotes <> [] -> confidence (fallback similarNotes) = 0.5%float) /\
     (similarNotes = [] -> confidence (fallback similarNotes) = 0%float)).
Proof.
  assert (Heq : forall response,
             confidence (parseLLMResponse response)
             = lastSome 0%float (map confidenceField (replyLines response))).
  { intros r. unfold parseLLMResponse. rewrite fold_parseLine_confidence. reflexivity. }
  assert (Hreply : forall folderText confidenceText reasonText,
             field folderText -> field confidenceText -> field reasonText ->
             confidence (parseLLMResponse (reply folderText confidenceText reasonText))
             = (Str.parseFloat (Str.replace "%" "" confidenceText) / 100)%float).
  { intros f c r Hf Hc Hr. rewrite Heq, (replyLines_reply f c r Hf Hc Hr).
    cbn [map]. rewrite (confidenceField_line c Hc).
    assert (confidenceField ("REASON: " +:+ r) = None) as ->.
    { unfold confidenceField. destruct Hr as [Tr _].
      rewrite (trim_tight ("REASON: " +:+ r)) by (apply tight_app; [reflexivity|exact Tr]).
      reflexivity. }
    unfold lastSome. cbn [fold_left].
    destruct (confidenceField ("FOLDER: " +:+ f)); reflexivity. }
  split; [apply Heq|]. split; [|split; [exact Hreply|split]].
  - intros H. rewrite Heq. apply lastSome_in_unit; [reflexivity|].
    intros v Hv. apply in_map_iff in Hv as (line & Hline & Hin). eauto.
  - intros f r n Hf Hr Hn.
    destruct (pretty_nat_digits n) as [Hne Hd].
    destruct (digits_field (pretty n) Hne Hd) as [Hc Hp].
    rewrite (Hreply f (pretty n) r Hf Hc Hr), (replace_absent "%" _ Hp).
    pose proof percentages_in_unit as H.
    rewrite forallb_forall in H. apply (H n). apply in_seq. lia.
  - intros similarNotes. unfold fallback. split.
    + intros Hne. destruct similarNotes; [contradiction|reflexivity].
    + intros ->. reflexivity.
Qed.

Lemma parsed_confidence_witness :
  Num.in_unit (confidence (parseLLMResponse
                             (reply "projects/work/meetings" (pretty 85%nat)
                                "Content discusses project planning")))
  = true.
Proof.
  apply (proj1 (proj2 (proj2 (proj2 (parsed_confidence ""))))
           "projects/work/meetings" "Content discusses project planning" 85%nat).
  - split; [split; reflexivity|]. vm_compute. intuition discriminate.
  - split; [split; reflexivity|]. vm_compute. intuition discriminate.
  - lia.
Defined.

(** C5, as the specification states it, fails: a reply with the
    confidence 150 is parsed to the confidence 1.5. *)
Lemma confidence_out_of_range :
  confidence (parseLLMResponse (reply "work" "150" "sure")) = 1.5%float /\
  ~ (forall response, Num.in_unit (confidence (parseLLMResponse response)) = true).
Proof.
  split; [vm_compute; reflexivity|].
  intros H. specialize (H (reply "work" "150" "sure")). vm_compute in H. discriminate H.
Qed.

Lemma declined_run (rt : Runtime) (message : string) (w : World) :
  declined rt message w
  = (logged (Asked message (confirm rt message)) w,
     Ok (match confirm rt message with Yes => false | _ => true end)).
Proof. reflexivity. Qed.

Lemma applySuggestion_meets (rt : Runtime) (cfg : Config) (notePath : string)
    (auto dryRun : bool) (s : SortSuggestion) (w : World) :
  folder s <> "" ->
  Num.lt (confidence s) (confidenceThreshold cfg) = false ->
  applySuggestion rt cfg notePath auto dryRun s w = proceed rt cfg notePath auto dryRun s w.
Proof.
  intros Hf Hlt. unfold applySuggestion. rewrite decide_False by exact Hf.
  rewrite Hlt. reflexivity.
Qed.

Lemma proceed_declined (rt : Runtime) (cfg : Config) (notePath : string)
    (s : SortSuggestion) (w : World) :
  confirm rt "Move note?" <> Yes ->
  proceed rt cfg notePath false false s w
  = (logged (Asked "Move note?" (confirm rt "Move note?"))
       (logged (ShowSuggestion (Path.basename notePath) s) w),
     Ok (failed "User cancelled")).
Proof.
  intros H. unfold proceed. cbv [bind log modify negb]. rewrite declined_run.
  destruct (confirm rt "Move note?"); [contradiction| |]; reflexivity.
Qed.

(** C1, as the code has it: for a suggestion (with a folder) whose
    confidence is strictly below the threshold, [sortNote] writes a warning
    and then, in interactive mode, asks "Proceed anyway?": on any answer
    but yes it returns "User cancelled" and nothing but the console has
    changed, and on yes it goes on to the dry run or to the confirmation
    of the move, which a second answer other than yes cancels as well. In
    automatic mode it asks nothing and goes on to the move as for a
    suggestion that meets the threshold. *)
Theorem low_confidence_policy (rt : Runtime) (cfg : Config) (notePath : string)
    (dryRun : bool) (s : SortSuggestion) (w : World) :
  folder s <> "" ->
  Num.lt (confidence s) (confidenceThreshold cfg) = true ->
  let warned := logged (WarnLowConfidence (Path.basename notePath) s) w in
  let asked := logged (Asked "Proceed anyway?" (confirm rt "Proceed anyway?")) warned in
  (confirm rt "Proceed anyway?" <> Yes ->
     applySuggestion rt cfg notePath false dryRun s w = (asked, Ok (failed "User cancelled"))
     /\ same_state w asked) /\
  (confirm rt "Proceed anyway?" = Yes ->
     applySuggestion rt cfg notePath false dryRun s w
     = proceed rt cfg notePath false dryRun s asked) /\
  (confirm rt "Move note?" <> Yes ->
     exists w', applySuggestion rt cfg notePath false false s w
                = (w', Ok (failed "User cancelled")) /\ same_state w w') /\
  applySuggestion rt cfg notePath true dryRun s w
  = proceed rt cfg notePath true dryRun s warned.
Proof.
  intros Hf Hlt warned asked.
  assert (Hint : applySuggestion rt cfg notePath false dryRun s w
                 = match confirm rt "Proceed anyway?" with
                   | Yes => proceed rt cfg notePath false dryRun s asked
                   | _ => (asked, Ok (failed "User cancelled"))
                   end).
  { unfold applySuggestion. rewrite decide_False by exact Hf. rewrite Hlt.
    cbv [bind log modify negb]. rewrite declined_run.
    destruct (confirm rt "Proceed anyway?"); reflexivity. }
  split; [|split; [|split]].
  - intros Hno. rewrite Hint. split; [|repeat split].
    destruct (confirm rt "Proceed anyway?"); [contradiction| |]; reflexivity.
  - intros Hyes. rewrite Hint, Hyes. reflexivity.
  - intros Hno.
    assert (Hint' : applySuggestion rt cfg notePath false false s w
                 = match confirm rt "Proceed anyway?" with
                   | Yes => proceed rt cfg notePath false false s asked
                   | _ => (asked, Ok (failed "User cancelled"))
                   end).
    { unfold applySuggestion. rewrite decide_False by exact Hf. rewrite Hlt.
      cbv [bind log modify negb]. rewrite declined_run.
      destruct (confirm rt "Proceed anyway?"); reflexivity. }
    rewrite Hint'.
    destruct (confirm rt "Proceed anyway?");
      [rewrite proceed_declined by exact Hno|..];
      eexists; (split; [reflexivity|repeat split]).
  - unfold applySuggestion. rewrite decide_False by exact Hf. rewrite Hlt. reflexivity.
Qed.

(** The example of the specification: threshold 0.7, confidence 0.65,
    interactive mode, and the answer no. *)
Lemma low_confidence_policy_witness :
  let s := mkSuggestion "work" 0.65%float "similar notes are there" in
  let warned := logged (WarnLowConfidence "note.md" s) w0 in
  let asked := logged (Asked "Proceed anyway?" No) warned in
  applySuggestion (rt0 None No) cfg0 inbox_note false false s w0
  = (asked, Ok (failed "User cancelled"))
  /\ same_state w0 asked.
Proof.
  apply (proj1 (low_confidence_policy (rt0 None No) cfg0 inbox_note false
                  (mkSuggestion "work" 0.65%float "similar notes are there") w0
                  ltac:(discriminate) ltac:(reflexivity))).
  discriminate.
Defined.

(** C1, as the specification states it, fails: in automatic mode, with the
    threshold 0.7 and a reply of confidence 65, the note is moved and the
    result is a success. *)
Lemma auto_moves_below_threshold :
  let r := sortNote (rt0 (Some (reply "work" "65" "similar notes are there")) Yes)
             cfg0 inbox_note true false w0 in
  Num.lt 0.65%float (confidenceThreshold cfg0) = true /\
  snd r = Ok (succeeded inbox_note "/ws/work/note.md" 0.65%float) /\
  files (fs (fst r)) !! "/ws/work/note.md" = Some "Meeting notes about the project plan" /\
  files (fs (fst r)) !! inbox_note = None /\
  ~ below_threshold_left_unmoved.
Proof.
  split; [reflexivity|]. split; [vm_compute; reflexivity|].
  split; [vm_compute; reflexivity|]. split; [vm_compute; reflexivity|].
  intros H.
  pose (rt := rt0 (Some (reply "work" "65" "similar notes are there")) Yes).
  pose (s := mkSuggestion "work" 0.65%float "similar notes are there").
  destruct (applySuggestion rt cfg0 inbox_note true false s w0) as [w' r] eqn:E.
  assert (Hr : r = Ok (succeeded inbox_note "/ws/work/note.md" 0.65%float)).
  { change r with (snd (w', r)). rewrite <- E. vm_compute. reflexivity. }
  subst r.
  destruct (H rt cfg0 inbox_note s w0 w' _ ltac:(discriminate) ltac:(reflexivity) E)
    as [_ Hs].
  discriminate Hs.
Qed.

(** C8: there is a reply with a FOLDER line and a CONFIDENCE line that is
    not a number whose parsed confidence is NaN; a NaN is not below any
    threshold, so whatever the threshold [sortNote] writes no warning for
    it and goes on as for a suggestion that meets the threshold, and in
    automatic mode the note of the sample installation is moved. *)
Theorem nan_confidence_is_moved :
  exists response : string,
    let s := parseLLMResponse response in
    folder s = "work" /\
    Num.isNaN (confidence s) = true /\
    (forall threshold, Num.lt (confidence s) threshold = false) /\
    (forall rt cfg notePath auto dryRun w,
       applySuggestion rt cfg notePath auto dryRun s w
       = proceed rt cfg notePath auto dryRun s w) /\
    let r := sortNote (rt0 (Some response) Yes) cfg0 inbox_note true false w0 in
    (exists c, snd r = Ok (succeeded inbox_note "/ws/work/note.md" c)
               /\ Num.isNaN c = true) /\
    files (fs (fst r)) !! "/ws/work/note.md" = Some "Meeting notes about the project plan" /\
    files (fs (fst r)) !! inbox_note = None /\
    console (fst r) = [ShowSuggestion "note.md" s; MovedOk].
Proof.
  exists (reply "work" "high" "it looks like work").
  assert (Hnan : Num.isNaN (confidence (parseLLMResponse
                   (reply "work" "high" "it looks like work"))) = true)
    by (vm_compute; reflexivity).
  assert (Hlt : forall threshold,
             Num.lt (confidence (parseLLMResponse
                       (reply "work" "high" "it looks like work"))) threshold = false)
    by (intros t; apply lt_nan_l; exact Hnan).
  cbv zeta. split; [vm_compute; reflexivity|]. split; [exact Hnan|].
  split; [exact Hlt|]. split.
  - intros rt cfg notePath auto dryRun w. apply applySuggestion_meets; [|apply Hlt].
    vm_compute. discriminate.
  - split; [|split; [|split]]; try (vm_compute; reflexivity).
    eexists. split; vm_compute; reflexivity.
Qed.

End PolicyFacts.

(** * Moving a note: the names tried on a conflict *)

Section MoveFacts.
Import NoteSorter.

Lemma takeWhile_all {A} (p : A -> bool) (l : list A) (x : A) :
  In x (Str.takeWhile p l) -> p x = true.
Proof.
  induction l as [|y l IH]; simpl; [intros []|].
  destruct (p y) eqn:E; [|intros []]. intros [<-|H]; auto.
Qed.

Lemma dropStr_chars (n : nat) (s : string) :
  Str.chars (Str.dropStr n s) = drop n (Str.chars s).
Proof.
  revert s. induction n as [|n IH]; intros s; [destruct s; reflexivity|].
  destruct s as [|c s]; [reflexivity|]. simpl. apply IH.
Qed.

Lemma takeStr_chars (n : nat) (s : string) :
  Str.chars (Str.takeStr n s) = take n (Str.chars s).
Proof.
  revert s. induction n as [|n IH]; intros s; [destruct s; reflexivity|].
  destruct s as [|c s]; [reflexivity|]. simpl. f_equal. apply IH.
Qed.

Lemma basename_noslash (p : string) : ~ In Path.slash (Str.chars (Path.basename p)).
Proof.
  unfold Path.basename. rewrite chars_unchars. intros H.
  apply in_rev, takeWhile_all in H. rewrite Ascii.eqb_refl in H. discriminate H.
Qed.

Lemma extname_noslash (p : string) : ~ In Path.slash (Str.chars (Path.extname p)).
Proof.
  unfold Path.extname. destruct (decide _); [intros []|].
  rewrite dropStr_chars. intros H. apply (basename_noslash p).
  apply list_elem_of_In. apply list_elem_of_In in H.
  revert H. apply subseteq_drop.
Qed.

Lemma basename_ext_noslash (p ext : string) :
  ~ In Path.slash (Str.chars (Path.basename_ext p ext)).
Proof.
  unfold Path.basename_ext. destruct (decide _); [apply basename_noslash|].
  destruct (decide _); [intros []|].
  destruct (_ && _); [|apply basename_noslash].
  rewrite takeStr_chars. intros H. apply (basename_noslash p).
  apply list_elem_of_In. apply list_elem_of_In in H.
  revert H. apply subseteq_take.
Qed.

Lemma takeWhile_length {A} (p : A -> bool) (l : list A) :
  (length (Str.takeWhile p l) <= length l)%nat.
Proof. induction l as [|x l IH]; simpl; [lia|]. destruct (p x); simpl; lia. Qed.

Lemma dropWhile_length {A} (p : A -> bool) (l : list A) :
  (length (Str.dropWhile p l) <= length l)%nat.
Proof. induction l as [|x l IH]; simpl; [lia|]. destruct (p x); simpl; lia. Qed.

Lemma length_chars (s : string) : length (Str.chars s) = String.length s.
Proof. induction s as [|c s IH]; simpl; [reflexivity|]. f_equal. exact IH. Qed.

Lemma basename_length (p : string) :
  (String.length (Path.basename p) <= String.length p)%nat.
Proof.
  rewrite <- !length_chars. unfold Path.basename. rewrite chars_unchars, length_rev.
  etransitivity; [apply takeWhile_length|].
  etransitivity; [apply dropWhile_length|]. rewrite length_rev. reflexivity.
Qed.

Lemma lastIndexOf_from_bound (c : ascii) (l : list ascii) : forall i found,
  Str.lastIndexOf_from c i found l = found \/
  i <= Str.lastIndexOf_from c i found l < i + Z.of_nat (length l).
Proof.
  induction l as [|x l IH]; intros i found; simpl; [left; reflexivity|].
  destruct (IH (i + 1) (if Ascii.eqb x c then i else found)) as [E|E].
  - rewrite E. destruct (Ascii.eqb x c); [right; lia|left; reflexivity].
  - right. lia.
Qed.

Lemma takeStr_dropStr (n : nat) (s : string) : Str.takeStr n s +:+ Str.dropStr n s = s.
Proof.
  revert s. induction n as [|n IH]; intros s; [destruct s; reflexivity|].
  destruct s as [|c s]; [reflexivity|]. simpl. rewrite append_cons. f_equal. apply IH.
Qed.

Lemma endsWith_list_drop (l : list ascii) : forall n, Str.endsWith_list l (drop n l) = true.
Proof.
  induction l as [|x l IH]; intros n; simpl.
  - rewrite drop_nil. rewrite decide_True by reflexivity. reflexivity.
  - destruct (decide (x :: l = drop n (x :: l))); [reflexivity|].
    destruct n as [|n]; [contradiction|]. simpl. apply IH.
Qed.

(** The stem and the extension that [moveNote] takes from a path make up
    its file name. *)
Lemma stem_ext (p : string) :
  Path.basename_ext p (Path.extname p) +:+ Path.extname p = Path.basename p.
Proof.
  unfold Path.extname. set (b := Path.basename p).
  set (i := Str.lastIndexOf Path.dot b).
  destruct (decide (i <= 0 \/ b = "..")) as [H|H].
  - unfold Path.basename_ext. rewrite decide_True by (left; reflexivity).
    apply append_nil_r.
  - assert (Hi : 0 < i < Z.of_nat (String.length b)).
    { pose proof (lastIndexOf_from_bound Path.dot (Str.chars b) 0 (-1)) as E.
      rewrite length_chars in E. unfold i, Str.lastIndexOf in *. lia. }
    set (ext := Str.dropStr (Z.to_nat i) b).
    assert (Hlen : String.length ext = (String.length b - Z.to_nat i)%nat).
    { unfold ext. rewrite <- !length_chars, dropStr_chars, length_drop. reflexivity. }
    pose proof (basename_length p) as Hb. fold b in Hb.
    unfold Path.basename_ext. fold b.
    rewrite decide_False.
    2:{ intros [E|E]; [|lia]. rewrite E in Hlen. simpl in Hlen. lia. }
    rewrite decide_False by (intros E; rewrite <- E in Hb; lia).
    assert (Hends : Str.endsWith b ext = true).
    { unfold Str.endsWith, ext. rewrite dropStr_chars. apply endsWith_list_drop. }
    assert (Hneq : String.eqb b ext = false).
    { apply String.eqb_neq. intros E. rewrite <- E in Hlen. lia. }
    rewrite Hends, Hneq. simpl andb. cbv iota.
    replace (String.length b - String.length ext)%nat with (Z.to_nat i) by lia.
    apply takeStr_dropStr.
Qed.

Lemma pretty_N_char_noslash (x : N) : pretty_N_char x <> Path.slash.
Proof. unfold pretty_N_char. repeat case_match; discriminate. Qed.

Lemma pretty_N_go_noslash (x : N) : forall s,
  ~ In Path.slash (Str.chars s) -> ~ In Path.slash (Str.chars (pretty_N_go x s)).
Proof.
  induction (N.lt_wf_0 x) as [x _ IH]. intros s Hs.
  destruct (N.eq_dec x 0%N) as [->|Hx]; [rewrite pretty_N_go_0; exact Hs|].
  rewrite pretty_N_go_step by lia. apply IH.
  - apply N.div_lt; lia.
  - simpl. intros [E|H]; [exact (pretty_N_char_noslash _ E)|exact (Hs H)].
Qed.

Lemma pretty_N_noslash (n : N) : ~ In Path.slash (Str.chars (pretty n)).
Proof.
  unfold pretty, pretty_N. destruct (decide (n = 0%N)).
  - simpl. intros [E|[]]. discriminate E.
  - apply pretty_N_go_noslash. intros [].
Qed.

Lemma numbered_simple (p : string) (n : N) :
  simple (Path.basename_ext p (Path.extname p) +:+ "_" +:+ pretty n +:+ Path.extname p).
Proof.
  set (name := Path.basename_ext p (Path.extname p)). set (ext := Path.extname p).
  assert (Hin : In "_"%char (Str.chars (name +:+ "_" +:+ pretty n +:+ ext))).
  { rewrite chars_app. apply in_or_app. right. rewrite chars_app.
    apply in_or_app. left. left. reflexivity. }
  repeat split.
  - intros E. rewrite E in Hin. destruct Hin.
  - intros E. rewrite E in Hin. destruct Hin as [H|[]]. discriminate H.
  - intros E. rewrite E in Hin. destruct Hin as [H|[H|[]]]; discriminate H.
  - rewrite !chars_app. intros H.
    apply in_app_or in H as [H|H]; [exact (basename_ext_noslash _ _ H)|].
    apply in_app_or in H as [H|H]; [destruct H as [E|[]]; discriminate E|].
    apply in_app_or in H as [H|H]; [exact (pretty_N_noslash _ H)|].
    exact (extname_noslash _ H).
Qed.

Lemma candidate_eq (destFolder p : string) (n : N) :
  candidate destFolder (Path.basename_ext p (Path.extname p)) (Path.extname p) n
  = joinPrefix destFolder +:+ Path.basename_ext p (Path.extname p)
      +:+ "_" +:+ pretty n +:+ Path.extname p.
Proof. unfold candidate. apply join_simple, numbered_simple. Qed.

Lemma candidate_inj (destFolder p : string) (n m : N) :
  candidate destFolder (Path.basename_ext p (Path.extname p)) (Path.extname p) n
  = candidate destFolder (Path.basename_ext p (Path.extname p)) (Path.extname p) m ->
  n = m.
Proof.
  rewrite !candidate_eq. intros H.
  apply String.app_inj, String.app_inj, String.app_inj in H.
  apply append_inv_tail in H. apply pretty_N_inj in H. exact H.
Qed.

Lemma existsSync_entries (f : FS) (p : string) :
  Fs.existsSync f p = true <-> p ∈ entries f.
Proof.
  unfold Fs.existsSync, entries. rewrite bool_decide_eq_true, elem_of_union, elem_of_dom.
  reflexivity.
Qed.

Lemma entries_size (f : FS) : (size (entries f) <= size (files f) + size (dirs f))%nat.
Proof.
  unfold entries. rewrite size_union_alt, size_dom.
  assert (Hsz : (size (dirs f ∖ dom (files f)) <= size (dirs f))%nat); [|lia].
  apply subseteq_size, subseteq_difference_l. reflexivity.
Qed.

(** If the candidates 1 to [m] all exist, the file system has at least
    [m] entries. *)
Lemma candidates_bounded (f : FS) (destFolder p : string) (m : nat) :
  (forall j : N, (1 <= j <= N.of_nat m)%N ->
     Fs.existsSync f
       (candidate destFolder (Path.basename_ext p (Path.extname p)) (Path.extname p) j)
     = true) ->
  (m <= size (entries f))%nat.
Proof.
  intros H.
  set (cand := fun i : nat =>
    candidate destFolder (Path.basename_ext p (Path.extname p)) (Path.extname p)
      (N.of_nat i)).
  set (l := cand <$> seq 1 m).
  assert (Hinj : Inj (=) (=) cand).
  { intros x y E. apply candidate_inj in E. lia. }
  assert (Hnd : NoDup l) by (apply (NoDup_fmap_2 _), NoDup_seq).
  assert (Hsub : (list_to_set l : gset string) ⊆ entries f).
  { intros x Hx. apply elem_of_list_to_set, list_elem_of_fmap in Hx as (i & -> & Hi).
    apply elem_of_seq in Hi. apply existsSync_entries, H. lia. }
  apply subseteq_size in Hsub. rewrite size_list_to_set in Hsub by exact Hnd.
  unfold l in Hsub. rewrite length_fmap, length_seq in Hsub. exact Hsub.
Qed.

(** The conflict loop ends within [fuel] passes when the passes made and
    the fuel left exceed the entries of the file system, and it returns the
    first candidate that does not exist. *)
Lemma freeName_spec (f : FS) (destFolder p : string) :
  let name := Path.basename_ext p (Path.extname p) in
  let ext := Path.extname p in
  forall (fuel : nat) (counter : N) (destination : string),
    (1 <= counter)%N ->
    (forall j : N, (1 <= j < counter - 1)%N ->
       Fs.existsSync f (candidate destFolder name ext j) = true) ->
    (counter = 1%N \/ destination = candidate destFolder name ext (counter - 1)) ->
    (size (entries f) + 2 <= N.to_nat counter + fuel)%nat ->
    exists r,
      freeName fuel f destFolder name ext destination counter = Some r /\
      Fs.existsSync f r = false /\
      (Fs.existsSync f destination = false -> r = destination) /\
      (Fs.existsSync f destination = true ->
         exists n, (counter <= n)%N /\ r = candidate destFolder name ext n /\
           forall j : N, (counter <= j < n)%N ->
             Fs.existsSync f (candidate destFolder name ext j) = true).
Proof.
  intros name ext fuel.
  induction fuel as [|fuel IH]; intros counter destination Hc Hprev Hdest Hfuel.
  - simpl. destruct (Fs.existsSync f destination) eqn:E.
    + exfalso. destruct Hdest as [-> | ->]; [simpl in Hfuel; lia|].
      assert (Hb : (N.to_nat (counter - 1) <= size (entries f))%nat).
      { apply (candidates_bounded f destFolder p). intros j Hj.
        destruct (N.eq_dec j (counter - 1)%N) as [->|Hne]; [exact E|].
        apply Hprev. lia. }
      lia.
    + exists destination. repeat split; auto. discriminate.
  - simpl. destruct (Fs.existsSync f destination) eqn:E.
    + destruct (IH (counter + 1)%N
                  (Path.join destFolder (name +:+ "_" +:+ pretty counter +:+ ext)))
        as (r & Hr & Hfree & Hnow & Hlater).
      * lia.
      * intros j Hj. destruct (N.eq_dec j (counter - 1)%N) as [->|Hne].
        -- destruct Hdest as [-> | ->]; [lia|exact E].
        -- apply Hprev. lia.
      * right. replace (counter + 1 - 1)%N with counter by lia. reflexivity.
      * lia.
      * exists r. split; [exact Hr|]. split; [exact Hfree|]. split; [discriminate|].
        intros _.
        destruct (Fs.existsSync f
                    (Path.join destFolder (name +:+ "_" +:+ pretty counter +:+ ext)))
          eqn:E'.
        -- destruct (Hlater eq_refl) as (n & Hn & -> & Hall).
           exists n. split; [lia|]. split; [reflexivity|].
           intros j Hj. destruct (N.eq_dec j counter) as [->|Hne]; [exact E'|].
           apply Hall. lia.
        -- exists counter. split; [lia|]. split; [apply Hnow; reflexivity|].
           intros j Hj. lia.
    + exists destination. repeat split; auto. discriminate.
Qed.

Lemma ensureFolder_files (f f1 : FS) (d : string) :
  ensureFolder f d = Ok f1 -> files f1 = files f.
Proof.
  unfold ensureFolder, Fs.mkdirSync. destruct (Fs.existsSync f d); [intros [= <-]; reflexivity|].
  destruct (decide (d = "")); [discriminate|].
  destruct (existsb _ _); [discriminate|]. destruct (bool_decide _); [discriminate|]. intros [= <-]. reflexivity.
Qed.

Lemma ensureFolder_dirs (f f1 : FS) (d : string) :
  ensureFolder f d = Ok f1 -> dirs f ⊆ dirs f1.
Proof.
  unfold ensureFolder, Fs.mkdirSync. destruct (Fs.existsSync f d); [intros [= <-]; reflexivity|].
  destruct (decide (d = "")); [discriminate|].
  destruct (existsb _ _); [discriminate|]. destruct (bool_decide _); [discriminate|]. intros [= <-]. simpl. apply union_subseteq_l.
Qed.

Lemma ensureFolder_run {A} (f1 : FS) (d : string) (w : World) (k : Eff A) :
  ensureFolder (fs w) d = Ok f1 ->
  (let* present := existsSync d in
   do (if present : bool then ret tt else mkdirSync d) then k) w
  = k (set_fs f1 w).
Proof.
  unfold ensureFolder. cbv [bind existsSync gets mkdirSync fs_update ret].
  destruct (Fs.existsSync (fs w) d).
  - intros [= <-]. destruct w; reflexivity.
  - intros ->. reflexivity.
Qed.

Lemma not_exists_free (f : FS) (p : string) :
  Fs.existsSync f p = false -> files f !! p = None /\ p ∉ dirs f.
Proof.
  unfold Fs.existsSync. intros H. apply bool_decide_eq_false in H. split.
  - destruct (files f !! p) eqn:E; [exfalso; apply H; left; eauto|reflexivity].
  - intros Hd. apply H. right. exact Hd.
Qed.

(** The ancestors of a path are those of the path of any file beside it. *)
Lemma ancestors_from_app (l1 l2 : list ascii) : forall pre,
  ~ In Path.slash l2 -> Fs.ancestors_from pre (l1 ++ l2) = Fs.ancestors_from pre l1.
Proof.
  induction l1 as [|c l1 IH]; intros pre H.
  - simpl. revert pre. induction l2 as [|c l2 IH2]; intros pre; [reflexivity|].
    simpl. destruct (Ascii.eqb_spec c Path.slash) as [->|_].
    + exfalso. apply H. left. reflexivity.
    + apply IH2. intros K. apply H. right. exact K.
  - simpl. rewrite (IH (c :: pre) H). reflexivity.
Qed.

Lemma parentCheck_sibling (f : FS) (p b b' : string) :
  simple b -> simple b' -> Fs.parentCheck f (p +:+ b) = Fs.parentCheck f (p +:+ b').
Proof.
  intros (Hb & _ & _ & Hs) (Hb' & _ & _ & Hs'). unfold Fs.parentCheck, Fs.ancestors.
  rewrite !chars_app, (ancestors_from_app _ _ [] Hs), (ancestors_from_app _ _ [] Hs').
  rewrite (decide_False (P := p +:+ b = "")), (decide_False (P := p +:+ b' = ""));
    [reflexivity| |].
  - intros E. apply (f_equal Str.chars) in E. rewrite chars_app in E.
    apply app_eq_nil in E as [_ E]. apply Hb'. apply chars_inj. exact E.
  - intros E. apply (f_equal Str.chars) in E. rewrite chars_app in E.
    apply app_eq_nil in E as [_ E]. apply Hb. apply chars_inj. exact E.
Qed.

(** How [moveNote] ends: the folder cannot be made, or a path at which
    nothing exists is found and the note is renamed to it, or cannot be. *)
Lemma moveNote_cases (cfg : Config) (sourcePath destinationFolder : string) (w : World) :
  match ensureFolder (fs w) (Path.join (workspacePath cfg) destinationFolder) with
  | Throw _ => moveNote cfg sourcePath destinationFolder w = (logged ErrMoving w, Ok None)
  | Ok f1 =>
      exists destination,
        freeName (enough f1) f1 (Path.join (workspacePath cfg) destinationFolder)
          (Path.basename_ext sourcePath (Path.extname sourcePath)) (Path.extname sourcePath)
          (Path.join (Path.join (workspacePath cfg) destinationFolder)
             (Path.basename sourcePath)) 1%N
        = Some destination /\
        Fs.existsSync f1 destination = false /\
        moveNote cfg sourcePath destinationFolder w
        = match Fs.renameSync f1 sourcePath destination with
          | Ok f2 => (set_fs f2 w, Ok (Some destination))
          | Throw _ => (logged ErrMoving (set_fs f1 w), Ok None)
          end
  end.
Proof.
  destruct (ensureFolder (fs w) _) as [f1|e] eqn:Hens.
  - destruct (freeName_spec f1 (Path.join (workspacePath cfg) destinationFolder) sourcePath
                (enough f1) 1%N
                (Path.join (Path.join (workspacePath cfg) destinationFolder)
                   (Path.basename sourcePath)))
      as (r & Hr & Hfree & _ & _).
    { lia. } { intros j Hj. lia. } { left. reflexivity. }
    { unfold enough. pose proof (entries_size f1). lia. }
    exists r. split; [exact Hr|]. split; [exact Hfree|].
    unfold moveNote, catch.
    rewrite (ensureFolder_run f1 _ w _ Hens).
    cbv [bind gets]. change (fs (set_fs f1 w)) with f1. rewrite Hr.
    cbv [renameSync fs_update ret]. change (fs (set_fs f1 w)) with f1.
    destruct (Fs.renameSync f1 sourcePath r) as [f2|e]; [|reflexivity].
    destruct w; reflexivity.
  - unfold ensureFolder in Hens. unfold moveNote, catch.
    cbv [bind existsSync gets mkdirSync fs_update ret].
    destruct (Fs.existsSync (fs w) _); [discriminate Hens|].
    rewrite Hens. reflexivity.
Qed.

(** Renaming a regular file to a path at which nothing exists. *)
Lemma renameSync_file (f : FS) (src dst content : string) :
  files f !! src = Some content -> dst ∉ dirs f ->
  Fs.renameSync f src dst
  = match Fs.parentCheck f dst with
    | Ok _ => Ok (mkFS (<[dst := content]> (delete src (files f))) (dirs f))
    | Throw e => Throw e
    end.
Proof.
  intros Hs Hd. unfold Fs.renameSync. rewrite Hs, bool_decide_eq_false_2 by exact Hd.
  destruct (Fs.parentCheck f dst); reflexivity.
Qed.

(** [moveNote] of a regular file: what it leaves behind, however it ends. *)
Lemma moveNote_file (cfg : Config) (sourcePath destinationFolder content : string)
    (w w' : World) (r : Result (option string)) :
  files (fs w) !! sourcePath = Some content ->
  moveNote cfg sourcePath destinationFolder w = (w', r) ->
  exists f2,
    (w' = set_fs f2 w \/ w' = logged ErrMoving (set_fs f2 w)) /\
    dirs (fs w) ⊆ dirs f2 /\
    (forall q c, q <> sourcePath -> files (fs w) !! q = Some c -> files f2 !! q = Some c) /\
    (exists d, r = Ok d) /\
    (r = Ok None -> files f2 !! sourcePath = Some content).
Proof.
  intros Hsrc E.
  pose proof (moveNote_cases cfg sourcePath destinationFolder w) as C.
  destruct (ensureFolder (fs w) _) as [f1|e] eqn:Hens.
  - pose proof (ensureFolder_files _ _ _ Hens) as Hfiles.
    pose proof (ensureFolder_dirs _ _ _ Hens) as Hdirs.
    destruct C as (dest & _ & Hfree & C).
    destruct (not_exists_free f1 dest Hfree) as [Hnone Hndir].
    rewrite C, (renameSync_file f1 sourcePath dest content) in E;
      [|rewrite Hfiles; exact Hsrc|exact Hndir].
    destruct (Fs.parentCheck f1 dest); injection E as <- <-.
    + eexists. split; [left; reflexivity|]. simpl. split; [exact Hdirs|].
      split; [|split; [eexists; reflexivity|discriminate]].
      intros q c Hq Hc. destruct (decide (q = dest)) as [->|Hqd].
      * rewrite <- Hfiles in Hc. congruence.
      * rewrite lookup_insert_ne by congruence.
        rewrite lookup_delete_ne by congruence. rewrite Hfiles. exact Hc.
    + exists f1. split; [right; reflexivity|]. split; [exact Hdirs|]. rewrite Hfiles.
      split; [auto|]. split; [eexists; reflexivity|]. intros _. exact Hsrc.
  - rewrite C in E. injection E as <- <-. exists (fs w).
    split; [right; destruct w; reflexivity|]. split; [reflexivity|].
    split; [auto|]. split; [eexists; reflexivity|]. intros _. exact Hsrc.
Qed.

(** Where [moveNote] puts a regular file, when the destination folder is
    there as a directory or is made. *)
Lemma moveNote_destination :
  forall (cfg : Config) (sourcePath destinationFolder content : string)
          (w : World) (f1 : FS),
     let destFolder := Path.join (workspacePath cfg) destinationFolder in
     let name := Path.basename_ext sourcePath (Path.extname sourcePath) in
     let ext := Path.extname sourcePath in
     let plain := Path.join destFolder (Path.basename sourcePath) in
     files (fs w) !! sourcePath = Some content ->
     simple (Path.basename sourcePath) ->
     ensureFolder (fs w) destFolder = Ok f1 ->
     Fs.parentCheck f1 plain = Ok tt ->
     exists destination,
       moveNote cfg sourcePath destinationFolder w
       = (set_fs (mkFS (<[destination := content]> (delete sourcePath (files f1)))
                       (dirs f1)) w,
          Ok (Some destination)) /\
       Fs.existsSync f1 destination = false /\
       files (fs w) !! destination = None /\
       (forall q c, q <> sourcePath -> files (fs w) !! q = Some c ->
          <[destination := content]> (delete sourcePath (files f1)) !! q = Some c) /\
       (Fs.existsSync f1 plain = false -> destination = plain) /\
       (Fs.existsSync f1 plain = true ->
          exists n : N,
            (1 <= n)%N /\
            destination = candidate destFolder name ext n /\
            destination = joinPrefix destFolder +:+ name +:+ "_" +:+ pretty n +:+ ext /\
            name +:+ ext = Path.basename sourcePath /\
            forall j : N, (1 <= j < n)%N ->
              Fs.existsSync f1 (candidate destFolder name ext j) = true).
Proof.
  intros cfg sourcePath destinationFolder content w f1 destFolder name ext plain
    Hsrc Hsimple Hens Hparent.
  pose proof (ensureFolder_files _ _ _ Hens) as Hfiles.
  destruct (freeName_spec f1 destFolder sourcePath (enough f1) 1%N plain)
    as (r & Hr & Hfree & Hnow & Hlater).
  { lia. } { intros j Hj. lia. } { left. reflexivity. }
  { unfold enough. pose proof (entries_size f1). lia. }
  fold name ext in Hr, Hlater.
  destruct (not_exists_free f1 r Hfree) as [Hnone Hndir].
  assert (Hcheck : Fs.parentCheck f1 r = Ok tt).
  { destruct (Fs.existsSync f1 plain) eqn:Hex; [|rewrite (Hnow eq_refl); exact Hparent].
    destruct (Hlater eq_refl) as (n & _ & -> & _).
    unfold name, ext. rewrite candidate_eq. rewrite <- Hparent. unfold plain.
    rewrite (join_simple destFolder _ Hsimple).
    apply parentCheck_sibling; [apply numbered_simple|exact Hsimple]. }
  exists r. split; [|split; [exact Hfree|split; [rewrite <- Hfiles; exact Hnone|split; [|split]]]].
  + pose proof (moveNote_cases cfg sourcePath destinationFolder w) as C.
    fold destFolder in C. rewrite Hens in C. fold name ext plain in C.
    destruct C as (r' & Hr' & _ & C). rewrite Hr in Hr'. injection Hr' as <-.
    rewrite C, (renameSync_file f1 sourcePath r content), Hcheck; [reflexivity| |exact Hndir].
    rewrite Hfiles. exact Hsrc.
  + intros q c Hq Hc. destruct (decide (q = r)) as [->|Hqr].
    * rewrite <- Hfiles in Hc. congruence.
    * rewrite lookup_insert_ne by congruence.
      rewrite lookup_delete_ne by congruence. rewrite Hfiles. exact Hc.
  + exact Hnow.
  + intros Hex. destruct (Hlater Hex) as (n & Hn & -> & Hall).
    exists n. split; [exact Hn|]. split; [reflexivity|].
    split; [unfold name, ext; rewrite candidate_eq; reflexivity|].
    split; [apply stem_ext|exact Hall].
Qed.

(** When what stands before the last slash of the destination is not a
    directory, the rename fails and nothing is moved. *)
Lemma moveNote_blocked :
  forall (cfg : Config) (sourcePath destinationFolder content : string)
          (w : World) (f1 : FS) (e : string),
     let destFolder := Path.join (workspacePath cfg) destinationFolder in
     let plain := Path.join destFolder (Path.basename sourcePath) in
     files (fs w) !! sourcePath = Some content ->
     simple (Path.basename sourcePath) ->
     ensureFolder (fs w) destFolder = Ok f1 ->
     Fs.parentCheck f1 plain = Throw e ->
     moveNote cfg sourcePath destinationFolder w
     = (logged ErrMoving (set_fs f1 w), Ok None).
Proof.
  intros cfg sourcePath destinationFolder content w f1 e destFolder plain
    Hsrc Hsimple Hens Hparent.
  pose proof (ensureFolder_files _ _ _ Hens) as Hfiles.
  destruct (freeName_spec f1 destFolder sourcePath (enough f1) 1%N plain)
    as (r & Hr & Hfree & Hnow & Hlater).
  { lia. } { intros j Hj. lia. } { left. reflexivity. }
  { unfold enough. pose proof (entries_size f1). lia. }
  destruct (not_exists_free f1 r Hfree) as [Hnone Hndir].
  assert (Hcheck : Fs.parentCheck f1 r = Throw e).
  { destruct (Fs.existsSync f1 plain) eqn:Hex; [|rewrite (Hnow eq_refl); exact Hparent].
    destruct (Hlater eq_refl) as (n & _ & -> & _).
    rewrite candidate_eq. rewrite <- Hparent. unfold plain.
    rewrite (join_simple destFolder _ Hsimple).
    apply parentCheck_sibling; [apply numbered_simple|exact Hsimple]. }
  pose proof (moveNote_cases cfg sourcePath destinationFolder w) as C.
  fold destFolder in C. rewrite Hens in C. fold plain in C.
  destruct C as (r' & Hr' & _ & C). rewrite Hr in Hr'. injection Hr' as <-.
  rewrite C, (renameSync_file f1 sourcePath r content), Hcheck; [reflexivity| |exact Hndir].
  rewrite Hfiles. exact Hsrc.
Qed.

(** C6: [moveNote] of a regular file, when the destination folder exists
    or can be made and is a directory, moves it to a path at which nothing
    existed, so no file is overwritten and every other file is kept. When
    nothing exists at the folder joined with the file name, that is the
    destination. When something does, the destination is the folder joined
    with the stem of the name, an underscore, the first integer from 1 on
    for which that path does not exist, and the extension; all the smaller
    integers were tried and exist. However [moveNote] of a regular file
    ends, it does not throw and every other file keeps its text; when it
    returns no destination the note is where it was. That is how it ends
    when the folder cannot be made, and when what is at the path of the
    folder is not a directory: the failure is written and no file is
    moved. Moving two notes named note.md into one folder, one after the
    other, yields note.md and note_1.md. *)
Theorem moveNote_numbering :
  (forall (cfg : Config) (sourcePath destinationFolder content : string)
          (w : World) (f1 : FS),
     let destFolder := Path.join (workspacePath cfg) destinationFolder in
     let name := Path.basename_ext sourcePath (Path.extname sourcePath) in
     let ext := Path.extname sourcePath in
     let plain := Path.join destFolder (Path.basename sourcePath) in
     files (fs w) !! sourcePath = Some content ->
     simple (Path.basename sourcePath) ->
     ensureFolder (fs w) destFolder = Ok f1 ->
     Fs.parentCheck f1 plain = Ok tt ->
     exists destination,
       moveNote cfg sourcePath destinationFolder w
       = (set_fs (mkFS (<[destination := content]> (delete sourcePath (files f1)))
                       (dirs f1)) w,
          Ok (Some destination)) /\
       Fs.existsSync f1 destination = false /\
       files (fs w) !! destination = None /\
       (forall q c, q <> sourcePath -> files (fs w) !! q = Some c ->
          <[destination := content]> (delete sourcePath (files f1)) !! q = Some c) /\
       (Fs.existsSync f1 plain = false -> destination = plain) /\
       (Fs.existsSync f1 plain = true ->
          exists n : N,
            (1 <= n)%N /\
            destination = candidate destFolder name ext n /\
            destination = joinPrefix destFolder +:+ name +:+ "_" +:+ pretty n +:+ ext /\
            name +:+ ext = Path.basename sourcePath /\
            forall j : N, (1 <= j < n)%N ->
              Fs.existsSync f1 (candidate destFolder name ext j) = true)) /\
  (forall (cfg : Config) (sourcePath destinationFolder content : string)
          (w w' : World) (r : Result (option string)),
     files (fs w) !! sourcePath = Some content ->
     moveNote cfg sourcePath destinationFolder w = (w', r) ->
     (exists d, r = Ok d) /\
     (forall q c, q <> sourcePath -> files (fs w) !! q = Some c ->
        files (fs w') !! q = Some c) /\
     (r = Ok None -> files (fs w') !! sourcePath = Some content)) /\
  (forall (cfg : Config) (sourcePath destinationFolder content : string) (w : World),
     let destFolder := Path.join (workspacePath cfg) destinationFolder in
     let plain := Path.join destFolder (Path.basename sourcePath) in
     files (fs w) !! sourcePath = Some content ->
     simple (Path.basename sourcePath) ->
     (forall e, ensureFolder (fs w) destFolder = Throw e ->
        moveNote cfg sourcePath destinationFolder w = (logged ErrMoving w, Ok None)) /\
     (forall f1 e, ensureFolder (fs w) destFolder = Ok f1 ->
        Fs.parentCheck f1 plain = Throw e ->
        moveNote cfg sourcePath destinationFolder w
        = (logged ErrMoving (set_fs f1 w), Ok None))) /\
  (let first := moveNote cfg0 inbox_note "work" w0 in
   let second := moveNote cfg0 inbox_note "work" (arrive "Another note" (fst first)) in
   snd first = Ok (Some "/ws/work/note.md") /\
   snd second = Ok (Some "/ws/work/note_1.md") /\
   files (fs (fst second)) !! "/ws/work/note.md"
   = Some "Meeting notes about the project plan" /\
   files (fs (fst second)) !! "/ws/work/note_1.md" = Some "Another note").
Proof.
  split; [|split; [|split; [|repeat split; vm_compute; reflexivity]]].
  - exact moveNote_destination.
  - intros cfg sourcePath destinationFolder content w w' r Hsrc E.
    destruct (moveNote_file cfg sourcePath destinationFolder content w w' r Hsrc E)
      as (f2 & Hw & _ & Hkeep & Hok & Hstay).
    assert (Hfs : fs w' = f2) by (destruct Hw as [-> | ->]; reflexivity).
    rewrite Hfs. split; [exact Hok|]. split; [exact Hkeep|exact Hstay].
  - intros cfg sourcePath destinationFolder content w destFolder plain Hsrc Hsimple. split.
    + intros e Hens.
      pose proof (moveNote_cases cfg sourcePath destinationFolder w) as C.
      fold destFolder in C. rewrite Hens in C. exact C.
    + intros f1 e Hens Hparent.
      exact (moveNote_blocked cfg sourcePath destinationFolder content w f1 e
               Hsrc Hsimple Hens Hparent).
Qed.

(** The second of the two notes, and a note sent to a folder whose path
    is that of a regular file. *)
Lemma moveNote_numbering_witness :
  let w := arrive "Another note" (fst (moveNote cfg0 inbox_note "work" w0)) in
  (exists destination n,
     snd (moveNote cfg0 inbox_note "work" w) = Ok (Some destination) /\
     (1 <= n)%N /\
     destination = candidate "/ws/work" "note" ".md" n /\
     files (fs w) !! destination = None) /\
  snd (moveNote cfg0 inbox_note "work/note.md" w) = Ok None /\
  files (fs (fst (moveNote cfg0 inbox_note "work/note.md" w))) !! "/ws/work/note.md"
  = Some "Meeting notes about the project plan".
Proof.
  split; [|split].
  - destruct (proj1 moveNote_numbering cfg0 inbox_note "work" "Another note"
                (arrive "Another note" (fst (moveNote cfg0 inbox_note "work" w0)))
                (fs (arrive "Another note" (fst (moveNote cfg0 inbox_note "work" w0)))))
      as (destination & Hmove & _ & Hnew & _ & _ & Hconflict).
    + vm_compute. reflexivity.
    + vm_compute. repeat split; try discriminate. intuition discriminate.
    + vm_compute. reflexivity.
    + vm_compute. reflexivity.
    + destruct Hconflict as (n & Hn & Hd & _); [vm_compute; reflexivity|].
      exists destination, n. rewrite Hmove. repeat split; assumption.
  - rewrite (proj2 (proj1 (proj2 (proj2 moveNote_numbering)) cfg0 inbox_note "work/note.md"
                      "Another note"
                      (arrive "Another note" (fst (moveNote cfg0 inbox_note "work" w0)))
                      ltac:(vm_compute; reflexivity)
                      ltac:(vm_compute; repeat split; try discriminate; intuition discriminate))
               (fs (arrive "Another note" (fst (moveNote cfg0 inbox_note "work" w0))))
               "ENOTDIR" ltac:(vm_compute; reflexivity) ltac:(vm_compute; reflexivity)).
    reflexivity.
  - destruct (moveNote cfg0 inbox_note "work/note.md"
                (arrive "Another note" (fst (moveNote cfg0 inbox_note "work" w0))))
      as [w' r] eqn:E.
    destruct (proj1 (proj2 moveNote_numbering) cfg0 inbox_note "work/note.md"
                "Another note"
                (arrive "Another note" (fst (moveNote cfg0 inbox_note "work" w0)))
                w' r ltac:(vm_compute; reflexivity) E) as (_ & Hkeep & _).
    apply Hkeep; [discriminate|vm_compute; reflexivity].
Defined.

End MoveFacts.

(** * More on the vector index *)

Section CosineFacts.
Import VectorStore.

Lemma SFmul_comm (x y : spec_float) : SFmul prec emax x y = SFmul prec emax y x.
Proof.
  destruct x as [sx|sx| |sx mx ex], y as [sy|sy| |sy my ey]; simpl;
    try reflexivity; rewrite ?(xorb_comm sx sy); try reflexivity.
  rewrite (Pos.mul_comm mx my), (Z.add_comm ex ey). reflexivity.
Qed.

Lemma mul_comm (x y : float) : (x * y)%float = (y * x)%float.
Proof.
  apply FloatAxioms.Prim2SF_inj. rewrite !FloatAxioms.mul_spec. apply SFmul_comm.
Qed.

Lemma sums_swap (a b : list number) : forall d na nb,
  fold_left
    (fun '(dotProduct, normA, normB) '(x, y) =>
       ((dotProduct + x * y)%float, (normA + x * x)%float, (normB + y * y)%float))
    (combine b a) (d, nb, na)
  = let '(d', na', nb') :=
      fold_left
        (fun '(dotProduct, normA, normB) '(x, y) =>
           ((dotProduct + x * y)%float, (normA + x * x)%float, (normB + y * y)%float))
        (combine a b) (d, na, nb) in
    (d', nb', na').
Proof.
  revert b. induction a as [|x a IH]; intros [|y b] d na nb; simpl; try reflexivity.
  rewrite (mul_comm y x). apply IH.
Qed.

Lemma cosine_sym (a b : list number) : cosine a b = cosine b a.
Proof.
  unfold cosine, sums. rewrite (sums_swap a b).
  destruct (fold_left _ (combine a b) _) as [[d na] nb].
  rewrite (orb_comm (Num.eq (PrimFloat.sqrt nb) 0%float)).
  rewrite (mul_comm (PrimFloat.sqrt nb)). reflexivity.
Qed.

(** X1: the similarity does not depend on the order of its arguments, the
    error for vectors of different lengths included. *)
Theorem cosineSimilarity_symmetric (a b : list number) :
  cosineSimilarity a b = cosineSimilarity b a.
Proof.
  unfold cosineSimilarity. rewrite (Nat.eqb_sym (length b) (length a)).
  destruct (length a =? length b)%nat; simpl; [|reflexivity].
  f_equal. apply cosine_sym.
Qed.

Lemma eq_zero_cases (x : number) :
  Num.eq x 0%float = true -> x = 0%float \/ x = (-0)%float.
Proof.
  unfold Num.eq. rewrite FloatAxioms.eqb_spec. intros H.
  assert (exists s, Prim2SF x = S754_zero s) as [s Hs].
  { change (Prim2SF 0) with (S754_zero false) in H.
    destruct (Prim2SF x) as [s|s| |s m e];
      try discriminate H; try (destruct s; discriminate H).
    exists s. reflexivity. }
  destruct s; [right|left]; apply FloatAxioms.Prim2SF_inj; rewrite Hs; reflexivity.
Qed.

Lemma zero_square (x : number) :
  Num.eq x 0%float = true -> (0 + x * x)%float = 0%float.
Proof. intros H. destruct (eq_zero_cases x H) as [-> | ->]; reflexivity. Qed.

(** The sum of the squares of a vector of zeros stays zero. *)
Lemma sums_zero_l (a b : list number) :
  Forall (fun x => Num.eq x 0%float = true) a ->
  forall d nb, exists d' nb',
    fold_left
      (fun '(dotProduct, normA, normB) '(x, y) =>
         ((dotProduct + x * y)%float, (normA + x * x)%float, (normB + y * y)%float))
      (combine a b) (d, 0%float, nb) = (d', 0%float, nb').
Proof.
  intros H. revert b. induction H as [|x a Hx _ IH]; intros [|y b] d nb; simpl;
    try (eexists; eexists; reflexivity).
  rewrite (zero_square x Hx). apply IH.
Qed.

Lemma cosine_zero_l (a b : list number) :
  Forall (fun x => Num.eq x 0%float = true) a -> cosine a b = 0%float.
Proof.
  intros H. unfold cosine, sums.
  destruct (sums_zero_l a b H 0%float 0%float) as (d & nb & ->).
  reflexivity.
Qed.

(** X2: a vector whose components are all zero (or that has no component) has
    similarity 0 to every vector of its length: the code returns 0 instead
    of dividing by a zero norm. *)
Theorem cosineSimilarity_zero_vector (a b : list number) :
  length a = length b ->
  Forall (fun x => Num.eq x 0%float = true) a \/
  Forall (fun x => Num.eq x 0%float = true) b ->
  cosineSimilarity a b = Ok 0%float.
Proof.
  intros Hlen [H|H].
  - unfold cosineSimilarity. rewrite Hlen, Nat.eqb_refl. simpl.
    rewrite (cosine_zero_l a b H). reflexivity.
  - unfold cosineSimilarity. rewrite Hlen, Nat.eqb_refl. simpl.
    rewrite (cosine_sym a b), (cosine_zero_l b a H). reflexivity.
Qed.

End CosineFacts.

Lemma cosineSimilarity_zero_vector_witness :
  VectorStore.cosineSimilarity [0; -0]%float [3; 4]%float = Ok 0%float.
Proof.
  apply (cosineSimilarity_zero_vector [0; -0]%float [3; 4]%float).
  - reflexivity.
  - left. repeat constructor.
Defined.

Section IndexFacts.
Import VectorStore.

(** X3: [query] throws exactly when some entry of the index has another
    number of components than the query; an empty index never does. *)
Theorem query_throws_on_mismatch (rt : Runtime) (vs : list VectorEntry) (q : list number)
    (k : Z) :
  query rt vs q k = Throw "Vectors must have same length"
  <-> Exists (fun e => length (ve_embedding e) <> length q) vs.
Proof.
  split.
  - intros H.
    destruct (Forall_Exists_dec (fun e => length (ve_embedding e) = length q)
                (fun e => length (ve_embedding e) <> length q)
                (fun e => decide (length (ve_embedding e) = length q)) vs)
      as [F|E]; [|exact E].
    exfalso. rewrite (query_scored rt vs q k F) in H. discriminate H.
  - apply query_mismatch.
Qed.

Lemma add_elem (vs : list VectorEntry) (e v : VectorEntry) :
  In v (add vs e) <-> v = e \/ (In v vs /\ ve_id v <> ve_id e).
Proof.
  unfold add.
  rewrite <- !list_elem_of_In, elem_of_app, list_elem_of_filter, list_elem_of_singleton.
  tauto.
Qed.

Lemma filter_fresh (vs : list VectorEntry) (name : string) :
  ~ In name (map ve_id vs) -> filter (fun v => ve_id v <> name) vs = vs.
Proof.
  induction vs as [|v vs IH]; intros H; [reflexivity|].
  rewrite filter_cons. simpl in H.
  destruct (decide (ve_id v <> name)) as [_|E]; [|exfalso; apply H; left; tauto].
  rewrite IH; [reflexivity|]. intros K. apply H. right. exact K.
Qed.

Lemma filter_present (vs : list VectorEntry) (name : string) :
  NoDup (map ve_id vs) -> In name (map ve_id vs) ->
  S (length (filter (fun v => ve_id v <> name) vs)) = length vs.
Proof.
  induction vs as [|v vs IH]; intros N H; [destruct H|].
  rewrite filter_cons. simpl in N, H. apply NoDup_cons in N as [Nv N].
  destruct (decide (ve_id v <> name)) as [E|E].
  - simpl. f_equal. apply IH; [exact N|]. destruct H as [H|H]; [contradiction|exact H].
  - assert (ve_id v = name) as <- by (destruct (decide (ve_id v = name)); tauto).
    rewrite filter_fresh; [reflexivity|].
    intros K. apply Nv. apply list_elem_of_In. exact K.
Qed.

(** X4: [add] keeps the ids of the index distinct. What it holds afterwards
    is the new entry and the old entries of other ids; the size grows by
    one for a new id and stays for an id that was there. *)
Theorem add_keeps_ids_distinct (vs : list VectorEntry) (e : VectorEntry) :
  NoDup (map ve_id vs) ->
  NoDup (map ve_id (add vs e)) /\
  (forall v, In v (add vs e) <-> v = e \/ (In v vs /\ ve_id v <> ve_id e)) /\
  (~ In (ve_id e) (map ve_id vs) ->
     add vs e = vs ++ [e] /\ size (add vs e) = size vs + 1) /\
  (In (ve_id e) (map ve_id vs) -> size (add vs e) = size vs).
Proof.
  intros N. split; [|split; [|split]].
  - unfold add. rewrite map_app. simpl. apply NoDup_app. split; [|split].
    + induction vs as [|v vs IH]; [constructor|].
      rewrite filter_cons. simpl in N. apply NoDup_cons in N as [Nv N].
      destruct (decide (ve_id v <> ve_id e)); [|apply IH; exact N].
      simpl. apply NoDup_cons. split; [|apply IH; exact N].
      intros K. apply Nv. apply list_elem_of_In in K. apply in_map_iff in K as (x & Hx & K).
      apply list_elem_of_In in K. apply list_elem_of_filter in K as [_ K].
      apply list_elem_of_In. apply in_map_iff. exists x.
      split; [exact Hx|apply list_elem_of_In; exact K].
    + intros x Hx Hx'. apply list_elem_of_In in Hx. apply in_map_iff in Hx as (v & <- & K).
      apply list_elem_of_In in K. apply list_elem_of_filter in K as [K _].
      apply list_elem_of_In in Hx'. destruct Hx' as [Hx'|[]]. apply K. symmetry. exact Hx'.
    + apply NoDup_singleton.
  - intros v. apply add_elem.
  - intros H. unfold size, add. rewrite (filter_fresh vs (ve_id e) H).
    split; [reflexivity|]. rewrite length_app. simpl. lia.
  - intros H. unfold size, add. rewrite length_app. simpl.
    pose proof (filter_present vs (ve_id e) N H). lia.
Qed.

Lemma scores_inv (q : list number) (vs : list VectorEntry) : forall sims,
  rmapM (score q) vs = Ok sims -> sims = map (scoredBy q) vs.
Proof.
  induction vs as [|e vs IH]; intros sims H; simpl in H.
  - injection H as <-. reflexivity.
  - unfold score at 1, cosineSimilarity in H. destruct (negb _); [discriminate H|].
    simpl in H. destruct (rmapM (score q) vs) as [rest|err]; [|discriminate H].
    simpl in H. injection H as <-. simpl. f_equal. apply IH. reflexivity.
Qed.

(** X5: no id is returned twice. When the ids of the index are distinct,
    as [add] keeps them, the notes [query] returns have distinct ids, each
    the id of an entry of the index. *)
Theorem query_distinct_ids (rt : Runtime) (vs : list VectorEntry) (q : list number)
    (k : Z) (out : list SimilarNote) :
  NoDup (map ve_id vs) ->
  query rt vs q k = Ok out ->
  NoDup (map sn_id out) /\ forall r, In r out -> In (sn_id r) (map ve_id vs).
Proof.
  intros N H. unfold query in H. destruct (length vs =? 0)%nat.
  { injection H as <-. split; [constructor|intros r []]. }
  destruct (rmapM (score q) vs) as [sims|e] eqn:E; [|discriminate H].
  simpl in H. injection H as <-. apply scores_inv in E. subst sims.
  destruct (slice0_take k (sortBySimilarity rt (map (scoredBy q) vs))) as (n & ->).
  assert (P : Permutation
                (map sn_id (map toSimilarNote (sortBySimilarity rt (map (scoredBy q) vs))))
                (map ve_id vs)).
  { rewrite map_map. etransitivity; [apply Permutation_map, sortBySimilarity_perm|].
    rewrite map_map. reflexivity. }
  split.
  - rewrite <- !firstn_map.
    refine (sublist_NoDup _ _ _ (sublist_take _ n)).
    apply (NoDup_Permutation_proper _ _ P). exact N.
  - intros r Hr. apply (Permutation_in _ P). apply in_map.
    apply list_elem_of_In in Hr. apply list_elem_of_In.
    rewrite <- firstn_map in Hr. eapply subseteq_take. exact Hr.
Qed.

End IndexFacts.

Lemma add_keeps_ids_distinct_witness :
  let vs := [sample_entry "a" 1%float 0%float; sample_entry "b" 0%float 1%float] in
  let e := sample_entry "a" 0%float 1%float in
  NoDup (map ve_id (VectorStore.add vs e)) /\
  VectorStore.size (VectorStore.add vs e) = VectorStore.size vs.
Proof.
  pose proof (add_keeps_ids_distinct
                [sample_entry "a" 1%float 0%float; sample_entry "b" 0%float 1%float]
                (sample_entry "a" 0%float 1%float)) as H.
  destruct H as (N & _ & _ & S).
  - apply NoDup_cons. split; [|apply NoDup_singleton].
    intros K. apply list_elem_of_In in K. destruct K as [K|[]]. discriminate K.
  - split; [exact N|]. apply S. left. reflexivity.
Defined.

Lemma query_distinct_ids_witness :
  NoDup (map sn_id
           (match VectorStore.query (rt0 None Yes)
                    [sample_entry "a" 1%float 0%float; sample_entry "b" 0%float 1%float]
                    [1; 1]%float 5
            with Ok out => out | Throw _ => [] end)).
Proof.
  destruct (VectorStore.query _ _ _ _) as [out|e] eqn:E; [|constructor].
  apply (query_distinct_ids (rt0 None Yes)
           [sample_entry "a" 1%float 0%float; sample_entry "b" 0%float 1%float]
           [1; 1]%float 5 out); [|exact E].
  apply NoDup_cons. split; [|apply NoDup_singleton].
  intros K. apply list_elem_of_In in K. destruct K as [K|[]]. discriminate K.
Defined.

Section SnapshotFacts.
Import VectorStore.
Context (rt : Runtime) (cfg : Config).

Lemma save_run (w : World) :
  writable (fs w) (storePath cfg) ->
  save rt cfg w
  = (set_fs (mkFS (<[storePath cfg := json_stringify rt (vectors w)]> (files (fs w)))
                  (dirs (fs w))) w, Ok tt).
Proof.
  intros H. unfold save, catch, bind, gets, writeFile, Fs.writeFile.
  change (Fs.writeFile_ops (storePath cfg) (json_stringify rt (vectors w)))
    with (save_ops rt cfg (vectors w)).
  rewrite (run_save_ops rt cfg (fs w) (vectors w) H). reflexivity.
Qed.

Lemma save_fail (w : World) :
  ~ writable (fs w) (storePath cfg) -> save rt cfg w = (logged ErrSaveFailed w, Ok tt).
Proof.
  intros H. unfold save, catch, bind, gets, writeFile, Fs.writeFile.
  change (Fs.writeFile_ops (storePath cfg) (json_stringify rt (vectors w)))
    with (save_ops rt cfg (vectors w)).
  destruct (run_save_ops_fail rt cfg (fs w) (vectors w) H) as (e & ->).
  destruct w; reflexivity.
Qed.

(** X6: what [save] writes, [load] reads back. When the snapshot can be
    opened for writing (its path is not a directory and lies in a
    directory that exists, as the constructor of the memory sees to) and
    the codec parses what it prints for the index, a store that loads the
    snapshot after [save], whatever its index held, has the index that was
    saved. *)
Theorem save_then_load (w : World) (stale : list VectorEntry) :
  writable (fs w) (storePath cfg) ->
  json_parse rt (json_stringify rt (vectors w)) = Some (vectors w) ->
  exists w1,
    save rt cfg w = (w1, Ok tt) /\
    vectors w1 = vectors w /\
    files (fs w1) !! storePath cfg = Some (json_stringify rt (vectors w)) /\
    load rt cfg (set_vectors stale w1) = (w1, Ok tt).
Proof.
  intros Hd Hp. eexists. split; [apply (save_run w Hd)|]. split; [reflexivity|].
  split; [simpl; apply lookup_insert_eq|].
  rewrite (load_parsed rt cfg _ (json_stringify rt (vectors w)) (vectors w)).
  - reflexivity.
  - unfold Fs.existsSync. apply bool_decide_eq_true_2. left. simpl.
    rewrite lookup_insert_eq. eexists. reflexivity.
  - unfold Fs.readFileSync. simpl. rewrite lookup_insert_eq. reflexivity.
  - exact Hp.
Qed.

End SnapshotFacts.

(** An index of two notes, saved as JSON and loaded into an empty store. *)
Lemma save_then_load_witness :
  exists w1,
    VectorStore.save rt_json cfg0 w_indexed = (w1, Ok tt) /\
    files (fs w1) !! VectorStore.storePath cfg0 = Some (printIndex (vectors w_indexed)) /\
    VectorStore.load rt_json cfg0 (set_vectors [] w1) = (w1, Ok tt) /\
    map ve_id (vectors w1) = ["/ws/work/a.md"; "/ws/ideas/b.md"].
Proof.
  destruct (save_then_load rt_json cfg0 w_indexed []) as (w1 & E & Hv & Hf & L).
  - apply (bool_decide_unpack _). vm_compute. exact I.
  - vm_compute. reflexivity.
  - exists w1. split; [exact E|]. split; [exact Hf|]. split; [exact L|].
    rewrite Hv. reflexivity.
Defined.

Section HistoryFacts.
Import MemoryManager.

Lemma getLastSort_snoc (h : list SortRow) (r : SortRow) :
  getLastSort (h ++ [r])
  = match getLastSort h with
    | None => Some r
    | Some b => if id b <? id r then Some r else Some b
    end.
Proof. unfold getLastSort. rewrite fold_left_app. reflexivity. Qed.

Lemma getLastSort_in (h : list SortRow) (b : SortRow) :
  getLastSort h = Some b -> In b h.
Proof.
  induction h as [|r h IH] using rev_ind; [discriminate|].
  rewrite getLastSort_snoc, in_app_iff. simpl.
  destruct (getLastSort h) as [b0|].
  - destruct (id b0 <? id r); intros [= <-]; [right; left; reflexivity|left; apply IH; reflexivity].
  - intros [= <-]. right. left. reflexivity.
Qed.

Lemma getLastSort_none (h : list SortRow) : getLastSort h = None -> h = [].
Proof.
  destruct h as [|r h] using rev_ind; [reflexivity|].
  rewrite getLastSort_snoc. destruct (getLastSort h) as [b|]; [|discriminate].
  destruct (id b <? id r); discriminate.
Qed.

Lemma nextId_above (h : list SortRow) (r : SortRow) : In r h -> id r < nextId h.
Proof.
  unfold nextId. induction h as [|x h IH]; intros H; [destruct H|].
  simpl. destruct H as [-> | H]; [lia|]. specialize (IH H). lia.
Qed.

Lemma getLastSort_recorded (h : list SortRow) (r : SortRow) :
  id r = nextId h -> getLastSort (h ++ [r]) = Some r.
Proof.
  intros E. rewrite getLastSort_snoc.
  destruct (getLastSort h) as [b|] eqn:L; [|reflexivity].
  pose proof (nextId_above h b (getLastSort_in h b L)) as K.
  destruct (Z.ltb_spec (id b) (id r)); [reflexivity|lia].
Qed.

Lemma bound_nan (c : number) : Num.isNaN c = true -> MemoryManager.bound c = None.
Proof. intros H. unfold MemoryManager.bound. rewrite H. reflexivity. Qed.

Lemma bound_number (c : number) :
  Num.isNaN c = false ->
  exists x, MemoryManager.bound c = Some x /\ Num.eq x c = true.
Proof.
  intros H. unfold MemoryManager.bound. rewrite H.
  destruct (Num.eq c 0%float) eqn:Hz.
  - exists 0%float. split; [reflexivity|].
    apply (eq_key 0%float c eq_refl H). symmetry.
    apply (eq_key c 0%float H eq_refl). exact Hz.
  - exists c. split; [reflexivity|]. apply (eq_key c c H H). reflexivity.
Qed.

(** X7: what [recordSort] records is what [getLastSort] returns next: the
    new row goes to the end of the history with an id above all the ids
    in it, and it holds the note id and the paths that were given. Its
    confidence is the number that was given (up to the sign of a zero), and
    NULL when that was NaN. Nothing but the history changes. *)
Theorem recordSort_is_last (rt : Runtime) (noteId fromPath toPath : string)
    (c : number) (w : World) :
  exists r w',
    recordSort rt noteId fromPath toPath c w = (w', Ok tt) /\
    sort_history w' = sort_history w ++ [r] /\
    getLastSort (sort_history w') = Some r /\
    note_id r = noteId /\ from_path r = fromPath /\ to_path r = toPath /\
    (Num.isNaN c = true -> row_confidence r = None) /\
    (Num.isNaN c = false ->
       exists x, row_confidence r = Some x /\ Num.eq x c = true) /\
    timestamp r = now rt /\
    (forall r0, In r0 (sort_history w) -> id r0 < id r) /\
    fs w' = fs w /\ vectors w' = vectors w /\ notes w' = notes w /\
    console w' = console w.
Proof.
  eexists. eexists. split; [reflexivity|]. split; [reflexivity|].
  split; [apply getLastSort_recorded; reflexivity|].
  do 3 (split; [reflexivity|]). simpl.
  split; [apply bound_nan|]. split; [apply bound_number|].
  split; [reflexivity|]. split; [intros r0 H; apply nextId_above; exact H|].
  repeat split.
Qed.

End HistoryFacts.
(** * More on the sorter *)

Section Judgements.
Context {R : World -> World -> Prop} `{!PreOrder R}.

Lemma keeps_ret {A} (a : A) : keeps R (ret a).
Proof. intros w w' r [= <- _]. reflexivity. Qed.

Lemma keeps_throw {A} (e : string) : keeps R (@throw A e).
Proof. intros w w' r [= <- _]. reflexivity. Qed.

Lemma keeps_gets {A} (f : World -> A) : keeps R (gets f).
Proof. intros w w' r [= <- _]. reflexivity. Qed.

Lemma keeps_lift {A} (x : Result A) : keeps R (lift x).
Proof. intros w w' r [= <- _]. reflexivity. Qed.

Lemma keeps_existsSync (p : string) : keeps R (existsSync p).
Proof. apply keeps_gets. Qed.

Lemma keeps_readFileSync (p : string) : keeps R (readFileSync p).
Proof. intros w w' r [= <- _]. reflexivity. Qed.

Lemma keeps_bind {A B} (c : Eff A) (k : A -> Eff B) :
  keeps R c -> (forall a, keeps R (k a)) -> keeps R (bind c k).
Proof.
  intros Hc Hk w w' r. unfold bind. destruct (c w) as [w1 [a|e]] eqn:E.
  - intros H. transitivity w1; [eapply Hc; exact E|eapply Hk; exact H].
  - intros [= <- _]. eapply Hc. exact E.
Qed.

Lemma keeps_catch {A} (c : Eff A) (h : string -> Eff A) :
  keeps R c -> (forall e, keeps R (h e)) -> keeps R (catch c h).
Proof.
  intros Hc Hh w w' r. unfold catch. destruct (c w) as [w1 [a|e]] eqn:E.
  - intros [= <- _]. eapply Hc. exact E.
  - intros H. transitivity w1; [eapply Hc; exact E|eapply Hh; exact H].
Qed.





Lemma keeps_await_embed (embed : nat -> string -> Result (list number)) (content : string) :
  (forall w, R w (called w)) -> keeps R (MemoryManager.await_embed embed content).
Proof. intros H w w' r [= <- _]. apply H. Qed.

Lemma keeps_findSimilarNotes (rt : Runtime) (content : string) (topK : Z) :
  (forall w, R w (called w)) -> keeps R (MemoryManager.findSimilarNotes rt content topK).
Proof.
  intros H. unfold MemoryManager.findSimilarNotes. destruct (embedFn rt); [|apply keeps_throw].
  apply keeps_bind; [apply keeps_await_embed; exact H|intros embedding].
  apply keeps_bind; [apply keeps_gets|intros vs].
  apply keeps_bind; [apply keeps_lift|intros results].
  apply keeps_bind; [apply keeps_gets|intros db]. apply keeps_ret.
Qed.

End Judgements.

Lemma returns_ret {A} (a : A) : returns (ret a).
Proof. intros w. eexists. eexists. reflexivity. Qed.

Lemma returns_gets {A} (f : World -> A) : returns (gets f).
Proof. intros w. eexists. eexists. reflexivity. Qed.

Lemma returns_modify (f : World -> World) : returns (modify f).
Proof. intros w. eexists. eexists. reflexivity. Qed.

Lemma returns_log (e : Event) : returns (log e).
Proof. apply returns_modify. Qed.

Lemma returns_bind {A B} (c : Eff A) (k : A -> Eff B) :
  returns c -> (forall a, returns (k a)) -> returns (bind c k).
Proof.
  intros Hc Hk w. unfold bind. destruct (Hc w) as (w1 & a & ->). apply Hk.
Qed.

Lemma returns_catch {A} (c : Eff A) (h : string -> Eff A) :
  (forall e, returns (h e)) -> returns (catch c h).
Proof.
  intros Hh w. unfold catch. destruct (c w) as [w1 [a|e]].
  - eexists. eexists. reflexivity.
  - apply Hh.
Qed.

Instance same_state_preorder : PreOrder same_state.
Proof.
  split.
  - intros w. repeat split.
  - intros a b c (H1 & H2 & H3 & H4 & H5) (K1 & K2 & K3 & K4 & K5).
    repeat split; congruence.
Qed.

Lemma same_state_log (e : Event) : keeps same_state (log e).
Proof. intros w w' r [= <- _]. repeat split. Qed.

Lemma same_state_called (w : World) : same_state w (called w).
Proof. repeat split. Qed.


Section DryRun.
Import NoteSorter.
Context (rt : Runtime) (cfg : Config).

Lemma same_state_declined (message : string) : keeps same_state (declined rt message).
Proof.
  unfold declined. apply keeps_bind; [apply same_state_log|intros _; apply keeps_ret].
Qed.

Lemma same_state_getSuggestion (content : string) (similarNotes : list SimilarNote)
    (folderStructure filename : string) :
  keeps same_state (getSuggestion rt content similarNotes folderStructure filename).
Proof.
  unfold getSuggestion. destruct (chat rt _); [apply keeps_ret|].
  apply keeps_bind; [apply same_state_log|intros _; apply keeps_ret].
Qed.

Lemma same_state_proceed_dry (notePath : string) (auto : bool) (s : SortSuggestion) :
  keeps same_state (proceed rt cfg notePath auto true s).
Proof.
  unfold proceed.
  apply keeps_bind; [apply same_state_log|intros _].
  apply keeps_bind; [apply same_state_log|intros _]. apply keeps_ret.
Qed.

Lemma same_state_applySuggestion_dry (notePath : string) (auto : bool) (s : SortSuggestion) :
  keeps same_state (applySuggestion rt cfg notePath auto true s).
Proof.
  unfold applySuggestion. destruct (decide (folder s = "")).
  - apply keeps_bind; [apply same_state_log|intros _; apply keeps_ret].
  - apply keeps_bind.
    + destruct (Num.lt _ _); [|apply keeps_ret].
      apply keeps_bind; [apply same_state_log|intros _].
      destruct (negb auto); [apply same_state_declined|apply keeps_ret].
    + intros [|]; [apply keeps_ret|apply same_state_proceed_dry].
Qed.

Lemma same_state_sortNote_dry (notePath : string) (auto : bool) :
  keeps same_state (sortNote rt cfg notePath auto true).
Proof.
  unfold sortNote. apply keeps_bind.
  - apply keeps_catch.
    + apply keeps_bind; [apply keeps_readFileSync|intros content; apply keeps_ret].
    + intros _. apply keeps_bind; [apply same_state_log|intros _; apply keeps_ret].
  - intros [content|]; [|apply keeps_ret].
    destruct (_ <? _)%nat.
    + apply keeps_bind; [apply same_state_log|intros _; apply keeps_ret].
    + apply keeps_bind; [apply keeps_findSimilarNotes, same_state_called|intros similarNotes].
      apply keeps_bind; [apply keeps_gets|intros folderStructure].
      apply keeps_bind; [apply same_state_getSuggestion|intros suggestion].
      apply same_state_applySuggestion_dry.
Qed.

(** X8: a dry run changes nothing but the console, however it ends: the
    file system, the index, the tables and the history are as they were,
    whether [sortNote] reports a destination, the user cancels, the note
    cannot be sorted or the call throws. *)
Theorem sortNote_dry_run (notePath : string) (auto : bool) (w : World) :
  same_state w (fst (sortNote rt cfg notePath auto true w)).
Proof.
  destruct (sortNote rt cfg notePath auto true w) as [w' r] eqn:E.
  exact (same_state_sortNote_dry notePath auto w w' r E).
Qed.

End DryRun.

(** ** What [sortNote] does not undo *)

Section Lasting.
Import NoteSorter.
Context (rt : Runtime) (cfg : Config) (touched : list string).

#[global] Instance lasting_preorder : PreOrder (lasting rt touched).
Proof.
  split.
  - intros w. unfold lasting. repeat split; auto.
  - intros a b c (H1 & H2 & H3 & H4 & H5 & H6 & H7) (K1 & K2 & K3 & K4 & K5 & K6 & K7).
    unfold lasting. repeat split.
    + etransitivity; eassumption.
    + intros q x Hq Hx. eapply K2; [exact Hq|]. eapply H2; eassumption.
    + etransitivity; eassumption.
    + etransitivity; eassumption.
    + intros i Hi. apply K5, H5, Hi.
    + etransitivity; eassumption.
    + intros d He Hd. apply (K7 d He), (H7 d He), Hd.
Qed.








Lemma add_dimensioned (d : nat) (vs : list VectorEntry) (e : VectorEntry) :
  Forall (fun v => length (ve_embedding v) = d) vs ->
  length (ve_embedding e) = d ->
  Forall (fun v => length (ve_embedding v) = d) (VectorStore.add vs e).
Proof.
  intros H He. apply List.Forall_forall. intros v Hv.
  apply add_elem in Hv as [->|[Hv _]]; [exact He|].
  rewrite List.Forall_forall in H. apply H, Hv.
Qed.








Lemma readFileSync_file (f : FS) (p content : string) :
  Fs.readFileSync f p = Ok content -> files f !! p = Some content.
Proof.
  unfold Fs.readFileSync. destruct (files f !! p); [intros [= ->]; reflexivity|].
  destruct (bool_decide _); discriminate.
Qed.


End Lasting.

(** ** How [sortNote] ends *)

Section SortNoteFacts.
Import NoteSorter.
Context (rt : Runtime) (cfg : Config).

(** The ways the search for similar notes ends. *)
Lemma findSimilarNotes_run (content : string) (topK : Z) (w : World) :
  MemoryManager.findSimilarNotes rt content topK w
  = match embedFn rt with
    | None => (w, Throw "Embedding function not initialized")
    | Some embed =>
        (called w,
         match embed (embedCalls w) content with
         | Throw e => Throw e
         | Ok embedding =>
             match VectorStore.query rt (vectors w) embedding topK with
             | Ok results =>
                 Ok (map (fun result =>
                              mkSimilarNote (sn_id result) (sn_filePath result)
                                (sn_folderPath result) (sn_similarity result)
                                (match notes w !! sn_id result with
                                 | Some note => content_preview note
                                 | None => ""
                                 end))
                           results)
             | Throw e => Throw e
             end
         end)
    end.
Proof.
  unfold MemoryManager.findSimilarNotes. destruct (embedFn rt) as [embed|]; [|reflexivity].
  cbv [bind MemoryManager.await_embed gets lift ret].
  destruct (embed (embedCalls w) content) as [v|e]; [|reflexivity].
  change (vectors (called w)) with (vectors w).
  destruct (VectorStore.query rt (vectors w) v topK); reflexivity.
Qed.

Lemma findSimilarNotes_ok (content : string) (topK : Z) (w : World)
    (similarNotes : list SimilarNote) :
  snd (MemoryManager.findSimilarNotes rt content topK w) = Ok similarNotes ->
  MemoryManager.findSimilarNotes rt content topK w = (called w, Ok similarNotes)
  /\ exists embed, embedFn rt = Some embed.
Proof.
  rewrite findSimilarNotes_run. destruct (embedFn rt) as [embed|]; [|discriminate].
  simpl. intros ->. split; [reflexivity|]. exists embed. reflexivity.
Qed.

Lemma long_enough (content : string) :
  (10 <= String.length (Str.trim content))%nat ->
  (String.length (Str.trim content) <? 10)%nat = false.
Proof. intros H. apply Nat.ltb_ge. exact H. Qed.

(** [sortNote] on a readable note that is long enough, up to the call of
    [getSuggestion]. *)
Lemma sortNote_read (notePath content : string) (auto dryRun : bool) (w : World) :
  Fs.readFileSync (fs w) notePath = Ok content ->
  (10 <= String.length (Str.trim content))%nat ->
  sortNote rt cfg notePath auto dryRun w
  = match MemoryManager.findSimilarNotes rt content (topKSimilar cfg) w with
    | (w1, Ok similarNotes) =>
        (let* suggestion :=
           getSuggestion rt content similarNotes (folderSummary rt (notes w1))
             (Path.basename notePath) in
         applySuggestion rt cfg notePath auto dryRun suggestion) w1
    | (w1, Throw e) => (w1, Throw e)
    end.
Proof.
  intros Hread Hlen. unfold sortNote.
  unfold bind at 1. unfold catch, bind at 1, readFileSync. rewrite Hread. cbv [ret].
  rewrite (long_enough content Hlen).
  unfold bind at 1.
  destruct (MemoryManager.findSimilarNotes rt content (topKSimilar cfg) w) as [w1 [sims|e]];
    reflexivity.
Qed.

Lemma sortNote_answered (notePath content response : string)
    (similarNotes : list SimilarNote) (auto dryRun : bool) (w : World) :
  answered rt cfg notePath w content similarNotes response ->
  sortNote rt cfg notePath auto dryRun w
  = applySuggestion rt cfg notePath auto dryRun (parseLLMResponse response) (called w).
Proof.
  intros (Hread & Hlen & Hsim & Hchat).
  rewrite (sortNote_read notePath content auto dryRun w Hread Hlen).
  rewrite (proj1 (findSimilarNotes_ok _ _ _ _ Hsim)).
  unfold bind, getSuggestion. unfold fallbackRequest in Hchat.
  change (notes (called w)) with (notes w). rewrite Hchat. reflexivity.
Qed.

Lemma sortNote_read_short (notePath : string) (auto dryRun : bool) (w : World) :
  (forall e, Fs.readFileSync (fs w) notePath = Throw e ->
     sortNote rt cfg notePath auto dryRun w
     = (logged (ErrReading (Path.basename notePath)) w, Ok (failed "Failed to read file"))) /\
  (forall content, Fs.readFileSync (fs w) notePath = Ok content ->
     (String.length (Str.trim content) < 10)%nat ->
     sortNote rt cfg notePath auto dryRun w
     = (logged (WarnTooShort (Path.basename notePath)) w, Ok (failed "Content too short"))).
Proof.
  split.
  - intros e H. unfold sortNote.
    unfold bind at 1. unfold catch, bind at 1, readFileSync. rewrite H. reflexivity.
  - intros content H Hlen. unfold sortNote.
    unfold bind at 1. unfold catch, bind at 1, readFileSync. rewrite H. cbv [ret].
    apply Nat.ltb_lt in Hlen. rewrite Hlen. reflexivity.
Qed.

(** X9: what [sortNote] does with a note before any model is asked. A
    note that cannot be read, or whose text without the white space around
    it has fewer than 10 characters, is turned down: [sortNote] returns the
    failure "Failed to read file" or "Content too short" and writes one
    line to the console, whatever the memory and the chat model are. For
    a note that passes, an exception of the memory is not caught: when the
    memory was not initialized, [sortNote] throws "Embedding function not
    initialized", with nothing written or changed. *)
Theorem sortNote_turns_down (notePath : string) (auto dryRun : bool) (w : World) :
  (forall e, Fs.readFileSync (fs w) notePath = Throw e ->
     sortNote rt cfg notePath auto dryRun w
     = (logged (ErrReading (Path.basename notePath)) w, Ok (failed "Failed to read file"))) /\
  (forall content, Fs.readFileSync (fs w) notePath = Ok content ->
     (String.length (Str.trim content) < 10)%nat ->
     sortNote rt cfg notePath auto dryRun w
     = (logged (WarnTooShort (Path.basename notePath)) w, Ok (failed "Content too short"))) /\
  (forall content, Fs.readFileSync (fs w) notePath = Ok content ->
     (10 <= String.length (Str.trim content))%nat ->
     embedFn rt = None ->
     sortNote rt cfg notePath auto dryRun w
     = (w, Throw "Embedding function not initialized")).
Proof.
  split; [|split].
  - intros e H. unfold sortNote.
    unfold bind at 1. unfold catch, bind at 1, readFileSync. rewrite H. reflexivity.
  - intros content H Hlen. unfold sortNote.
    unfold bind at 1. unfold catch, bind at 1, readFileSync. rewrite H. cbv [ret].
    apply Nat.ltb_lt in Hlen. rewrite Hlen. reflexivity.
  - intros content Hread Hlen He.
    rewrite (sortNote_read notePath content auto dryRun w Hread Hlen).
    rewrite findSimilarNotes_run, He. reflexivity.
Qed.

End SortNoteFacts.

Lemma sortNote_turns_down_witness :
  NoteSorter.sortNote rt_cold cfg0 "/ws/inbox/gone.md" true false w0
  = (logged (ErrReading "gone.md") w0, Ok (failed "Failed to read file")) /\
  NoteSorter.sortNote rt_cold cfg0 inbox_note true false (arrive "  todo  " w0)
  = (logged (WarnTooShort "note.md") (arrive "  todo  " w0), Ok (failed "Content too short")) /\
  NoteSorter.sortNote rt_cold cfg0 inbox_note true false w0
  = (w0, Throw "Embedding function not initialized").
Proof.
  split; [|split].
  - apply (proj1 (sortNote_turns_down rt_cold cfg0 "/ws/inbox/gone.md" true false w0)
             "ENOENT").
    reflexivity.
  - apply (proj1 (proj2 (sortNote_turns_down rt_cold cfg0 inbox_note true false
                           (arrive "  todo  " w0))) "  todo  ").
    + reflexivity.
    + vm_compute. lia.
  - apply (proj2 (proj2 (sortNote_turns_down rt_cold cfg0 inbox_note true false w0))
             "Meeting notes about the project plan").
    + reflexivity.
    + vm_compute. lia.
    + reflexivity.
Defined.

Section SortNoteTotal.
Import NoteSorter.
Context (rt : Runtime) (cfg : Config).

Lemma returns_save : returns (VectorStore.save rt cfg).
Proof. unfold VectorStore.save. apply returns_catch. intros _. apply returns_log. Qed.

Lemma returns_moveNote (sourcePath destinationFolder : string) :
  returns (moveNote cfg sourcePath destinationFolder).
Proof.
  unfold moveNote. apply returns_catch. intros _.
  apply returns_bind; [apply returns_log|intros _; apply returns_ret].
Qed.

Lemma returns_declined (message : string) : returns (declined rt message).
Proof.
  unfold declined. apply returns_bind; [apply returns_log|intros _; apply returns_ret].
Qed.

Lemma returns_getSuggestion (content : string) (similarNotes : list SimilarNote)
    (folderStructure filename : string) :
  returns (getSuggestion rt content similarNotes folderStructure filename).
Proof.
  unfold getSuggestion. destruct (chat rt _); [apply returns_ret|].
  apply returns_bind; [apply returns_log|intros _; apply returns_ret].
Qed.

Lemma returns_proceed (notePath : string) (auto dryRun : bool) (s : SortSuggestion) :
  returns (proceed rt cfg notePath auto dryRun s).
Proof.
  unfold proceed. apply returns_bind; [apply returns_log|intros _]. destruct dryRun.
  - apply returns_bind; [apply returns_log|intros _; apply returns_ret].
  - apply returns_bind.
    + destruct (negb auto); [apply returns_declined|apply returns_ret].
    + intros [|]; [apply returns_ret|].
      apply returns_bind; [apply returns_moveNote|intros [destination|]];
        [|apply returns_ret].
      apply returns_bind; [apply returns_modify|intros _].
      apply returns_bind; [apply returns_catch; intros _; apply returns_log|intros _].
      apply returns_bind; [apply returns_log|intros _; apply returns_ret].
Qed.

Lemma returns_applySuggestion (notePath : string) (auto dryRun : bool)
    (s : SortSuggestion) :
  returns (applySuggestion rt cfg notePath auto dryRun s).
Proof.
  unfold applySuggestion. destruct (decide (folder s = "")).
  - apply returns_bind; [apply returns_log|intros _; apply returns_ret].
  - apply returns_bind.
    + destruct (Num.lt _ _); [|apply returns_ret].
      apply returns_bind; [apply returns_log|intros _].
      destruct (negb auto); [apply returns_declined|apply returns_ret].
    + intros [|]; [apply returns_ret|apply returns_proceed].
Qed.

Lemma query_throw_inv (vs : list VectorEntry) (q : list number) (k : Z) (e : string) :
  VectorStore.query rt vs q k = Throw e ->
  e = "Vectors must have same length" /\
  Exists (fun x => length (ve_embedding x) <> length q) vs.
Proof.
  intros H.
  destruct (Forall_Exists_dec (fun e => length (ve_embedding e) = length q)
              (fun e => length (ve_embedding e) <> length q)
              (fun e => decide (length (ve_embedding e) = length q)) vs)
    as [F|E].
  - rewrite (query_scored rt vs q k F) in H. discriminate H.
  - rewrite (query_mismatch rt vs q k E) in H. injection H as <-. split; [reflexivity|exact E].
Qed.



(** X10: [sortNote] throws in the search for similar notes and nowhere
    else. It throws exactly when the note can be read and is long enough
    and then the memory was not initialized, or the embedding provider
    fails on the text of the note (its exception is thrown on), or an
    entry of the index has another number of components than the vector of
    the note. The files, the index and the tables are then as they were.
    In every other case it returns a result. *)
Theorem sortNote_throws_in_search (notePath : string) (auto dryRun : bool)
    (w w' : World) (e : string) :
  sortNote rt cfg notePath auto dryRun w = (w', Throw e) <->
  exists content,
    Fs.readFileSync (fs w) notePath = Ok content /\
    (10 <= String.length (Str.trim content))%nat /\
    match embedFn rt with
    | None => w' = w /\ e = "Embedding function not initialized"
    | Some embed =>
        w' = called w /\
        match embed (embedCalls w) content with
        | Throw e' => e = e'
        | Ok v =>
            e = "Vectors must have same length" /\
            Exists (fun x => length (ve_embedding x) <> length v) (vectors w)
        end
    end.
Proof.
  split.
  - intros H. destruct (Fs.readFileSync (fs w) notePath) as [content|e0] eqn:Hread.
    2:{ rewrite (proj1 (sortNote_read_short rt cfg notePath auto dryRun w) e0 Hread) in H.
        discriminate H. }
    destruct (Nat.lt_ge_cases (String.length (Str.trim content)) 10) as [Hlen|Hlen].
    { rewrite (proj2 (sortNote_read_short rt cfg notePath auto dryRun w) content Hread Hlen)
        in H. discriminate H. }
    exists content. split; [reflexivity|]. split; [exact Hlen|].
    rewrite (sortNote_read rt cfg notePath content auto dryRun w Hread Hlen) in H.
    rewrite findSimilarNotes_run in H.
    destruct (embedFn rt) as [embed|]; [|injection H as <- <-; split; reflexivity].
    destruct (embed (embedCalls w) content) as [v|e1].
    + destruct (VectorStore.query rt (vectors w) v (topKSimilar cfg)) as [out|e2] eqn:Q.
      * exfalso.
        match type of H with
        | bind ?c ?k ?w0 = _ =>
            destruct (returns_bind c k (returns_getSuggestion _ _ _ _)
                        (fun s => returns_applySuggestion notePath auto dryRun s) w0)
              as (w2 & a & K)
        end.
        rewrite K in H. discriminate H.
      * injection H as <- <-. split; [reflexivity|]. apply (query_throw_inv _ _ _ _ Q).
    + injection H as <- <-. split; reflexivity.
  - intros (content & Hread & Hlen & H).
    rewrite (sortNote_read rt cfg notePath content auto dryRun w Hread Hlen).
    rewrite findSimilarNotes_run.
    destruct (embedFn rt) as [embed|]; [|destruct H as [-> ->]; reflexivity].
    destruct H as [-> H].
    destruct (embed (embedCalls w) content) as [v|e1]; [|subst e; reflexivity].
    destruct H as [-> H]. rewrite (query_mismatch rt _ _ _ H). reflexivity.
Qed.


End SortNoteTotal.

(** The provider is down: the exception comes out of [sortNote]. An index
    that holds an entry of three components, with a model of two: the
    query throws. *)
Lemma sortNote_throws_in_search_witness :
  NoteSorter.sortNote (with_embed provider_down (rt0 (Some reply_work) Yes)) cfg0 inbox_note
    true false w0
  = (called w0, Throw "fetch failed") /\
  NoteSorter.sortNote (rt0 (Some reply_work) Yes) cfg0 inbox_note true false
    (set_vectors [mkVectorEntry "/ws/old.md" [1; 0; 0]%float
                    (mkMetadata "/ws/old.md" "" "2023-01-01T00:00:00.000Z")] w0)
  = (called (set_vectors [mkVectorEntry "/ws/old.md" [1; 0; 0]%float
                            (mkMetadata "/ws/old.md" "" "2023-01-01T00:00:00.000Z")] w0),
     Throw "Vectors must have same length").
Proof.
  split.
  - apply (proj2 (sortNote_throws_in_search
                    (with_embed provider_down (rt0 (Some reply_work) Yes)) cfg0 inbox_note
                    true false w0 (called w0) "fetch failed")).
    exists "Meeting notes about the project plan".
    split; [reflexivity|]. split; [vm_compute; lia|]. split; reflexivity.
  - apply (proj2 (sortNote_throws_in_search (rt0 (Some reply_work) Yes) cfg0 inbox_note
                    true false _ _ "Vectors must have same length")).
    exists "Meeting notes about the project plan".
    split; [reflexivity|]. split; [vm_compute; lia|]. split; [reflexivity|].
    split; [reflexivity|]. left. simpl. discriminate.
Defined.

(** ** A move and its records *)

Section MoveRecords.
Import NoteSorter.
Context (rt : Runtime) (cfg : Config).

Lemma save_cases (w : World) :
  exists w',
    VectorStore.save rt cfg w = (w', Ok tt) /\
    vectors w' = vectors w /\ notes w' = notes w /\
    folder_stats w' = folder_stats w /\ sort_history w' = sort_history w /\
    dirs (fs w') = dirs (fs w) /\
    (forall q, q <> VectorStore.storePath cfg -> files (fs w') !! q = files (fs w) !! q) /\
    console w `prefix_of` console w'.
Proof.
  destruct (decide (writable (fs w) (VectorStore.storePath cfg))) as [Hd|Hd].
  - eexists. split; [apply (save_run rt cfg w Hd)|]. simpl.
    do 5 (split; [reflexivity|]). split; [|reflexivity].
    intros q Hq. rewrite lookup_insert_ne by congruence. reflexivity.
  - exists (logged ErrSaveFailed w). split; [apply (save_fail rt cfg w Hd)|].
    do 5 (split; [reflexivity|]). split; [reflexivity|].
    apply prefix_app_r. reflexivity.
Qed.

(** [addNote] when the embedding model answers, and when it fails. *)
Lemma addNote_cases (embed : nat -> string -> Result (list number))
    (filePath content folderPath : string) (w : World) :
  embedFn rt = Some embed ->
  match embed (embedCalls w) content with
  | Ok v =>
      exists w',
        MemoryManager.addNote rt cfg filePath content folderPath w = (w', Ok tt) /\
        vectors w'
        = VectorStore.add (vectors w)
            (mkVectorEntry filePath v (mkMetadata filePath folderPath (nowISO rt))) /\
        notes w'
        = <[filePath := mkNoteRow filePath folderPath (Str.takeStr 200 content)
                          (now rt) (now rt) (Z.of_nat (String.length content))
                          (MemoryManager.wordCount content)]> (notes w) /\
        folder_stats w'
        = <[folderPath :=
              (Z.of_nat (size (filter (fun kv => folder_path (snd kv) = folderPath)
                                 (notes w'))),
               now rt)]> (folder_stats w) /\
        sort_history w' = sort_history w /\
        dirs (fs w') = dirs (fs w) /\
        (forall q, q <> VectorStore.storePath cfg ->
           files (fs w') !! q = files (fs w) !! q)
  | Throw e =>
      MemoryManager.addNote rt cfg filePath content folderPath w = (called w, Throw e)
  end.
Proof.
  intros He. unfold MemoryManager.addNote. rewrite He.
  destruct (embed (embedCalls w) content) as [v|e] eqn:Hv0.
  2:{ unfold bind at 1. unfold MemoryManager.await_embed at 1. rewrite Hv0. reflexivity. }
  unfold bind at 1. unfold MemoryManager.await_embed at 1. rewrite Hv0.
  unfold bind at 1. unfold modify at 1.
  unfold bind at 1.
  destruct (save_cases
              (set_vectors
                 (VectorStore.add (vectors (called w))
                    (mkVectorEntry filePath v
                       (mkMetadata filePath folderPath (nowISO rt)))) (called w)))
    as (w1 & -> & Hv & Hn & Hs & Hh & Hd & Hf & _).
  eexists. split; [reflexivity|]. simpl in *.
  rewrite Hv, Hn, Hs, Hh. repeat split; assumption.
Qed.

(** [proceed] in automatic mode, for a note that is a regular file and a
    destination folder that is there as a directory or can be made. *)
Lemma proceed_moves (notePath content : string) (s : SortSuggestion)
    (embed : nat -> string -> Result (list number)) (f1 : FS) (w : World) :
  files (fs w) !! notePath = Some content ->
  simple (Path.basename notePath) ->
  folderReady (fs w) (Path.join (workspacePath cfg) (folder s)) notePath f1 ->
  embedFn rt = Some embed ->
  exists destination w',
    proceed rt cfg notePath true false s w
    = (w', Ok (succeeded notePath destination (confidence s))) /\
    Fs.existsSync f1 destination = false /\
    (destination <> VectorStore.storePath cfg ->
       files (fs w') !! destination = Some content) /\
    (forall q, q <> VectorStore.storePath cfg -> q <> destination -> q <> notePath ->
       files (fs w') !! q = files (fs w) !! q) /\
    (notePath <> VectorStore.storePath cfg -> files (fs w') !! notePath = None) /\
    dirs (fs w') = dirs f1 /\
    sort_history w'
    = sort_history w ++
        [mkSortRow (MemoryManager.nextId (sort_history w)) notePath notePath destination
           (MemoryManager.bound (confidence s)) (now rt)] /\
    match embed (embedCalls w) content with
    | Ok v =>
        vectors w'
        = VectorStore.add (vectors w)
            (mkVectorEntry destination v
               (mkMetadata destination (folder s) (nowISO rt))) /\
        notes w'
        = <[destination := mkNoteRow destination (folder s) (Str.takeStr 200 content)
                             (now rt) (now rt) (Z.of_nat (String.length content))
                             (MemoryManager.wordCount content)]> (notes w)
    | Throw _ =>
        vectors w' = vectors w /\ notes w' = notes w /\
        console w'
        = console w ++ [ShowSuggestion (Path.basename notePath) s; WarnMemory; MovedOk]
    end.
Proof.
  intros Hsrc Hsimple [Hens Hparent] He.
  destruct (moveNote_destination cfg notePath (folder s) content
              (logged (ShowSuggestion (Path.basename notePath) s) w) f1 Hsrc Hsimple Hens
              Hparent)
    as (destination & C & Hfree & Hnone & _).
  change (fs (logged (ShowSuggestion (Path.basename notePath) s) w)) with (fs w) in Hnone.
  pose proof (ensureFolder_files _ _ _ Hens) as Hfiles.
  assert (Hne : destination <> notePath) by (intros ->; congruence).
  exists destination.
  unfold proceed. unfold bind at 1. unfold log at 1, modify at 1.
  change (mkWorld (fs w) (vectors w) (notes w) (folder_stats w) (sort_history w)
            (console w ++ [ShowSuggestion (Path.basename notePath) s]) (embedCalls w))
    with (logged (ShowSuggestion (Path.basename notePath) s) w).
  cbv [negb]. unfold bind at 1. unfold ret at 1. unfold bind at 1. rewrite C.
  unfold bind at 1. unfold MemoryManager.recordSort at 1, modify at 1.
  unfold bind at 1. unfold catch at 1. unfold bind at 1. unfold readFileSync at 1.
  unfold Fs.readFileSync. simpl files. rewrite lookup_insert_eq.
  match goal with
  | |- context [MemoryManager.addNote rt cfg destination content (folder s) ?w1] =>
      pose proof (addNote_cases embed destination content (folder s) w1 He) as A;
      change (embedCalls w1) with (embedCalls w) in A
  end.
  destruct (embed (embedCalls w) content) as [v|e].
  - destruct A as (w2 & -> & Hv & Hn & _ & Hh & Hd & Hf).
    simpl in Hv, Hn, Hh, Hd, Hf.
    eexists. split; [reflexivity|]. simpl.
    split; [exact Hfree|]. split; [|split; [|split; [|split; [|split; [|split]]]]].
    + intros Hds. rewrite (Hf destination Hds). apply lookup_insert_eq.
    + intros q Hq Hqd Hqn. rewrite (Hf q Hq).
      rewrite lookup_insert_ne by congruence. rewrite lookup_delete_ne by congruence.
      rewrite Hfiles. reflexivity.
    + intros Hns. rewrite (Hf notePath Hns).
      rewrite lookup_insert_ne by exact Hne. apply lookup_delete_eq.
    + exact Hd.
    + exact Hh.
    + exact Hv.
    + exact Hn.
  - rewrite A. eexists. split; [reflexivity|]. simpl.
    split; [exact Hfree|]. split; [|split; [|split; [|split; [|split; [|split; [|split]]]]]];
      try reflexivity.
    + intros _. apply lookup_insert_eq.
    + intros q _ Hqd Hqn.
      rewrite lookup_insert_ne by congruence. rewrite lookup_delete_ne by congruence.
      rewrite Hfiles. reflexivity.
    + intros _. rewrite lookup_insert_ne by exact Hne. apply lookup_delete_eq.
    + rewrite <- !app_assoc. reflexivity.
Qed.

End MoveRecords.

Section SortAndUndo.
Import NoteSorter.
Context (rt : Runtime) (cfg : Config).

Lemma applySuggestion_auto (notePath : string) (dryRun : bool) (s : SortSuggestion)
    (w : World) :
  folder s <> "" ->
  exists wa,
    applySuggestion rt cfg notePath true dryRun s w
    = proceed rt cfg notePath true dryRun s wa /\
    fs wa = fs w /\ vectors wa = vectors w /\ notes wa = notes w /\
    sort_history wa = sort_history w /\ folder_stats wa = folder_stats w /\
    embedCalls wa = embedCalls w /\ console w `prefix_of` console wa.
Proof.
  intros Hf. unfold applySuggestion. rewrite decide_False by exact Hf.
  destruct (Num.lt (confidence s) (confidenceThreshold cfg)).
  - exists (logged (WarnLowConfidence (Path.basename notePath) s) w).
    do 7 (split; [reflexivity|]). apply prefix_app_r. reflexivity.
  - exists w. do 7 (split; [reflexivity|]). reflexivity.
Qed.

Lemma sortNote_moves (notePath content response : string)
    (similarNotes : list SimilarNote) (f1 : FS) (w : World) :
  let s := parseLLMResponse response in
  answered rt cfg notePath w content similarNotes response ->
  folder s <> "" ->
  simple (Path.basename notePath) ->
  folderReady (fs w) (Path.join (workspacePath cfg) (folder s)) notePath f1 ->
  exists destination w' embed,
    sortNote rt cfg notePath true false w
    = (w', Ok (succeeded notePath destination (confidence s))) /\
    Fs.existsSync f1 destination = false /\
    (destination <> VectorStore.storePath cfg ->
       files (fs w') !! destination = Some content) /\
    (forall q, q <> VectorStore.storePath cfg -> q <> destination -> q <> notePath ->
       files (fs w') !! q = files (fs w) !! q) /\
    (notePath <> VectorStore.storePath cfg -> files (fs w') !! notePath = None) /\
    dirs (fs w') = dirs f1 /\
    sort_history w'
    = sort_history w ++
        [mkSortRow (MemoryManager.nextId (sort_history w)) notePath notePath destination
           (MemoryManager.bound (confidence s)) (now rt)] /\
    embedFn rt = Some embed /\
    match embed (S (embedCalls w)) content with
    | Ok v =>
        vectors w'
        = VectorStore.add (vectors w)
            (mkVectorEntry destination v
               (mkMetadata destination (folder s) (nowISO rt))) /\
        notes w'
        = <[destination := mkNoteRow destination (folder s) (Str.takeStr 200 content)
                             (now rt) (now rt) (Z.of_nat (String.length content))
                             (MemoryManager.wordCount content)]> (notes w)
    | Throw _ =>
        vectors w' = vectors w /\ notes w' = notes w /\ In WarnMemory (console w')
    end.
Proof.
  intros s Ha Hf Hsimple Hready.
  destruct (findSimilarNotes_ok rt _ _ _ _ (proj1 (proj2 (proj2 Ha)))) as (_ & embed & He).
  rewrite (sortNote_answered rt cfg notePath content response similarNotes true false w Ha).
  fold s. destruct (applySuggestion_auto notePath false s (called w) Hf)
    as (wa & -> & Hfs & Hv & Hn & Hh & _ & Hc & _).
  simpl in Hfs, Hv, Hn, Hh, Hc.
  destruct Ha as (Hread & _).
  destruct (proceed_moves rt cfg notePath content s embed f1 wa)
    as (destination & w' & -> & Hfree & Hdest & Hframe & Hsrc & Hdirs & Hhist & Hmem).
  { rewrite Hfs. apply readFileSync_file. exact Hread. }
  { exact Hsimple. }
  { rewrite Hfs. exact Hready. }
  { exact He. }
  exists destination, w', embed.
  rewrite Hfs in Hframe. rewrite Hh in Hhist. rewrite Hc in Hmem.
  split; [reflexivity|]. do 6 (split; [assumption|]). split; [exact He|].
  destruct (embed (S (embedCalls w)) content) as [v|e].
  - rewrite Hv, Hn in Hmem. exact Hmem.
  - destruct Hmem as (Hv' & Hn' & Hcon). rewrite Hv, Hn in *.
    split; [exact Hv'|]. split; [exact Hn'|].
    rewrite Hcon. apply in_or_app. right. right. left. reflexivity.
Qed.

(** X12: a successful automatic sort and its records. For a note with a
    file name that is read and answered with a folder that is there as a
    directory or can be made, [sortNote] in automatic mode returns success
    with a destination at which nothing existed. The text of the note is
    then at the destination and no longer at its old path (when these are
    not the path of the snapshot), and the latest entry of the history is
    this move, with the confidence of the suggestion as a number equal
    to it, or NULL for a NaN.
    When the embedding model answers the call made for the moved note, the
    index and the table of notes hold the note under its destination, with
    the folder as the chat model named it; when that call fails, they are
    as they were and a warning is written, and the result is a success all
    the same. *)
Theorem sortNote_records_move (notePath content response : string)
    (similarNotes : list SimilarNote) (f1 : FS) (w : World) :
  let s := parseLLMResponse response in
  answered rt cfg notePath w content similarNotes response ->
  folder s <> "" ->
  simple (Path.basename notePath) ->
  folderReady (fs w) (Path.join (workspacePath cfg) (folder s)) notePath f1 ->
  exists destination w' embed,
    sortNote rt cfg notePath true false w
    = (w', Ok (succeeded notePath destination (confidence s))) /\
    Fs.existsSync f1 destination = false /\
    (destination <> VectorStore.storePath cfg ->
       files (fs w') !! destination = Some content) /\
    (notePath <> VectorStore.storePath cfg -> files (fs w') !! notePath = None) /\
    (exists r,
       MemoryManager.getLastSort (sort_history w') = Some r /\
       note_id r = notePath /\ from_path r = notePath /\ to_path r = destination /\
       (Num.isNaN (confidence s) = true -> row_confidence r = None) /\
       (Num.isNaN (confidence s) = false ->
          exists x, row_confidence r = Some x /\ Num.eq x (confidence s) = true)) /\
    embedFn rt = Some embed /\
    match embed (S (embedCalls w)) content with
    | Ok v =>
        vectors w'
        = VectorStore.add (vectors w)
            (mkVectorEntry destination v
               (mkMetadata destination (folder s) (nowISO rt))) /\
        notes w' !! destination
        = Some (mkNoteRow destination (folder s) (Str.takeStr 200 content)
                  (now rt) (now rt) (Z.of_nat (String.length content))
                  (MemoryManager.wordCount content))
    | Throw _ =>
        vectors w' = vectors w /\ notes w' = notes w /\ In WarnMemory (console w')
    end.
Proof.
  intros s Ha Hf Hsimple Hready.
  destruct (sortNote_moves notePath content response similarNotes f1 w Ha Hf Hsimple Hready)
    as (destination & w' & embed & E & Hfree & Hdest & _ & Hsrc & _ & Hhist & He & Hmem).
  exists destination, w', embed.
  split; [exact E|]. split; [exact Hfree|]. split; [exact Hdest|].
  split; [exact Hsrc|]. split; [|split; [exact He|]].
  - eexists. split; [rewrite Hhist; apply getLastSort_recorded; reflexivity|].
    do 3 (split; [reflexivity|]).
    split; intros H; simpl; [apply bound_nan|apply bound_number]; exact H.
  - destruct (embed (S (embedCalls w)) content) as [v|e]; [|exact Hmem].
    destruct Hmem as [Hvec Hnotes]. split; [exact Hvec|].
    rewrite Hnotes. apply lookup_insert_eq.
Qed.

(** [undoLastSort] with the row objects of the program's own query. *)
Lemma undo_run (w : World) :
  columnRows rt ->
  undoLastSort rt w
  = match MemoryManager.getLastSort (sort_history w) with
    | None => (logged WarnNoSorts w, Ok false)
    | Some _ => (logged (ErrFileNotFound None) w, Ok false)
    end.
Proof.
  intros Hc. unfold undoLastSort. unfold bind at 1. unfold gets at 1.
  destruct (MemoryManager.getLastSort (sort_history w)) as [r|]; [|reflexivity].
  rewrite (Hc r "toPath"). reflexivity.
Qed.

(** X13: [undoLastSort] moves nothing back. The row that [getLastSort]
    returns has the columns of the table as its properties, [to_path] and
    [from_path], and no property [toPath]; so, whatever the history and
    the files are, no file is found at that path: [undoLastSort] returns
    [false], writes "No recent sorts to undo" for an empty history and
    "File not found" otherwise, and changes nothing else. *)
Theorem undo_moves_nothing (w : World) :
  columnRows rt ->
  exists w',
    undoLastSort rt w = (w', Ok false) /\
    same_state w w' /\
    (sort_history w = [] -> console w' = console w ++ [WarnNoSorts]) /\
    (sort_history w <> [] -> console w' = console w ++ [ErrFileNotFound None]).
Proof.
  intros Hc. rewrite (undo_run w Hc).
  destruct (MemoryManager.getLastSort (sort_history w)) as [r|] eqn:L.
  - eexists. split; [reflexivity|]. split; [repeat split|]. split; [|reflexivity].
    intros H. rewrite H in L. discriminate L.
  - eexists. split; [reflexivity|]. split; [repeat split|]. split; [reflexivity|].
    intros H. exfalso. apply H. apply getLastSort_none. exact L.
Qed.

Lemma mkdirSync_files (f f1 : FS) (p : string) :
  Fs.mkdirSync f p = Ok f1 -> files f1 = files f /\ dirs f ⊆ dirs f1.
Proof.
  unfold Fs.mkdirSync. destruct (decide (p = "")); [discriminate|].
  destruct (existsb _ _); [discriminate|]. destruct (bool_decide _); [discriminate|].
  intros [= <-]. split; [reflexivity|]. simpl. apply union_subseteq_l.
Qed.

(** X14: an undo is not recorded. Whatever the history, the files and
    the row objects of the driver are, [undoLastSort] does not throw, and
    it leaves the history, the index and the tables as they are: after
    it, the latest entry of the history is the same as before, and the
    index still lists a note that was moved back under the path it was
    sorted to. It returns [true] only when the latest entry gave it both paths
    and something was at the destination; when it returns [false] no file
    was moved, and no directory removed. *)
Theorem undo_not_recorded (w : World) :
  exists w' b,
    undoLastSort rt w = (w', Ok b) /\
    sort_history w' = sort_history w /\
    vectors w' = vectors w /\ notes w' = notes w /\ folder_stats w' = folder_stats w /\
    console w `prefix_of` console w' /\
    (b = false -> files (fs w') = files (fs w) /\ dirs (fs w) ⊆ dirs (fs w')) /\
    (b = true ->
       exists r fromPath toPath,
         MemoryManager.getLastSort (sort_history w) = Some r /\
         rowProperty rt r "fromPath" = Some fromPath /\
         rowProperty rt r "toPath" = Some toPath /\
         Fs.existsSync (fs w) toPath = true).
Proof.
  assert (P : forall (x : list Event) e, x `prefix_of` x ++ e).
  { intros x e. exists e. reflexivity. }
  unfold undoLastSort. unfold bind at 1. unfold gets at 1.
  destruct (MemoryManager.getLastSort (sort_history w)) as [r|] eqn:L.
  2:{ eexists. exists false. split; [reflexivity|]. simpl.
      do 4 (split; [reflexivity|]). split; [apply P|].
      split; [intros _; split; reflexivity|discriminate]. }
  destruct (rowProperty rt r "toPath") as [toPath|] eqn:Et.
  2:{ eexists. exists false. split; [reflexivity|]. simpl.
      do 4 (split; [reflexivity|]). split; [apply P|].
      split; [intros _; split; reflexivity|discriminate]. }
  unfold bind at 1. unfold existsSync at 1, gets at 1.
  destruct (Fs.existsSync (fs w) toPath) eqn:Ex; cbn [negb].
  2:{ eexists. exists false. split; [reflexivity|]. simpl.
      do 4 (split; [reflexivity|]). split; [apply P|].
      split; [intros _; split; reflexivity|discriminate]. }
  destruct (rowProperty rt r "fromPath") as [fromPath|] eqn:Ef.
  2:{ eexists. exists false. split; [reflexivity|]. simpl.
      do 4 (split; [reflexivity|]). split; [apply P|].
      split; [intros _; split; reflexivity|discriminate]. }
  cbv [catch bind existsSync gets ret mkdirSync renameSync fs_update log modify].
  set (sourceDir := Str.substring 0 (Str.lastIndexOf Path.slash fromPath) fromPath).
  destruct (Fs.existsSync (fs w) sourceDir).
  - destruct (Fs.renameSync (fs w) toPath fromPath) as [f2|e].
    + eexists. exists true. split; [reflexivity|]. simpl.
      do 4 (split; [reflexivity|]). split; [apply P|].
      split; [discriminate|]. intros _. exists r, fromPath, toPath. auto.
    + eexists. exists false. split; [reflexivity|]. simpl.
      do 4 (split; [reflexivity|]). split; [apply P|].
      split; [intros _; split; reflexivity|discriminate].
  - destruct (Fs.mkdirSync (fs w) sourceDir) as [f1|e] eqn:Em.
    + destruct (mkdirSync_files _ _ _ Em) as [Hfiles Hdirs]. cbn [fs set_fs].
      destruct (Fs.renameSync f1 toPath fromPath) as [f2|e].
      * eexists. exists true. split; [reflexivity|]. simpl.
        do 4 (split; [reflexivity|]). split; [apply P|].
        split; [discriminate|]. intros _. exists r, fromPath, toPath. auto.
      * eexists. exists false. split; [reflexivity|]. simpl.
        do 4 (split; [reflexivity|]). split; [apply P|].
        split; [intros _; split; assumption|discriminate].
    + eexists. exists false. split; [reflexivity|]. simpl.
      do 4 (split; [reflexivity|]). split; [apply P|].
      split; [intros _; split; reflexivity|discriminate].
Qed.

(** X15: sorting and then undoing leaves the note where it was sorted to.
    After a successful automatic sort of a note, [undoLastSort] finds the
    move in the history and returns [false]: the text of the note stays at
    the destination, nothing is at its old path, and the history still
    ends with the move. *)
Theorem sort_then_undo (notePath content response : string)
    (similarNotes : list SimilarNote) (f1 : FS) (w : World) :
  let s := parseLLMResponse response in
  answered rt cfg notePath w content similarNotes response ->
  folder s <> "" ->
  simple (Path.basename notePath) ->
  folderReady (fs w) (Path.join (workspacePath cfg) (folder s)) notePath f1 ->
  columnRows rt ->
  notePath <> VectorStore.storePath cfg ->
  exists destination w1 w2 r,
    sortNote rt cfg notePath true false w
    = (w1, Ok (succeeded notePath destination (confidence s))) /\
    undoLastSort rt w1 = (w2, Ok false) /\
    w2 = logged (ErrFileNotFound None) w1 /\
    (destination <> VectorStore.storePath cfg ->
       files (fs w2) !! destination = Some content) /\
    files (fs w2) !! notePath = None /\
    MemoryManager.getLastSort (sort_history w2) = Some r /\
    from_path r = notePath /\ to_path r = destination.
Proof.
  intros s Ha Hf Hsimple Hready Hc Hns. subst s.
  destruct (sortNote_moves notePath content response similarNotes f1 w Ha Hf Hsimple Hready)
    as (destination & w1 & embed & E & _ & Hdest & _ & Hsrc & _ & Hhist & _).
  pose proof (getLastSort_recorded (sort_history w)
                (mkSortRow (MemoryManager.nextId (sort_history w)) notePath notePath
                   destination
                   (MemoryManager.bound (confidence (parseLLMResponse response))) (now rt))
                eq_refl) as Hlast.
  rewrite <- Hhist in Hlast.
  exists destination, w1, (logged (ErrFileNotFound None) w1). eexists.
  split; [exact E|]. split; [rewrite (undo_run w1 Hc), Hlast; reflexivity|].
  split; [reflexivity|]. split; [exact Hdest|]. split; [apply Hsrc; exact Hns|].
  split; [exact Hlast|]. split; reflexivity.
Qed.

End SortAndUndo.

Lemma answered_sample (rt : Runtime) (w : World) (response : string) :
  (exists embed, embedFn rt = Some embed /\ embed (embedCalls w) = fun _ => Ok [1; 0]%float) ->
  chat rt = (fun _ => Some response) ->
  vectors w = [] ->
  files (fs w) !! inbox_note = Some "Meeting notes about the project plan" ->
  answered rt cfg0 inbox_note w "Meeting notes about the project plan" [] response.
Proof.
  intros (embed & He & Hv0) Hc Hv Hf. unfold answered. split; [|split; [|split]].
  - unfold Fs.readFileSync. rewrite Hf. reflexivity.
  - vm_compute. lia.
  - rewrite findSimilarNotes_run, He, Hv0, Hv. reflexivity.
  - rewrite Hc. reflexivity.
Qed.

Lemma columnRows_rt0 (reply : option string) (answer : Answer) :
  columnRows (rt0 reply answer).
Proof. intros r key. reflexivity. Qed.

(** The sample note is sorted into the folder work: with the sample
    model the memory holds it afterwards, and with a provider that goes
    down after its first answer the note is moved all the same and the
    memory is as it was. *)
Lemma sortNote_records_move_witness :
  (exists destination w',
     NoteSorter.sortNote (rt0 (Some reply_work) Yes) cfg0 inbox_note true false w0
     = (w', Ok (succeeded inbox_note destination 0.85%float)) /\
     files (fs w') !! inbox_note = None /\
     notes w' !! destination
     = Some (mkNoteRow destination "work" "Meeting notes about the project plan"
               1700000000000 1700000000000 36 6)) /\
  (exists destination w',
     NoteSorter.sortNote (with_embed provider_once (rt0 (Some reply_work) Yes)) cfg0
       inbox_note true false w0
     = (w', Ok (succeeded inbox_note destination 0.85%float)) /\
     files (fs w') !! inbox_note = None /\
     vectors w' = [] /\ In WarnMemory (console w')).
Proof.
  split.
  - destruct (sortNote_records_move (rt0 (Some reply_work) Yes) cfg0 inbox_note
                "Meeting notes about the project plan" reply_work []
                (mkFS (files (fs w0))
                   (dirs (fs w0) ∪ list_to_set (Fs.ancestors "/ws/work" ++ ["/ws/work"])))
                w0)
      as (destination & w' & embed & E & _ & _ & Hsrc & _ & He & Hmem).
    + apply answered_sample; try reflexivity. eexists. split; reflexivity.
    + vm_compute. discriminate.
    + vm_compute. repeat split; try discriminate. intuition discriminate.
    + split; reflexivity.
    + exists destination, w'. split; [exact E|]. split; [apply Hsrc; vm_compute; discriminate|].
      injection He as <-. apply (proj2 Hmem).
  - destruct (sortNote_records_move (with_embed provider_once (rt0 (Some reply_work) Yes))
                cfg0 inbox_note
                "Meeting notes about the project plan" reply_work []
                (mkFS (files (fs w0))
                   (dirs (fs w0) ∪ list_to_set (Fs.ancestors "/ws/work" ++ ["/ws/work"])))
                w0)
      as (destination & w' & embed & E & _ & _ & Hsrc & _ & He & Hmem).
    + apply answered_sample; try reflexivity. eexists. split; reflexivity.
    + vm_compute. discriminate.
    + vm_compute. repeat split; try discriminate. intuition discriminate.
    + split; reflexivity.
    + exists destination, w'. split; [exact E|]. split; [apply Hsrc; vm_compute; discriminate|].
      injection He as <-. destruct Hmem as (Hv & _ & Hw). split; [exact Hv|exact Hw].
Defined.

(** After the sample note was sorted, [undoLastSort] leaves it in the
    folder work. *)
Lemma undo_moves_nothing_witness :
  exists w',
    NoteSorter.undoLastSort (rt0 None Yes) w_sorted = (w', Ok false) /\
    files (fs w') !! "/ws/work/note.md" = Some "Meeting notes about the project plan" /\
    files (fs w') !! inbox_note = None /\
    console w' = console w_sorted ++ [ErrFileNotFound None].
Proof.
  destruct (undo_moves_nothing (rt0 None Yes) w_sorted (columnRows_rt0 None Yes))
    as (w' & E & (Hfs & _) & _ & Hcon).
  exists w'. split; [exact E|]. rewrite Hfs.
  split; [vm_compute; reflexivity|]. split; [vm_compute; reflexivity|].
  apply Hcon. vm_compute. discriminate.
Defined.

Lemma sort_then_undo_witness :
  exists destination w1 w2,
    NoteSorter.sortNote (rt0 (Some reply_work) Yes) cfg0 inbox_note true false w0
    = (w1, Ok (succeeded inbox_note destination 0.85%float)) /\
    NoteSorter.undoLastSort (rt0 (Some reply_work) Yes) w1 = (w2, Ok false) /\
    files (fs w2) !! destination = Some "Meeting notes about the project plan" /\
    files (fs w2) !! inbox_note = None.
Proof.
  destruct (sort_then_undo (rt0 (Some reply_work) Yes) cfg0 inbox_note
              "Meeting notes about the project plan" reply_work []
              (mkFS (files (fs w0))
                 (dirs (fs w0) ∪ list_to_set (Fs.ancestors "/ws/work" ++ ["/ws/work"])))
              w0)
    as (destination & w1 & w2 & r & E & U & _ & Hdest & Hsrc & _).
  - apply answered_sample; try reflexivity. eexists. split; reflexivity.
  - vm_compute. discriminate.
  - vm_compute. repeat split; try discriminate. intuition discriminate.
  - split; reflexivity.
  - apply columnRows_rt0.
  - vm_compute. discriminate.
  - exists destination, w1, w2. split; [exact E|]. split; [exact U|].
    split; [|exact Hsrc]. apply Hdest.
    intros ->. vm_compute in E. discriminate E.
Defined.

Section MoveFails.
Import NoteSorter.
Context (rt : Runtime) (cfg : Config).

(** X16: when the folder the model names cannot be made, because its path
    runs through a regular file, [sortNote] in automatic mode returns the
    failure "Failed to move file"; the note stays where it is, and nothing
    is added to the history, the index or the tables. *)
Theorem sortNote_folder_blocked (notePath content response e : string)
    (similarNotes : list SimilarNote) (w : World) :
  let s := parseLLMResponse response in
  answered rt cfg notePath w content similarNotes response ->
  folder s <> "" ->
  ensureFolder (fs w) (Path.join (workspacePath cfg) (folder s)) = Throw e ->
  exists w',
    sortNote rt cfg notePath true false w = (w', Ok (failed "Failed to move file")) /\
    same_state w w'.
Proof.
  intros s Ha Hf Hens.
  rewrite (sortNote_answered rt cfg notePath content response similarNotes true false w Ha).
  fold s. destruct (applySuggestion_auto rt cfg notePath false s (called w) Hf)
    as (wa & -> & Hfs & Hv & Hn & Hh & Hs & _).
  simpl in Hfs, Hv, Hn, Hh, Hs.
  pose proof (moveNote_cases cfg notePath (folder s)
                (logged (ShowSuggestion (Path.basename notePath) s) wa)) as C.
  change (fs (logged (ShowSuggestion (Path.basename notePath) s) wa)) with (fs wa) in C.
  rewrite Hfs, Hens in C.
  unfold proceed. unfold bind at 1. unfold log at 1, modify at 1.
  change (mkWorld (fs wa) (vectors wa) (notes wa) (folder_stats wa) (sort_history wa)
            (console wa ++ [ShowSuggestion (Path.basename notePath) s]) (embedCalls wa))
    with (logged (ShowSuggestion (Path.basename notePath) s) wa).
  cbv [negb]. unfold bind at 1. unfold ret at 1. unfold bind at 1. rewrite C.
  eexists. split; [reflexivity|]. simpl.
  repeat split; assumption.
Qed.

End MoveFails.

Lemma sortNote_folder_blocked_witness :
  exists w',
    NoteSorter.sortNote (rt0 (Some (reply "inbox/note.md/sub" "85" "It goes below itself")) Yes)
      cfg0 inbox_note true false w0
    = (w', Ok (failed "Failed to move file")) /\
    files (fs w') !! inbox_note = Some "Meeting notes about the project plan".
Proof.
  destruct (sortNote_folder_blocked
              (rt0 (Some (reply "inbox/note.md/sub" "85" "It goes below itself")) Yes)
              cfg0 inbox_note "Meeting notes about the project plan"
              (reply "inbox/note.md/sub" "85" "It goes below itself") "ENOTDIR" [] w0)
    as (w' & E & Hfs & _).
  - apply answered_sample; try reflexivity. eexists. split; reflexivity.
  - vm_compute. discriminate.
  - vm_compute. reflexivity.
  - exists w'. split; [exact E|]. rewrite Hfs. reflexivity.
Defined.
(** * The inbox and the analyzer *)

Section SessionJudgements.
Context {R : World -> World -> Prop} `{!PreOrder R}.







End SessionJudgements.

Section InboxFacts.
Import Inbox.
Context (rt : Runtime) (env : Env) (config : ConfigManager.Config)
        (readdirSync : FS -> string -> Result (list string)).





(** X18: when nothing exists at the path of the inbox, [sortInbox] makes
    the directory, also in a dry run, sorts nothing and returns three
    zeros; it throws when the directory cannot be made. *)
Theorem sortInbox_makes_inbox (auto dryRun : bool) (s : Session) :
  let inbox := ConfigManager.getInboxPath env config in
  Fs.existsSync (fs (world s)) inbox = false ->
  match Fs.mkdirSync (fs (world s)) inbox with
  | Ok f1 =>
      sortInbox rt env config readdirSync auto dryRun s
      = (mkSession (set_fs f1 (world s))
           (notices s ++ [InboxNotFound inbox; CreatingInbox]),
         Ok (mkTally 0 0 0))
      /\ inbox ∈ dirs f1 /\ files f1 = files (fs (world s))
  | Throw e =>
      sortInbox rt env config readdirSync auto dryRun s
      = (mkSession (world s) (notices s ++ [InboxNotFound inbox; CreatingInbox]), Throw e)
  end.
Proof.
  intros inbox Hex. destruct s as [w ns]. cbn [world notices] in *.
  assert (Hrun : sortInbox rt env config readdirSync auto dryRun (mkSession w ns)
                 = match Fs.mkdirSync (fs w) inbox with
                   | Ok f1 =>
                       (mkSession (set_fs f1 w)
                          (ns ++ [InboxNotFound inbox; CreatingInbox]),
                        Ok (mkTally 0 0 0))
                   | Throw e =>
                       (mkSession w (ns ++ [InboxNotFound inbox; CreatingInbox]), Throw e)
                   end).
  { unfold sortInbox. fold inbox.
    unfold cbind at 1. unfold call at 1, existsSync, gets. cbn [world notices].
    rewrite Hex. cbv [negb].
    unfold cbind, say, call, mkdirSync, fs_update, cret. cbn [world notices].
    destruct (Fs.mkdirSync (fs w) inbox); rewrite <- app_assoc; reflexivity. }
  rewrite Hrun. destruct (Fs.mkdirSync (fs w) inbox) as [f1|e] eqn:E; [|reflexivity].
  split; [reflexivity|].
  unfold Fs.mkdirSync in E. destruct (decide (inbox = "")); [discriminate|].
  destruct (existsb _ _); [discriminate|]. destruct (bool_decide _); [discriminate|].
  injection E as <-. simpl. split; [|reflexivity].
  apply elem_of_union_r. apply elem_of_list_to_set. apply elem_of_app. right.
  apply list_elem_of_singleton. reflexivity.
Qed.





End InboxFacts.



Lemma sortInbox_makes_inbox_witness :
  exists s',
    Inbox.sortInbox rt_cold env0 config0 readdir0 false true
      (mkSession (set_fs (mkFS ∅ {[ "/ws" ]}) w0) [])
    = (s', Ok (Inbox.mkTally 0 0 0)) /\
    "/ws/inbox" ∈ dirs (fs (world s')).
Proof.
  pose proof (sortInbox_makes_inbox rt_cold env0 config0 readdir0 false true
                (mkSession (set_fs (mkFS ∅ {[ "/ws" ]}) w0) [])) as H.
  cbv zeta in H. specialize (H ltac:(vm_compute; reflexivity)).
  destruct (Fs.mkdirSync _ _) as [f1|e] eqn:E in H.
  - destruct H as (H & Hin & _). eexists. split; [exact H|exact Hin].
  - vm_compute in E. discriminate E.
Defined.

Section AnalyzerFacts.
Import WorkspaceAnalyzer.
Context (rt : Runtime) (cfg : Config).








End AnalyzerFacts.
(** * The configuration *)

Section ConfigFacts.
Import ConfigManager.

Lemma split_app (a b : string) :
  Str.split Path.slash (a +:+ "/" +:+ b)
  = Str.split Path.slash a ++ Str.split Path.slash b.
Proof.
  unfold Str.split. rewrite !chars_app. change (Str.chars "/") with [Path.slash].
  simpl. apply split_chars_app.
Qed.

Lemma bool_decide_elem_app (x : string) (l1 l2 : list string) :
  bool_decide (x ∈ l1 ++ l2) = bool_decide (x ∈ l1) || bool_decide (x ∈ l2).
Proof.
  destruct (bool_decide (x ∈ l1)) eqn:E1; destruct (bool_decide (x ∈ l2)) eqn:E2; simpl.
  - apply bool_decide_eq_true_2, elem_of_app. left. apply bool_decide_eq_true in E1. exact E1.
  - apply bool_decide_eq_true_2, elem_of_app. left. apply bool_decide_eq_true in E1. exact E1.
  - apply bool_decide_eq_true_2, elem_of_app. right. apply bool_decide_eq_true in E2. exact E2.
  - apply bool_decide_eq_false_2. intros H. apply elem_of_app in H.
    apply bool_decide_eq_false in E1. apply bool_decide_eq_false in E2. tauto.
Qed.

(** X21: a path is excluded exactly when one of the parts it is joined
    from is: [isExcludedFolder] of [p/q] is that of [p] or that of [q]. So
    everything below an excluded folder is excluded, and so is every
    folder of a workspace whose own path has a segment with an excluded
    name. *)
Theorem isExcludedFolder_joined (config : Config) (p q : string) :
  isExcludedFolder config (p +:+ "/" +:+ q)
  = isExcludedFolder config p || isExcludedFolder config q.
Proof.
  unfold isExcludedFolder. rewrite split_app.
  induction (excludeFolders config) as [|x l IH]; [reflexivity|].
  simpl. rewrite IH, bool_decide_elem_app.
  destruct (bool_decide (x ∈ Str.split Path.slash p)),
           (bool_decide (x ∈ Str.split Path.slash q)),
           (existsb _ l), (existsb _ l); reflexivity.
Qed.

Lemma endsWith_list_spec (l suf : list ascii) :
  Str.endsWith_list l suf = true <-> exists pre, l = pre ++ suf.
Proof.
  induction l as [|c l IH]; simpl.
  - destruct (decide ([] = suf)) as [<-|Hne].
    + split; [exists []; reflexivity|reflexivity].
    + split; [discriminate|]. intros (pre & H). exfalso. apply Hne.
      symmetry in H. apply app_eq_nil in H as [_ H]. symmetry. exact H.
  - destruct (decide (c :: l = suf)) as [<-|Hne].
    + split; [exists []; reflexivity|reflexivity].
    + rewrite IH. split.
      * intros (pre & ->). exists (c :: pre). reflexivity.
      * intros ([|c' pre] & H); [exfalso; apply Hne; exact H|].
        injection H as _ H. exists pre. exact H.
Qed.

Lemma endsWith_spec (s suf : string) :
  Str.endsWith s suf = true <-> exists pre, s = pre +:+ suf.
Proof.
  unfold Str.endsWith. rewrite endsWith_list_spec. split.
  - intros (pre & H). exists (Str.unchars pre). apply chars_inj.
    rewrite chars_app, chars_unchars. exact H.
  - intros (pre & ->). exists (Str.chars pre). apply chars_app.
Qed.

(** X22: a file is valid exactly when its path ends with one of the
    configured extensions, compared letter by letter: the test looks at
    nothing but the end of the path. *)
Theorem isValidFile_suffix (config : Config) (filePath : string) :
  isValidFile config filePath = true
  <-> exists ext pre, In ext (fileExtensions config) /\ filePath = pre +:+ ext.
Proof.
  unfold isValidFile. rewrite existsb_exists. split.
  - intros (ext & Hin & H). apply endsWith_spec in H as (pre & H). exists ext, pre. tauto.
  - intros (ext & pre & Hin & H). exists ext. split; [exact Hin|].
    apply endsWith_spec. exists pre. exact H.
Qed.

Lemma split_chars_pieces (sep : ascii) (l : list ascii) : forall cur,
  ~ In sep cur ->
  Forall (fun piece => ~ In sep (Str.chars piece)) (Str.split_chars sep cur l).
Proof.
  induction l as [|c l IH]; intros cur Hcur; simpl.
  - constructor; [|constructor]. rewrite chars_unchars, <- in_rev. exact Hcur.
  - destruct (Ascii.eqb_spec c sep) as [->|Hne].
    + constructor; [rewrite chars_unchars, <- in_rev; exact Hcur|].
      apply IH. intros [].
    + apply IH. intros [H|H]; [apply Hne; exact H|apply Hcur; exact H].
Qed.

Lemma norm_step_rooted (acc : list string) (seg : string) :
  ~ In Path.slash (Str.chars seg) ->
  Forall simple acc -> Forall simple (Path.norm_step false acc seg).
Proof.
  intros Hseg Hacc. unfold Path.norm_step.
  destruct (decide (seg = "" \/ seg = ".")) as [_|H1]; [exact Hacc|].
  destruct (decide (seg = "..")) as [_|H2].
  - destruct acc as [|top rest]; [constructor|].
    destruct (decide (top = "..")); [exact Hacc|].
    inversion Hacc; assumption.
  - constructor; [|exact Hacc]. unfold simple. tauto.
Qed.

Lemma segments_rooted (p : string) : Forall simple (segments false p).
Proof.
  unfold segments. apply Forall_rev.
  assert (Hp : Forall (fun piece => ~ In Path.slash (Str.chars piece))
                 (Str.split Path.slash p)).
  { apply split_chars_pieces. intros []. }
  revert Hp. generalize (Str.split Path.slash p). intros l.
  assert (Hnil : Forall simple (@nil string)) by constructor.
  revert Hnil. generalize (@nil string). induction l as [|seg l IH]; intros acc Hacc Hl.
  - exact Hacc.
  - simpl. inversion Hl as [|? ? Hseg Hl']; subst.
    apply IH; [apply norm_step_rooted; assumption|exact Hl'].
Qed.

Lemma resolve_rooted (dir p : string) :
  Str.startsWith dir "/" = true ->
  exists segs, resolve dir p = "/" +:+ Str.join "/" segs /\ Forall simple segs.
Proof.
  intros Hdir. unfold resolve.
  destruct (Str.startsWith p "/") eqn:Hp.
  - eexists. split; [reflexivity|apply segments_rooted].
  - destruct (decide (dir = "")) as [->|Hne]; [discriminate Hdir|].
    rewrite Hdir. eexists. split; [reflexivity|apply segments_rooted].
Qed.

(** X23: the workspace path and the data path are resolved: when the
    process runs in an absolute working directory, [getWorkspacePath] and
    [getDataPath] return an absolute path made of a slash and of segments
    joined by slashes, none of them empty, [.] or [..], so with no slash
    at its end unless it is the root, whatever the configuration holds. *)
Theorem resolved_paths (env : Env) (config : Config) :
  Str.startsWith (cwd env) "/" = true ->
  (exists segs,
     getWorkspacePath env config = "/" +:+ Str.join "/" segs /\ Forall simple segs) /\
  (exists segs,
     getDataPath env config = "/" +:+ Str.join "/" segs /\ Forall simple segs).
Proof.
  intros H. split; apply resolve_rooted; exact H.
Qed.

End ConfigFacts.

Lemma resolved_paths_witness :
  exists segs,
    ConfigManager.getWorkspacePath (mkEnv "/home/me" "/srv/app")
      (ConfigManager.mkConfig "~/notes/../vault/./" "inbox" "llama3.2:3b" false 0.7%float
         [".md"] [] "Xenova/all-MiniLM-L6-v2" 5 "data/")
    = "/" +:+ Str.join "/" segs /\ Forall simple segs.
Proof.
  apply (proj1 (resolved_paths (mkEnv "/home/me" "/srv/app")
                  (ConfigManager.mkConfig "~/notes/../vault/./" "inbox" "llama3.2:3b" false
                     0.7%float [".md"] [] "Xenova/all-MiniLM-L6-v2" 5 "data/")
                  eq_refl)).
Defined.
(** * The memory *)

Section MemoryFacts.
Import MemoryManager.

Lemma countRuns_word (l : list ascii) (inRun : bool) :
  Forall (fun c => Str.is_space c = false) l -> countRuns inRun l = 0.
Proof.
  intros H. revert inRun. induction H as [|c l Hc _ IH]; intros inRun; simpl; [reflexivity|].
  rewrite Hc. apply IH.
Qed.

Lemma countRuns_word_app (l1 l2 : list ascii) (inRun : bool) :
  Forall (fun c => Str.is_space c = false) l1 -> l1 <> [] ->
  countRuns inRun (l1 ++ l2) = countRuns false l2.
Proof.
  intros H Hne. revert inRun. induction H as [|c l Hc Hl IH]; intros inRun; [contradiction|].
  simpl. rewrite Hc. destruct l as [|c' l']; [reflexivity|].
  apply IH. discriminate.
Qed.

Lemma chars_nonempty (s : string) : s <> "" -> Str.chars s <> [].
Proof. destruct s; [contradiction|discriminate]. Qed.

Lemma wordCount_join (ws : list string) :
  ws <> [] -> Forall word ws ->
  countRuns false (Str.chars (Str.join " " ws)) = Z.of_nat (length ws) - 1
  /\ forall b, countRuns b (Str.chars (Str.join " " ws))
               = countRuns false (Str.chars (Str.join " " ws)).
Proof.
  induction ws as [|x ws IH]; intros Hne H; [contradiction|].
  inversion H as [|? ? [Hx Hcs] Hws]; subst.
  destruct ws as [|y ws].
  - simpl. split; [apply countRuns_word; exact Hcs|].
    intros b. rewrite !countRuns_word by exact Hcs. reflexivity.
  - change (Str.join " " (x :: y :: ws)) with (x +:+ " " +:+ Str.join " " (y :: ws)).
    rewrite !chars_app. change (Str.chars " ") with [" "%char].
    destruct (IH ltac:(discriminate) Hws) as [IH1 IH2].
    split.
    + rewrite (countRuns_word_app (Str.chars x))
        by (try exact Hcs; apply chars_nonempty; exact Hx).
      simpl (countRuns false (_ ++ _)). cbn [countRuns Str.is_space].
      change (Str.is_space " ") with true. cbv iota.
      rewrite IH2, IH1. cbn [length]. lia.
    + intros b.
      rewrite (countRuns_word_app (Str.chars x) _ b),
        (countRuns_word_app (Str.chars x) _ false)
        by (try exact Hcs; apply chars_nonempty; exact Hx).
      reflexivity.
Qed.

Lemma countRuns_nonneg (l : list ascii) : forall b, 0 <= countRuns b l.
Proof.
  induction l as [|c l IH]; intros b; simpl; [lia|].
  destruct (Str.is_space c); [|apply IH].
  specialize (IH true). destruct b; lia.
Qed.

(** X24: the word count [addNote] stores is the number of words for words
    separated by single spaces, with no space before or after. It is one
    more than the number of runs of white space, hence never below 1: the
    empty text counts as one word and a text of white space only as two. *)
Theorem wordCount_of_words (ws : list string) :
  (ws <> [] -> Forall word ws -> wordCount (Str.join " " ws) = Z.of_nat (length ws)) /\
  wordCount "" = 1 /\
  wordCount "   " = 2 /\
  (forall content, 1 <= wordCount content).
Proof.
  split; [|split; [reflexivity|split; [reflexivity|]]].
  - intros Hne H. unfold wordCount. rewrite (proj1 (wordCount_join ws Hne H)). lia.
  - intros content. unfold wordCount. pose proof (countRuns_nonneg (Str.chars content) false).
    lia.
Qed.

End MemoryFacts.

Lemma wordCount_of_words_witness :
  MemoryManager.wordCount "Meeting notes about the project plan" = 6.
Proof.
  apply (proj1 (wordCount_of_words ["Meeting"; "notes"; "about"; "the"; "project"; "plan"])).
  - discriminate.
  - repeat constructor; discriminate.
Defined.

Section RetrievalFacts.
Import VectorStore.
Context (rt : Runtime) (cfg : Config).

Lemma rmapM_in {A B} (f : A -> Result B) (l : list A) : forall l',
  rmapM f l = Ok l' -> forall y, In y l' -> exists x, In x l /\ f x = Ok y.
Proof.
  induction l as [|x l IH]; intros l' H y Hy; simpl in H.
  - injection H as <-. destruct Hy.
  - destruct (f x) as [b|e] eqn:Hx; [|discriminate H]. simpl in H.
    destruct (rmapM f l) as [bs|e]; [|discriminate H]. simpl in H.
    injection H as <-. destruct Hy as [<-|Hy].
    + exists x. split; [left; reflexivity|exact Hx].
    + destruct (IH bs eq_refl y Hy) as (x0 & Hin & Hf). exists x0. split; [right|]; assumption.
Qed.

Lemma query_sources (vs : list VectorEntry) (q : list number) (k : Z)
    (out : list SimilarNote) :
  query rt vs q k = Ok out ->
  forall r, In r out -> exists e, In e vs /\ r = toSimilarNote (scoredBy q e).
Proof.
  unfold query. destruct (length vs =? 0)%nat; [intros [= <-] r []|].
  destruct (rmapM (score q) vs) as [sims|e] eqn:E; [|discriminate]. simpl.
  intros [= <-] r Hr. apply in_map_iff in Hr as (s & <- & Hs).
  destruct (slice0_take k (sortBySimilarity rt sims)) as (n & Hn). rewrite Hn in Hs.
  apply list_elem_of_In in Hs. apply subseteq_take in Hs. apply list_elem_of_In in Hs.
  apply (Permutation_in _ (sortBySimilarity_perm rt sims)) in Hs.
  destruct (rmapM_in _ _ _ E s Hs) as (x & Hx & Hf). exists x. split; [exact Hx|].
  unfold score, cosineSimilarity in Hf. destruct (negb _); [discriminate Hf|].
  simpl in Hf. injection Hf as <-. reflexivity.
Qed.

(** X25: what [addNote] stores, [findSimilarNotes] gives back. With an
    initialized memory, [addNote] throws what the embedding provider throws
    for the text of the note, and stores nothing. When the provider
    answers, [addNote] returns, and every result of a later search that has
    the id of the note has its path, the folder it was added with and the
    first 200 characters of its text as document; and when the provider
    answers the search too, the index and both embeddings have one
    dimension, and the search asks for at least as many results as the
    index has entries, the note is among the results. *)
Theorem addNote_then_find (embed : nat -> string -> Result (list number))
    (filePath content folderPath : string) (w : World) :
  embedFn rt = Some embed ->
  (forall e, embed (embedCalls w) content = Throw e ->
     MemoryManager.addNote rt cfg filePath content folderPath w = (called w, Throw e)) /\
  (forall v, embed (embedCalls w) content = Ok v ->
     exists w1,
       MemoryManager.addNote rt cfg filePath content folderPath w = (w1, Ok tt) /\
       (forall text topK results,
          snd (MemoryManager.findSimilarNotes rt text topK w1) = Ok results ->
          forall r, In r results -> sn_id r = filePath ->
            sn_filePath r = filePath /\ sn_folderPath r = folderPath /\
            sn_document r = Str.takeStr 200 content) /\
       (forall d text topK q,
          dimensioned d w -> length v = d ->
          embed (embedCalls w1) text = Ok q -> length q = d ->
          Z.of_nat (length (vectors w1)) <= topK ->
          exists results r,
            snd (MemoryManager.findSimilarNotes rt text topK w1) = Ok results /\
            In r results /\ sn_id r = filePath)).
Proof.
  intros He.
  pose proof (addNote_cases rt cfg embed filePath content folderPath w He) as A.
  split.
  { intros e Hv. rewrite Hv in A. exact A. }
  intros v Hv0. rewrite Hv0 in A. destruct A as (w1 & E & Hv & Hn & _).
  exists w1. split; [exact E|]. split.
  - intros text topK results. rewrite findSimilarNotes_run, He. cbn [snd].
    destruct (embed (embedCalls w1) text) as [q|e]; [|discriminate].
    destruct (query rt (vectors w1) q topK) as [out|e] eqn:Q; [|discriminate].
    intros [= <-] r Hr Hid.
    apply in_map_iff in Hr as (r0 & <- & Hr0). simpl in Hid |- *.
    destruct (query_sources _ _ _ _ Q r0 Hr0) as (e & Hin & ->).
    simpl in Hid. rewrite Hv in Hin. apply add_elem in Hin as [->|[_ Hne]].
    + simpl. rewrite Hn, lookup_insert_eq. simpl. repeat split; reflexivity.
    + simpl in Hne. contradiction.
  - intros d text topK q Hd Hlen Hq Hqd Hk. rewrite findSimilarNotes_run, He. cbn [snd].
    rewrite Hq. unfold query.
    assert (Hsame : same_dimension q (vectors w1)).
    { unfold same_dimension. rewrite Hqd, Hv. apply add_dimensioned; [exact Hd|].
      simpl. exact Hlen. }
    rewrite (scores_ok _ _ Hsame).
    destruct (length (vectors w1) =? 0)%nat eqn:Hz.
    { apply Nat.eqb_eq in Hz. rewrite Hv in Hz. unfold add in Hz.
      rewrite length_app in Hz. simpl in Hz. lia. }
    simpl. rewrite slice0_all.
    2:{ rewrite (Permutation_length (sortBySimilarity_perm rt _)), length_map. exact Hk. }
    eexists. eexists. split; [reflexivity|].
    split.
    + apply in_map. apply in_map.
      apply (Permutation_in _ (Permutation_sym (sortBySimilarity_perm rt _))).
      apply in_map. rewrite Hv. apply add_elem. left. reflexivity.
    + reflexivity.
Qed.

End RetrievalFacts.

(** The sample note is found again; with a provider that is down it is not
    added. *)
Lemma addNote_then_find_witness :
  (exists w1,
     MemoryManager.addNote (rt0 None Yes) cfg0 "/ws/work/plan.md" "The plan for the week"
       "work" w0 = (w1, Ok tt) /\
     exists results r,
       snd (MemoryManager.findSimilarNotes (rt0 None Yes) "What is planned" 5 w1)
       = Ok results /\
       In r results /\ sn_id r = "/ws/work/plan.md") /\
  MemoryManager.addNote (with_embed provider_down (rt0 None Yes)) cfg0 "/ws/work/plan.md"
    "The plan for the week" "work" w0
  = (called w0, Throw "fetch failed").
Proof.
  split.
  - destruct (proj2 (addNote_then_find (rt0 None Yes) cfg0 (fun _ _ => Ok [1; 0]%float)
                       "/ws/work/plan.md" "The plan for the week" "work" w0 eq_refl)
                [1; 0]%float eq_refl)
      as (w1 & E & _ & H).
    exists w1. split; [exact E|].
    apply (H 2%nat "What is planned" 5 [1; 0]%float).
    + constructor.
    + reflexivity.
    + reflexivity.
    + reflexivity.
    + apply (f_equal fst) in E. simpl in E. subst w1. vm_compute. discriminate.
  - apply (proj1 (addNote_then_find (with_embed provider_down (rt0 None Yes)) cfg0
                    provider_down "/ws/work/plan.md" "The plan for the week" "work" w0
                    eq_refl)).
    reflexivity.
Defined.

Section ReplyFacts.
Import NoteSorter.
Context (rt : Runtime) (cfg : Config).

Lemma parseLine_no_folder (acc : SortSuggestion) (line : string) :
  Str.startsWith (Str.trim line) "FOLDER:" = false ->
  folder (parseLine acc line) = folder acc.
Proof.
  intros H. unfold parseLine. rewrite H.
  destruct (Str.startsWith _ "CONFIDENCE:"); [reflexivity|].
  destruct (Str.startsWith _ "REASON:"); reflexivity.
Qed.

Lemma fold_parseLine_no_folder (lines : list string) : forall acc,
  Forall (fun line => Str.startsWith (Str.trim line) "FOLDER:" = false) lines ->
  folder (fold_left parseLine lines acc) = folder acc.
Proof.
  induction lines as [|line lines IH]; intros acc H; [reflexivity|].
  inversion H as [|? ? Hl Hls]; subst. simpl.
  rewrite (IH _ Hls). apply parseLine_no_folder. exact Hl.
Qed.

(** X26: a reply that has no line starting with FOLDER: (the key is
    matched in upper case, at the start of the trimmed line) gives no
    suggestion: [parseLLMResponse] leaves the folder empty, and [sortNote]
    returns the failure "No suggestion" and changes nothing but the
    console (and the count of the calls made to the embedding provider),
    whatever else the reply says. *)
Theorem unformatted_reply (notePath content response : string)
    (similarNotes : list SimilarNote) (auto dryRun : bool) (w : World) :
  names_no_folder response ->
  folder (parseLLMResponse response) = "" /\
  (answered rt cfg notePath w content similarNotes response ->
   sortNote rt cfg notePath auto dryRun w
   = (logged (ErrNoFolder (Path.basename notePath)) (called w),
      Ok (failed "No suggestion"))).
Proof.
  intros H.
  assert (Hf : folder (parseLLMResponse response) = "").
  { unfold parseLLMResponse.
    exact (fold_parseLine_no_folder _ (mkSuggestion "" 0%float "") H). }
  split; [exact Hf|]. intros Ha.
  rewrite (sortNote_answered rt cfg notePath content response similarNotes auto dryRun w Ha).
  apply applySuggestion_no_folder. exact Hf.
Qed.

End ReplyFacts.

Lemma unformatted_reply_witness :
  NoteSorter.sortNote (rt0 (Some "folder: work (I am 85% sure)") Yes) cfg0 inbox_note true
    false w0
  = (logged (ErrNoFolder "note.md") (called w0), Ok (failed "No suggestion")).
Proof.
  apply (proj2 (unformatted_reply (rt0 (Some "folder: work (I am 85% sure)") Yes) cfg0
                  inbox_note "Meeting notes about the project plan"
                  "folder: work (I am 85% sure)" [] true false w0
                  ltac:(repeat constructor))).
  apply answered_sample; try reflexivity.
  eexists. split; reflexivity.
Defined.
(** * Replies in the format of the prompt *)

Section ReplyFormat.
Import NoteSorter.

(** X27: a reply in the format the prompt asks for is parsed back to its
    fields. For a folder, a confidence and a reason that are each one line
    of text with no white space at either end, the confidence without a
    percent sign, [parseLLMResponse] returns the folder text and the
    reason text as they are, and as confidence the number [parseFloat]
    reads from the confidence text, divided by 100. *)
Theorem reply_round_trip (folderText confidenceText reasonText : string) :
  field folderText -> field confidenceText -> field reasonText ->
  ~ In "%"%char (Str.chars confidenceText) ->
  parseLLMResponse (reply folderText confidenceText reasonText)
  = mkSuggestion folderText (Str.parseFloat confidenceText / 100)%float reasonText.
Proof.
  intros [Tf Nf] [Tc Nc] [Tr Nr] Hp.
  assert (T1 : tight ("FOLDER: " +:+ folderText)) by (apply tight_app; [reflexivity|exact Tf]).
  assert (T2 : tight ("CONFIDENCE: " +:+ confidenceText))
    by (apply tight_app; [reflexivity|exact Tc]).
  assert (T3 : tight ("REASON: " +:+ reasonText)) by (apply tight_app; [reflexivity|exact Tr]).
  assert (N1 : ~ In "010"%char (Str.chars ("FOLDER: " +:+ folderText))).
  { apply append_line_free; [|exact Nf]. vm_compute. intuition discriminate. }
  assert (N2 : ~ In "010"%char (Str.chars ("CONFIDENCE: " +:+ confidenceText))).
  { apply append_line_free; [|exact Nc]. vm_compute. intuition discriminate. }
  assert (N3 : ~ In "010"%char (Str.chars ("REASON: " +:+ reasonText))).
  { apply append_line_free; [|exact Nr]. vm_compute. intuition discriminate. }
  unfold parseLLMResponse, reply.
  assert (Tall : tight ("FOLDER: " +:+ folderText +:+ nl +:+ "CONFIDENCE: "
                          +:+ confidenceText +:+ nl +:+ "REASON: " +:+ reasonText)).
  { apply tight_app; [reflexivity|]. destruct Tr as [_ Tr]. split.
    - destruct Tf as [Tf _]. rewrite chars_app.
      destruct (Str.chars folderText); [contradiction|exact Tf].
    - rewrite !chars_app, !rev_app_distr.
      destruct (rev (Str.chars reasonText)); [contradiction|exact Tr]. }
  rewrite (trim_tight _ Tall).
  replace ("FOLDER: " +:+ folderText +:+ nl +:+ "CONFIDENCE: " +:+ confidenceText
             +:+ nl +:+ "REASON: " +:+ reasonText)
    with (("FOLDER: " +:+ folderText) +:+ nl +:+
          (("CONFIDENCE: " +:+ confidenceText) +:+ nl +:+ ("REASON: " +:+ reasonText)))
    by (rewrite !append_assoc; reflexivity).
  rewrite !split_lines, (split_line _ N1), (split_line _ N2), (split_line _ N3).
  cbn [app fold_left]. unfold parseLine.
  rewrite (trim_tight _ T1), (trim_tight _ T2), (trim_tight _ T3).
  assert (S1 : Str.startsWith ("FOLDER: " +:+ folderText) "FOLDER:" = true)
    by (vm_compute; reflexivity).
  assert (S2 : Str.startsWith ("CONFIDENCE: " +:+ confidenceText) "FOLDER:" = false)
    by (vm_compute; reflexivity).
  assert (S3 : Str.startsWith ("CONFIDENCE: " +:+ confidenceText) "CONFIDENCE:" = true)
    by (vm_compute; reflexivity).
  assert (S4 : Str.startsWith ("REASON: " +:+ reasonText) "FOLDER:" = false)
    by (vm_compute; reflexivity).
  assert (S5 : Str.startsWith ("REASON: " +:+ reasonText) "CONFIDENCE:" = false)
    by (vm_compute; reflexivity).
  assert (S6 : Str.startsWith ("REASON: " +:+ reasonText) "REASON:" = true)
    by (vm_compute; reflexivity).
  assert (R1 : Str.replace "FOLDER:" "" ("FOLDER: " +:+ folderText) = String " " folderText)
    by (vm_compute; reflexivity).
  assert (R2 : Str.replace "CONFIDENCE:" "" ("CONFIDENCE: " +:+ confidenceText)
               = String " " confidenceText)
    by (vm_compute; reflexivity).
  assert (R3 : Str.replace "REASON:" "" ("REASON: " +:+ reasonText) = String " " reasonText)
    by (vm_compute; reflexivity).
  rewrite S1, S2, S3, S4, S5, S6, R1, R2, R3.
  rewrite (trim_space_tight _ Tf), (trim_space_tight _ Tc), (trim_space_tight _ Tr).
  cbn [folder confidence reason]. rewrite (replace_absent "%" _ Hp). reflexivity.
Qed.

End ReplyFormat.

Lemma reply_round_trip_witness :
  NoteSorter.parseLLMResponse (reply "projects/work/meetings" "85.5" "It is about the kickoff")
  = mkSuggestion "projects/work/meetings" (Str.parseFloat "85.5" / 100)%float
      "It is about the kickoff".
Proof.
  apply (reply_round_trip "projects/work/meetings" "85.5" "It is about the kickoff").
  - split; [split; reflexivity|]. vm_compute. intuition discriminate.
  - split; [split; reflexivity|]. vm_compute. intuition discriminate.
  - split; [split; reflexivity|]. vm_compute. intuition discriminate.
  - vm_compute. intuition discriminate.
Defined.
(** * Runs of the embedding on concrete inputs *)

Section Examples.

Example parseFloat_examples :
  Str.parseFloat "85" = 85%float /\
  Str.parseFloat "  12.5e1xyz" = 125%float /\
  Str.parseFloat "-.5" = (-0.5)%float /\
  Str.parseFloat "0.65" = 0.65%float /\
  Str.parseFloat "1e-320" = 1e-320%float /\
  Str.parseFloat "1.7976931348623159e308" = infinity /\
  Str.parseFloat "-Infinity" = neg_infinity /\
  Num.isNaN (Str.parseFloat "high") = true /\
  Num.isNaN (Str.parseFloat "") = true.
Proof. vm_compute. repeat split; reflexivity. Qed.

Example path_examples :
  Path.join "/ws" "work/meetings/" = "/ws/work/meetings/" /\
  Path.join "/ws/work/meetings/" "note.md" = "/ws/work/meetings/note.md" /\
  Path.join "/ws" "../x/./y" = "/x/y" /\
  Path.join "a/../.." "b" = "../b" /\
  Path.basename "/ws/inbox/note.md" = "note.md" /\
  Path.basename "/a/b//" = "b" /\
  Path.extname "/ws/inbox/note.md" = ".md" /\
  Path.extname "/a/.bashrc" = "" /\
  Path.extname "archive.tar.gz" = ".gz" /\
  Path.basename_ext "/ws/inbox/note.md" ".md" = "note".
Proof. vm_compute. repeat split; reflexivity. Qed.

Example cosineSimilarity_examples :
  VectorStore.cosineSimilarity [3; 4]%float [3; 4]%float = Ok 1%float /\
  VectorStore.cosineSimilarity [1; 0]%float [0; 1]%float = Ok 0%float /\
  VectorStore.cosineSimilarity [0; 0]%float [1; 2]%float = Ok 0%float /\
  VectorStore.cosineSimilarity [1; 0]%float [1]%float
  = Throw "Vectors must have same length".
Proof. vm_compute. repeat split; reflexivity. Qed.

Example parseLLMResponse_example :
  NoteSorter.parseLLMResponse
    (reply "projects/work/meetings" "85"
       "Content discusses project planning and matches existing meeting notes")
  = mkSuggestion "projects/work/meetings" 0.85%float
      "Content discusses project planning and matches existing meeting notes".
Proof. vm_compute. reflexivity. Qed.

(** A note close to the notes of work/meetings, a reply of confidence 85
    and the threshold 0.7: in automatic mode the note is moved there and
    the history gets one entry, of confidence 0.85. *)
Example sortNote_example :
  let indexed :=
    set_vectors [mkVectorEntry "/ws/work/meetings/kickoff.md" [1; 0]%float
                   (mkMetadata "/ws/work/meetings/kickoff.md" "work/meetings"
                      "2023-11-01T09:00:00.000Z");
                 mkVectorEntry "/ws/personal/health/run.md" [0; 1]%float
                   (mkMetadata "/ws/personal/health/run.md" "personal/health"
                      "2023-11-02T09:00:00.000Z")] w0 in
  let r := NoteSorter.sortNote
             (rt0 (Some (reply "work/meetings" "85" "It is a meeting note")) Yes)
             cfg0 inbox_note true false indexed in
  snd r = Ok (succeeded inbox_note "/ws/work/meetings/note.md" 0.85%float) /\
  sort_history (fst r)
  = [mkSortRow 1 inbox_note inbox_note "/ws/work/meetings/note.md" (Some 0.85%float)
       1700000000000] /\
  map ve_id (vectors (fst r))
  = ["/ws/work/meetings/kickoff.md"; "/ws/personal/health/run.md";
     "/ws/work/meetings/note.md"].
Proof. vm_compute. repeat split; reflexivity. Qed.

End Examples.
